(** * stock_skills: the Sharpe framework and the pullback detector

    A shallow embedding of [src/core/sharpe.py] and
    [src/core/screening/technicals.py], with the loader of
    [src/core/_thresholds.py] and the Sharpe screener of
    [src/core/screener.py].

    Numbers.  The code computes on IEEE-754 doubles.  They are modelled by
    the type [float] below: an exact rational, one of the two infinities, or
    NaN.  Arithmetic on finite values is exact (no rounding, no overflow, one
    zero, read as +0); the special values follow IEEE-754, so that a numpy
    division by zero gives an infinity or NaN and every comparison with NaN
    is false.  A Python-level division by zero raises [ZeroDivisionError].
    [numpy.log] and [numpy.sqrt] are parameters of the development (the
    class [Libm]).

    Effects.  Functions that can raise return in [py]; the orchestrator,
    which receives a reference to a dictionary, runs on a store of
    dictionary objects. *)

From Stdlib Require Import QArith Qround Lqa ZArith Lia.
From stdpp Require Import base option list gmap strings.

Local Open Scope Q_scope.

(** ** Floating-point values *)

Inductive float : Type :=
| Fin (q : Q)
| PInf
| NInf
| NaN.

Definition Qlt_bool (x y : Q) : bool := negb (Qle_bool y x).

Module FloatOps.

Definition sign_case {A} (q : Q) (pos neg zero : A) : A :=
  match q ?= 0 with
  | Gt => pos
  | Lt => neg
  | Eq => zero
  end.

Definition fadd (x y : float) : float :=
  match x, y with
  | NaN, _ | _, NaN => NaN
  | PInf, NInf | NInf, PInf => NaN
  | PInf, _ | _, PInf => PInf
  | NInf, _ | _, NInf => NInf
  | Fin a, Fin b => Fin (a + b)
  end.

Definition fneg (x : float) : float :=
  match x with
  | Fin a => Fin (- a)
  | PInf => NInf
  | NInf => PInf
  | NaN => NaN
  end.

Definition fsub (x y : float) : float := fadd x (fneg y).

Definition fmul (x y : float) : float :=
  match x, y with
  | NaN, _ | _, NaN => NaN
  | Fin a, Fin b => Fin (a * b)
  | Fin a, PInf | PInf, Fin a => sign_case a PInf NInf NaN
  | Fin a, NInf | NInf, Fin a => sign_case a NInf PInf NaN
  | PInf, PInf | NInf, NInf => PInf
  | PInf, NInf | NInf, PInf => NInf
  end.

(** IEEE division, as numpy performs it: a zero divisor gives an infinity
    of the sign of the dividend, or NaN for 0/0. *)
Definition fdiv (x y : float) : float :=
  match x, y with
  | NaN, _ | _, NaN => NaN
  | Fin a, Fin b =>
      if Qeq_bool b 0 then sign_case a PInf NInf NaN else Fin (a / b)
  | Fin _, (PInf | NInf) => Fin 0
  | PInf, Fin b => if Qle_bool 0 b then PInf else NInf
  | NInf, Fin b => if Qle_bool 0 b then NInf else PInf
  | (PInf | NInf), (PInf | NInf) => NaN
  end.

Definition fle (x y : float) : bool :=
  match x, y with
  | NaN, _ | _, NaN => false
  | NInf, _ | _, PInf => true
  | Fin a, Fin b => Qle_bool a b
  | PInf, _ | _, NInf => false
  end.

Definition flt (x y : float) : bool :=
  match x, y with
  | NaN, _ | _, NaN => false
  | PInf, _ | _, NInf => false
  | NInf, _ | _, PInf => true
  | Fin a, Fin b => Qlt_bool a b
  end.

Definition feq (x y : float) : bool :=
  match x, y with
  | Fin a, Fin b => Qeq_bool a b
  | PInf, PInf | NInf, NInf => true
  | _, _ => false
  end.

Definition isnan (x : float) : bool :=
  match x with
  | NaN => true
  | _ => false
  end.

End FloatOps.
Export FloatOps.

Declare Scope float_scope.
Delimit Scope float_scope with F.
Bind Scope float_scope with float.
Infix "+" := fadd : float_scope.
Infix "-" := fsub : float_scope.
Infix "*" := fmul : float_scope.
Infix "/" := fdiv : float_scope.
Infix "<=?" := fle : float_scope.
Infix "<?" := flt : float_scope.
Infix "=?" := feq : float_scope.

(** ** Python outcomes *)

Inductive exn : Type :=
| ZeroDivisionError
| IndexError.

Inductive py (A : Type) : Type :=
| Ret (a : A)
| Raise (e : exn).
Arguments Ret {A} a.
Arguments Raise {A} e.

#[global] Instance py_ret : MRet py := @Ret.
#[global] Instance py_bind : MBind py :=
  λ A B f m, match m with
             | Ret a => f a
             | Raise e => Raise e
             end.

(** [x / y] on Python floats. *)
Definition pydiv (x y : float) : py float :=
  if (y =? Fin 0)%F then Raise ZeroDivisionError else Ret (x / y)%F.

(** [min(a, b)] of Python: [b] when [b < a], else [a]. *)
Definition py_min (a b : float) : float :=
  if (b <? a)%F then b else a.

(** Truth value of an [Optional[float]]: [None] and zero are false. *)
Definition truthy (v : option float) : bool :=
  match v with
  | None => false
  | Some x => negb (x =? Fin 0)%F
  end.

(** [a or b] *)
Definition py_or (a b : option float) : option float :=
  if truthy a then a else b.

(** ** numpy *)

(** [numpy.log] and [numpy.sqrt] on finite arguments in their domain. *)
Class Libm : Type := {
  lnQ : Q → Q;
  sqrtQ : Q → Q
}.

Module Numpy.
Section WithLibm.
Context `{Libm}.

Definition np_log (x : float) : float :=
  match x with
  | Fin q => FloatOps.sign_case q (Fin (lnQ q)) NaN NInf
  | PInf => PInf
  | NInf | NaN => NaN
  end.

Definition np_sqrt (x : float) : float :=
  match x with
  | Fin q => if Qle_bool 0 q then Fin (sqrtQ q) else NaN
  | PInf => PInf
  | NInf | NaN => NaN
  end.

Definition np_sum (l : list float) : float := foldl fadd (Fin 0) l.

(** [numpy.diff]: consecutive differences, one element shorter. *)
Fixpoint np_diff (l : list float) : list float :=
  match l with
  | x :: (y :: _) as t => (y - x)%F :: np_diff t
  | _ => []
  end.

Definition of_nat (n : nat) : float := Fin (inject_Z (Z.of_nat n)).

Definition np_mean (l : list float) : float :=
  (np_sum l / of_nat (length l))%F.

(** [numpy.std(l, ddof=1)]: the divisor is [max(n - 1, 0)]. *)
Definition np_std_ddof1 (l : list float) : float :=
  let arrmean := np_mean l in
  let x := map (λ v, let d := (v - arrmean)%F in (d * d)%F) l in
  np_sqrt (np_sum x / of_nat (Nat.max (length l - 1) 0))%F.

End WithLibm.
End Numpy.
Export Numpy.

(** [l[-n:]] for [n >= 1]: the last [n] elements (all of [l] when shorter). *)
Definition last_n {A} (n : nat) (l : list A) : list A :=
  drop (length l - n) l.

(** ** sharpe.py *)

Module Sharpe.

(** *** Dictionaries

    [stock_detail] is a Python dict.  Its key ["price_history"] holds the
    list of closes; every other key holds an [Optional[float]] (a key may
    be missing, or present with the value [None]). *)

Record dict : Type := {
  price_history : option (list float);
  fields : gmap string (option float)
}.

(** [d.get(key)] *)
Definition get (d : dict) (key : string) : option float :=
  default None (fields d !! key).

(** [{**d, key: v}]: a new dictionary. *)
Definition with_field (d : dict) (key : string) (v : option float) : dict :=
  {| price_history := price_history d;
     fields := <[key := v]> (fields d) |}.

(** [thresholds.get(key, dflt)] *)
Definition th_get (thresholds : gmap string float) (key : string)
    (dflt : float) : float :=
  default dflt (thresholds !! key).

(** *** The store

    Dictionaries are objects: a variable holds a reference into the store.
    A dict display with [**] allocates a new object. *)

Abbreviation loc := nat (only parsing).
Abbreviation heap := (list dict) (only parsing).

Definition empty_dict : dict := {| price_history := None; fields := ∅ |}.

Definition deref (σ : heap) (l : loc) : dict := default empty_dict (σ !! l).

Definition alloc (σ : heap) (d : dict) : loc * heap :=
  (length σ, σ ++ [d]).

Section WithLibm.
Context `{Libm}.
Local Open Scope float_scope.

Definition DEFAULT_RF : float := Fin 0.005.

Definition annualize (std : float) : float := std * np_sqrt (Fin 252).

Definition calculate_hv (close_prices : list float) (window : nat)
  : option float :=
  if (length close_prices <? window + 1)%nat then None
  else
    let prices := last_n (window + 1) close_prices in
    if existsb (λ p, p <=? Fin 0) prices then None
    else
      let log_returns := np_diff (map np_log prices) in
      let std := np_std_ddof1 log_returns in
      Some (annualize std).

Definition calculate_upside_downside_vol
    (close_prices : list float) (window : nat)
  : option float * option float :=
  if (length close_prices <? window + 1)%nat then (None, None)
  else
    let prices := last_n (window + 1) close_prices in
    if existsb (λ p, p <=? Fin 0) prices then (None, None)
    else
      let log_returns := np_diff (map np_log prices) in
      let up_returns := List.filter (λ r, Fin 0 <? r) log_returns in
      let down_returns := List.filter (λ r, r <? Fin 0) log_returns in
      let upside_vol :=
        if (length up_returns <? 2)%nat then None
        else Some (annualize (np_std_ddof1 up_returns)) in
      let downside_vol :=
        if (length down_returns <? 2)%nat then None
        else Some (annualize (np_std_ddof1 down_returns)) in
      (upside_vol, downside_vol).

Definition calculate_expected_return
    (eps_growth dividend_yield fcf_yield : option float) : float :=
  let eg := default (Fin 0) eps_growth in
  let dy := default (Fin 0) dividend_yield in
  let fy := default (Fin 0) fcf_yield in
  eg + dy + fy.

Definition calculate_adjusted_sr
    (expected_return rf : float)
    (hv30 hv90 upside_vol downside_vol : option float)
  : py (option float) :=
  match hv30 with
  | None => Ret None
  | Some hv30 =>
      if hv30 <=? Fin 0 then Ret None
      else
        sr ← pydiv (expected_return - rf) (hv30 * Fin 0.8);
        vol_trend ←
          match hv90 with
          | Some hv90 =>
              if Fin 0 <? hv30 then pydiv hv90 hv30 else Ret (Fin 1)
          | None => Ret (Fin 1)
          end;
        asymmetry ←
          match upside_vol, downside_vol with
          | Some upside_vol, Some downside_vol =>
              if Fin 0 <? downside_vol then
                r ← pydiv upside_vol downside_vol;
                Ret (py_min r (Fin 2))
              else Ret (Fin 1)
          | _, _ => Ret (Fin 1)
          end;
        Ret (Some (sr * vol_trend * asymmetry))
  end.

Definition check_low_volatility (hv30 : option float) (threshold : float)
  : bool :=
  match hv30 with
  | None => false
  | Some hv30 => hv30 <? threshold
  end.

Definition check_undervalued (per pbr : option float)
    (per_max pbr_max : float) : bool :=
  match per, pbr with
  | Some per, Some pbr =>
      ((Fin 0 <? per) && (per <? per_max))
      && ((Fin 0 <? pbr) && (pbr <? pbr_max))
  | _, _ => false
  end.

Definition check_financial_stability
    (equity_ratio operating_cf net_income fcf total_debt ebitda
      : option float) : py bool :=
  match equity_ratio with
  | None => Ret false
  | Some equity_ratio =>
  if equity_ratio <=? Fin 0.40 then Ret false else
  match operating_cf, net_income with
  | None, _ | _, None => Ret false
  | Some operating_cf, Some net_income =>
  if operating_cf <=? net_income then Ret false else
  match fcf with
  | None => Ret false
  | Some fcf =>
  if fcf <=? Fin 0 then Ret false else
  debt_fails ←
    match ebitda with
    | Some ebitda =>
        if Fin 0 <? ebitda then
          let debt := default (Fin 0) total_debt in
          r ← pydiv debt ebitda;
          Ret (Fin 3 <=? r)
        else Ret false
    | None => Ret false
    end;
  if debt_fails : bool then Ret false else
  match ebitda with
  | Some ebitda => if ebitda <=? Fin 0 then Ret false else Ret true
  | None => Ret true
  end
  end
  end
  end.

Definition check_eps_growth (eps_growth revenue_growth roe : option float)
  : bool :=
  match eps_growth with
  | None => false
  | Some eps_growth =>
  if eps_growth <=? Fin 0.05 then false else
  match revenue_growth with
  | None => false
  | Some revenue_growth =>
  if revenue_growth <=? Fin 0 then false else
  match roe with
  | None => false
  | Some roe => if roe <=? Fin 0.08 then false else true
  end
  end
  end.

Definition calculate_condition_multiplier (passed_count : Z)
  : option float :=
  if (4 <=? passed_count)%Z then Some (Fin 1)
  else if (passed_count =? 3)%Z then Some (Fin 0.8)
  else None.

Record condition_details_t : Type := {
  low_volatility : bool;
  undervalued : bool;
  financial_stability : bool;
  eps_growth_ok : bool;
  catalyst : option bool
}.

Definition count_true (l : list bool) : Z :=
  Z.of_nat (length (List.filter id l)).

Definition count_conditions_passed
    (stock_detail : dict) (thresholds : gmap string float)
  : py (Z * condition_details_t) :=
  let hv_threshold := th_get thresholds "hv_threshold" (Fin 0.25) in
  let per_max := th_get thresholds "per_max" (Fin 15) in
  let pbr_max := th_get thresholds "pbr_max" (Fin 1.5) in
  let hv30 := get stock_detail "hv30" in
  let per := py_or (get stock_detail "trailingPE") (get stock_detail "per") in
  let pbr := py_or (get stock_detail "priceToBook") (get stock_detail "pbr") in
  let equity_ratio := get stock_detail "equity_ratio" in
  let operating_cf :=
    py_or (get stock_detail "operating_cashflow")
          (get stock_detail "operatingCashflow") in
  let net_income :=
    py_or (py_or (get stock_detail "net_income_stmt")
                 (get stock_detail "netIncome"))
          (get stock_detail "net_income") in
  let fcf :=
    py_or (py_or (get stock_detail "fcf") (get stock_detail "free_cashflow"))
          (get stock_detail "freeCashflow") in
  let total_debt :=
    py_or (get stock_detail "total_debt") (get stock_detail "totalDebt") in
  let ebitda := get stock_detail "ebitda" in
  let eps_growth :=
    py_or (get stock_detail "earningsGrowth") (get stock_detail "eps_growth") in
  let revenue_growth :=
    py_or (get stock_detail "revenueGrowth")
          (get stock_detail "revenue_growth") in
  let roe := py_or (get stock_detail "returnOnEquity") (get stock_detail "roe") in
  let c1 := check_low_volatility hv30 hv_threshold in
  let c2 := check_undervalued per pbr per_max pbr_max in
  c3 ← check_financial_stability
         equity_ratio operating_cf net_income fcf total_debt ebitda;
  let c4 := check_eps_growth eps_growth revenue_growth roe in
  let details :=
    {| low_volatility := c1;
       undervalued := c2;
       financial_stability := c3;
       eps_growth_ok := c4;
       catalyst := None |} in
  let passed := count_true [c1; c2; c3; c4] in
  Ret (passed, details).

Record SharpeResult : Type := {
  expected_return : float;
  hv30 : option float;
  hv90 : option float;
  upside_vol : option float;
  downside_vol : option float;
  raw_sr : option float;
  adjusted_sr : option float;
  conditions_passed : Z;
  condition_details : condition_details_t;
  condition_multiplier : float;
  final_score : option float;
  fcf_yield : option float;
  rf : float
}.

Definition compute_full_sharpe_score
    (σ : heap) (stock_detail : loc)
    (thresholds : gmap string float) (rf : float)
  : py (option SharpeResult) * heap :=
  let price_history := default [] (price_history (deref σ stock_detail)) in
  let hv30 := calculate_hv price_history 30 in
  let hv90 := calculate_hv price_history 90 in
  let '(upside_vol, downside_vol) :=
    calculate_upside_downside_vol price_history 30 in
  let '(stock_detail_with_hv, σ) :=
    alloc σ (with_field (deref σ stock_detail) "hv30" hv30) in
  let eps_growth :=
    py_or (get (deref σ stock_detail) "eps_growth")
          (get (deref σ stock_detail) "earnings_growth") in
  let dividend_yield := get (deref σ stock_detail) "dividend_yield" in
  let fcf_yield := get (deref σ stock_detail) "fcf_yield" in
  let outcome :=
    fcf_yield ←
      match fcf_yield with
      | Some _ => Ret fcf_yield
      | None =>
          let fcf :=
            py_or (get (deref σ stock_detail) "fcf")
                  (get (deref σ stock_detail) "free_cashflow") in
          let market_cap := get (deref σ stock_detail) "market_cap" in
          match fcf, market_cap with
          | Some fcf, Some market_cap =>
              if Fin 0 <? market_cap then
                r ← pydiv fcf market_cap; Ret (Some r)
              else Ret None
          | _, _ => Ret None
          end
      end;
    let expected_return :=
      calculate_expected_return eps_growth dividend_yield fcf_yield in
    let expected_return := py_min expected_return (Fin 1) in
    '(raw_sr, adjusted_sr) ←
      match hv30 with
      | None => Ret (None, None)
      | Some hv =>
          if hv <=? Fin 0 then Ret (None, None)
          else
            raw_sr ← pydiv (expected_return - rf) (hv * Fin 0.8);
            adjusted_sr ←
              calculate_adjusted_sr expected_return rf hv30 hv90
                upside_vol downside_vol;
            Ret (Some raw_sr, adjusted_sr)
      end;
    '(conditions_passed, condition_details) ←
      count_conditions_passed (deref σ stock_detail_with_hv) thresholds;
    let condition_multiplier :=
      calculate_condition_multiplier conditions_passed in
    match condition_multiplier with
    | None => Ret None
    | Some condition_multiplier =>
        let final_score :=
          match adjusted_sr with
          | Some adjusted_sr => Some (adjusted_sr * condition_multiplier)
          | None => None
          end in
        Ret (Some
          {| expected_return := expected_return;
             hv30 := hv30;
             hv90 := hv90;
             upside_vol := upside_vol;
             downside_vol := downside_vol;
             raw_sr := raw_sr;
             adjusted_sr := adjusted_sr;
             conditions_passed := conditions_passed;
             condition_details := condition_details;
             condition_multiplier := condition_multiplier;
             final_score := final_score;
             fcf_yield := fcf_yield;
             rf := rf |})
    end in
  (outcome, σ).

End WithLibm.
End Sharpe.

(** ** The figures of the specification

    Definitions that follow the words of the specification, against which
    the functions of [sharpe.py] are compared. *)

Module SharpeSpec.
Section Figures.
Local Open Scope float_scope.

(** raw_sr = (expected_return - rf) / (hv30 * 0.8) *)
Definition raw_sr_of (expected_return rf hv30 : float) : float :=
  (expected_return - rf) / (hv30 * Fin 0.8).

(** vol_trend = hv90 / hv30 when hv90 is present, else the neutral 1.0 *)
Definition vol_trend_of (hv90 : option float) (hv30 : float) : float :=
  match hv90 with
  | Some hv90 => hv90 / hv30
  | None => Fin 1
  end.

(** asymmetry = min(upside_vol / downside_vol, 2.0) when both are present
    and downside_vol > 0, else the neutral 1.0 *)
Definition asymmetry_of (upside_vol downside_vol : option float) : float :=
  match upside_vol, downside_vol with
  | Some u, Some d =>
      if Fin 0 <? d then py_min (u / d) (Fin 2) else Fin 1
  | _, _ => Fin 1
  end.

(** absent when hv30 is absent or <= 0, else the product of the three *)
Definition adjusted_sr_of (expected_return rf : float)
    (hv30 hv90 upside_vol downside_vol : option float) : option float :=
  match hv30 with
  | None => None
  | Some h =>
      if h <=? Fin 0 then None
      else Some (raw_sr_of expected_return rf h
                 * vol_trend_of hv90 h
                 * asymmetry_of upside_vol downside_vol)
  end.

End Figures.
End SharpeSpec.

(** The financial-stability condition in the words of the specification,
    over a snapshot of finite metrics. *)

Module StabilitySpec.
Section Words.
Local Open Scope Q_scope.

Definition financial_stability_holds
    (equity_ratio operating_cf net_income fcf total_debt ebitda : option Q)
  : Prop :=
  (∃ e, equity_ratio = Some e ∧ 0.40 < e)
  ∧ (∃ o n, operating_cf = Some o ∧ net_income = Some n ∧ n < o)
  ∧ (∃ f, fcf = Some f ∧ 0 < f)
  ∧ (∀ b, ebitda = Some b → 0 < b → default 0 total_debt / b < 3)
  ∧ (∀ b, ebitda = Some b → ¬ b <= 0).

(** The three sub-checks that do not involve EBITDA. *)
Definition other_three_hold
    (equity_ratio operating_cf net_income fcf : option Q) : Prop :=
  (∃ e, equity_ratio = Some e ∧ 0.40 < e)
  ∧ (∃ o n, operating_cf = Some o ∧ net_income = Some n ∧ n < o)
  ∧ (∃ f, fcf = Some f ∧ 0 < f).

End Words.

Section Computed.
Local Open Scope float_scope.

(** The sub-checks on the values as the program compares them: [<?], [<=?]
    and [/] are the comparisons and the division of its floats. *)
Definition financial_stability_computed
    (equity_ratio operating_cf net_income fcf total_debt ebitda
      : option float) : Prop :=
  (∃ e, equity_ratio = Some e ∧ (Fin 0.40 <? e) = true)
  ∧ (∃ o n, operating_cf = Some o ∧ net_income = Some n ∧ (n <? o) = true)
  ∧ (∃ f, fcf = Some f ∧ (Fin 0 <? f) = true)
  ∧ (∀ b, ebitda = Some b → (Fin 0 <? b) = true →
          (default (Fin 0) total_debt / b <? Fin 3) = true)
  ∧ (∀ b, ebitda = Some b → (b <=? Fin 0) = false).

(** The three sub-checks that do not involve EBITDA. *)
Definition other_three_computed
    (equity_ratio operating_cf net_income fcf : option float) : Prop :=
  (∃ e, equity_ratio = Some e ∧ (Fin 0.40 <? e) = true)
  ∧ (∃ o n, operating_cf = Some o ∧ net_income = Some n ∧ (n <? o) = true)
  ∧ (∃ f, fcf = Some f ∧ (Fin 0 <? f) = true).

End Computed.
End StabilitySpec.

(** What the orchestrator reads from a snapshot, in the words of the
    specification. *)

Module OrchestratorSpec.
Import Sharpe SharpeSpec.
Section WithLibm.
Context `{Libm}.
Local Open Scope float_scope.

Definition history (d : dict) : list float := default [] (price_history d).

(** The snapshot augmented with the freshly computed hv30. *)
Definition snapshot_with_hv (d : dict) : dict :=
  with_field d "hv30" (calculate_hv (history d) 30).

(** fcf_yield, when not directly supplied, is free cash flow / market cap
    when both are present and market cap > 0, else absent. *)
Definition fcf_yield_of (d : dict) : option float :=
  match get d "fcf_yield" with
  | Some y => Some y
  | None =>
      match py_or (get d "fcf") (get d "free_cashflow"), get d "market_cap" with
      | Some fcf, Some market_cap =>
          if Fin 0 <? market_cap then Some (fcf / market_cap) else None
      | _, _ => None
      end
  end.

(** expected_return = eps_growth + dividend_yield + fcf_yield, capped at 1.0 *)
Definition capped_expected_return (d : dict) : float :=
  py_min
    (calculate_expected_return
       (py_or (get d "eps_growth") (get d "earnings_growth"))
       (get d "dividend_yield")
       (fcf_yield_of d))
    (Fin 1).

(** raw_sr: absent when hv30 is absent or <= 0 *)
Definition raw_sr_opt (expected_return rf : float) (hv30 : option float)
  : option float :=
  match hv30 with
  | None => None
  | Some h =>
      if h <=? Fin 0 then None else Some (raw_sr_of expected_return rf h)
  end.

(** final_score = adjusted_sr * multiplier when adjusted_sr is present *)
Definition final_score_of (adjusted_sr : option float) (multiplier : float)
  : option float :=
  match adjusted_sr with
  | Some a => Some (a * multiplier)
  | None => None
  end.

(** The result record for a snapshot that passed [count] conditions with
    multiplier [m]. *)
Definition result_of (d : dict) (rf : float) (count : Z)
    (details : condition_details_t) (m : float) : SharpeResult :=
  let er := capped_expected_return d in
  let hv30 := calculate_hv (history d) 30 in
  let hv90 := calculate_hv (history d) 90 in
  let vols := calculate_upside_downside_vol (history d) 30 in
  let adjusted := adjusted_sr_of er rf hv30 hv90 vols.1 vols.2 in
  {| expected_return := er;
     hv30 := hv30;
     hv90 := hv90;
     upside_vol := vols.1;
     downside_vol := vols.2;
     raw_sr := raw_sr_opt er rf hv30;
     adjusted_sr := adjusted;
     conditions_passed := count;
     condition_details := details;
     condition_multiplier := m;
     final_score := final_score_of adjusted m;
     fcf_yield := fcf_yield_of d;
     rf := rf |}.

End WithLibm.
End OrchestratorSpec.

(** ** Concrete inputs *)

Module Examples.
Import Sharpe.
Local Open Scope Q_scope.

(** A coarse [Libm], to run the model on concrete inputs: the square root
    to nine decimals, the logarithm by four terms of its artanh series. *)
Definition approx_sqrt (q : Q) : Q :=
  (Z.sqrt (Qnum q * 10 ^ 18 / Z.pos (Qden q)) # 10 ^ 9).

Definition approx_ln (q : Q) : Q :=
  let z := (q - 1) / (q + 1) in
  let z2 := z * z in
  Qred (2 * z * (1 + z2 * ((1 # 3) + z2 * ((1 # 5) + z2 * (1 # 7))))).

Definition approx_libm : Libm :=
  {| lnQ := approx_ln; sqrtQ := approx_sqrt |}.

Definition snapshot (l : list (string * Q)) : dict :=
  {| price_history := None;
     fields := list_to_map (prod_map id (Some ∘ Fin) <$> l) |}.

(** Undervalued, financially stable and growing, with no price history:
    three conditions pass. *)
Definition three_pass : dict :=
  snapshot
    [("per", 10); ("pbr", 1);
     ("equity_ratio", 0.5); ("operating_cashflow", 100);
     ("net_income_stmt", 50); ("fcf", 10); ("total_debt", 0);
     ("eps_growth", 0.6); ("revenueGrowth", 0.1); ("roe", 0.1);
     ("dividend_yield", 0.6); ("fcf_yield", 0)].

(** Only undervalued: one condition passes. *)
Definition one_pass : dict := snapshot [("per", 10); ("pbr", 1)].

(** Net income 0 under the key [net_income], the other stability
    sub-checks satisfied. *)
Definition zero_net_income : dict :=
  snapshot
    [("equity_ratio", 0.5); ("operating_cashflow", 100);
     ("net_income", 0); ("fcf", 10)].

(** The same with the zero under the key [netIncome]. *)
Definition zero_netIncome : dict :=
  snapshot
    [("equity_ratio", 0.5); ("operating_cashflow", 100);
     ("netIncome", 0); ("fcf", 10)].

End Examples.

(** Volatility in the words of the specification. *)

Module VolatilitySpec.
Section WithLibm.
Context `{Libm}.

Definition Qsum (l : list Q) : Q := foldl Qplus 0%Q l.

Definition Qmean (l : list Q) : Q :=
  (Qsum l / inject_Z (Z.of_nat (length l)))%Q.

(** The sample variance: squared deviations from the mean, summed and
    divided by n - 1. *)
Definition sample_variance (l : list Q) : Q :=
  (Qsum (map (λ r, (r - Qmean l) * (r - Qmean l)) l)
   / inject_Z (Z.of_nat (length l - 1)))%Q.

(** The windowing: the most recent [window + 1] prices and their log
    returns. *)
Definition recent (prices : list float) (window : nat) : list float :=
  last_n (window + 1) prices.

Definition log_returns (prices : list float) (window : nat) : list float :=
  np_diff (map np_log (recent prices window)).

(** A sub-volatility: absent unless the subset has at least 2 observations. *)
Definition sub_volatility (subset : list float) : option float :=
  if (length subset <? 2)%nat then None
  else Some (np_std_ddof1 subset * np_sqrt (Fin 252))%F.

End WithLibm.
End VolatilitySpec.

(** ** Rounding

    [round(x, ndigits)] of Python on a float: the nearest multiple of
    [10^-ndigits], ties to even; a non-finite value is returned as it is. *)
Definition round_half_even (q : Q) : Z :=
  let f := Qfloor q in
  match (q - inject_Z f ?= 1 # 2)%Q with
  | Lt => f
  | Gt => (f + 1)%Z
  | Eq => if Z.even f then f else (f + 1)%Z
  end.

Definition py_round (x : float) (ndigits : nat) : float :=
  match x with
  | Fin q =>
      let scale := inject_Z (10 ^ Z.of_nat ndigits) in
      Fin (Qred (inject_Z (round_half_even (q * scale)) / scale))
  | _ => x
  end.

(** ** pandas

    Series are lists of floats; each operation follows the behaviour pandas
    documents for it, on exact values. *)

Module Pandas.
Section WithLibm.
Context `{Libm}.
Local Open Scope float_scope.

(** [s.iloc[idx]]: a negative index counts from the end; out of range
    raises. *)
Definition iloc (s : list float) (idx : Z) : py float :=
  let i := if (idx <? 0)%Z then (idx + Z.of_nat (length s))%Z else idx in
  if (i <? 0)%Z then Raise IndexError
  else match s !! Z.to_nat i with
       | Some x => Ret x
       | None => Raise IndexError
       end.

(** [s.iloc[a:b]] for [0 <= a] and [0 <= b]. *)
Definition iloc_slice (s : list float) (a b : Z) : list float :=
  take (Z.to_nat b - Z.to_nat a) (drop (Z.to_nat a) s).

Definition dropna (s : list float) : list float :=
  List.filter (λ x, negb (isnan x)) s.

(** [s.mean()] and [s.max()] skip NaN; with nothing left they are NaN. *)
Definition series_mean (s : list float) : float := np_mean (dropna s).

Definition series_max (s : list float) : float :=
  match dropna s with
  | [] => NaN
  | x :: t => foldl (λ m y, if m <? y then y else m) x t
  end.

(** The window of [window] values that ends at position [i]. *)
Definition window_at (window i : nat) (s : list float) : list float :=
  take window (drop (i + 1 - window) s).

(** The values a rolling or exponentially weighted window runs on: pandas
    replaces the infinities by NaN before its window kernels
    ([_prep_values]). *)
Definition prep_values (s : list float) : list float :=
  map (λ x, match x with
            | PInf | NInf => NaN
            | _ => x
            end) s.

(** [s.rolling(window).mean()]: NaN until the window is full, and wherever
    the window holds a NaN or an infinity. *)
Definition rolling_mean (window : nat) (s : list float) : list float :=
  let values := prep_values s in
  map (λ i, if (i + 1 <? window)%nat then NaN
            else np_mean (window_at window i values))
      (seq 0 (length s)).

(** [s.rolling(window).std()]: the sample standard deviation (ddof = 1). *)
Definition rolling_std (window : nat) (s : list float) : list float :=
  let values := prep_values s in
  map (λ i, if (i + 1 <? window)%nat then NaN
            else np_std_ddof1 (window_at window i values))
      (seq 0 (length s)).

(** [s.diff()]: NaN, then the consecutive differences. *)
Definition series_diff (s : list float) : list float :=
  match s with
  | [] => []
  | _ :: _ => NaN :: np_diff s
  end.

(** [s.where(cond, other)] *)
Definition where_ (cond : list bool) (other : float) (s : list float)
  : list float :=
  zip_with (λ (c : bool) x, if c then x else other) cond s.

(** [s.ewm(alpha=alpha, min_periods=minp, adjust=False).mean()], after the
    loop of pandas, on the values with the infinities replaced by NaN: the
    running weighted mean, the weight of the past and the number of
    observations seen. *)
Record ewm_state : Type := {
  weighted : float;
  old_wt : float;
  nobs : nat
}.

Definition ewm_init (x : float) : ewm_state :=
  {| weighted := x;
     old_wt := Fin 1;
     nobs := if isnan x then 0 else 1 |}.

Definition ewm_step (alpha : float) (st : ewm_state) (cur : float)
  : ewm_state :=
  let is_observation := negb (isnan cur) in
  let nobs' := (nobs st + if is_observation then 1 else 0)%nat in
  if negb (isnan (weighted st)) then
    let old_wt' := old_wt st * (Fin 1 - alpha) in
    if is_observation then
      {| weighted :=
           if weighted st =? cur then weighted st
           else (old_wt' * weighted st + alpha * cur) / (old_wt' + alpha);
         old_wt := Fin 1;
         nobs := nobs' |}
    else {| weighted := weighted st; old_wt := old_wt'; nobs := nobs' |}
  else if is_observation then
    {| weighted := cur; old_wt := old_wt st; nobs := nobs' |}
  else {| weighted := weighted st; old_wt := old_wt st; nobs := nobs' |}.

Definition ewm_output (minp : nat) (st : ewm_state) : float :=
  if (Nat.max minp 1 <=? nobs st)%nat then weighted st else NaN.

Fixpoint ewm_loop (alpha : float) (minp : nat) (st : ewm_state)
    (rest : list float) : list float :=
  match rest with
  | [] => []
  | cur :: rest' =>
      let st' := ewm_step alpha st cur in
      ewm_output minp st' :: ewm_loop alpha minp st' rest'
  end.

Definition ewm_mean (alpha : float) (minp : nat) (s : list float)
  : list float :=
  match prep_values s with
  | [] => []
  | x :: rest =>
      ewm_output minp (ewm_init x) :: ewm_loop alpha minp (ewm_init x) rest
  end.

End WithLibm.
End Pandas.
Export Pandas.

(** ** _thresholds.py *)

Module Thresholds.

(** The loaded configuration: section, then key.  It is empty when the file
    is missing or unreadable.  Every section is a mapping from keys to
    numbers: a file in which a section is null or not a mapping (on which
    [th] raises AttributeError), or in which a value is not a number, is
    outside this type. *)
Abbreviation config := (gmap string (gmap string float)) (only parsing).

(** [th(section, key, default)] *)
Definition th (cfg : config) (section key : string) (dflt : float) : float :=
  default dflt (default ∅ (cfg !! section) !! key).

End Thresholds.
Export Thresholds.

(** ** technicals.py *)

Module Technicals.

(** A row of the frame returned by [ticker.history()]. *)
Record PriceBar : Type := {
  bar_close : float;
  bar_volume : float
}.

Abbreviation DataFrame := (list PriceBar) (only parsing).

Record BounceDetails : Type := {
  rsi_reversal : bool;
  rsi_depth_bonus : bool;
  bb_proximity : bool;
  volume_surge : bool;
  price_reversal : bool;
  lookback_day : nat
}.

Record PullbackReport : Type := {
  uptrend : bool;
  is_pullback : bool;
  pullback_pct : float;
  bounce_signal : bool;
  bounce_score : float;
  bounce_details : BounceDetails;
  rsi : float;
  volume_ratio : float;
  sma50 : float;
  sma200 : float;
  current_price : float;
  recent_high : float;
  all_conditions : bool
}.

Definition no_bounce (day : nat) : BounceDetails :=
  {| rsi_reversal := false;
     rsi_depth_bonus := false;
     bb_proximity := false;
     volume_surge := false;
     price_reversal := false;
     lookback_day := day |}.

(** The result for insufficient data. *)
Definition default_report : PullbackReport :=
  {| uptrend := false;
     is_pullback := false;
     pullback_pct := Fin 0;
     bounce_signal := false;
     bounce_score := Fin 0;
     bounce_details := no_bounce 0;
     rsi := NaN;
     volume_ratio := NaN;
     sma50 := NaN;
     sma200 := NaN;
     current_price := NaN;
     recent_high := NaN;
     all_conditions := false |}.

Section WithLibm.
Context `{Libm}.
Local Open Scope float_scope.

Definition compute_rsi (close : list float) (period : nat)
  : py (list float) :=
  let delta := series_diff close in
  let gain := where_ (map (λ d, Fin 0 <? d) delta) (Fin 0) delta in
  let loss := where_ (map (λ d, d <? Fin 0) delta) (Fin 0) (map fneg delta) in
  alpha ← pydiv (Fin 1) (of_nat period);
  let avg_gain := ewm_mean alpha period gain in
  let avg_loss := ewm_mean alpha period loss in
  let rs := zip_with fdiv avg_gain avg_loss in
  let rsi := map (λ r, Fin 100 - Fin 100 / (Fin 1 + r)) rs in
  Ret rsi.

Definition compute_bollinger_bands
    (close : list float) (period : nat) (std_dev : float)
  : list float * list float * list float :=
  let middle := rolling_mean period close in
  let rolling_std := rolling_std period close in
  let upper := zip_with (λ m s, m + std_dev * s) middle rolling_std in
  let lower := zip_with (λ m s, m - std_dev * s) middle rolling_std in
  (upper, middle, lower).

(** The body of the lookback loop for one offset: the score of that day and
    the sub-conditions that fired. *)
Definition bounce_day (cfg : config)
    (close volume rsi_series lower_band : list float) (offset : nat)
  : py (float * BounceDetails) :=
  let _rsi_rev_lo := th cfg "technicals" "rsi_reversal_lo" (Fin 25) in
  let _rsi_rev_hi := th cfg "technicals" "rsi_reversal_hi" (Fin 50) in
  let _rsi_dep_lo := th cfg "technicals" "rsi_depth_lo" (Fin 25) in
  let _rsi_dep_hi := th cfg "technicals" "rsi_depth_hi" (Fin 35) in
  let _bb_prox := th cfg "technicals" "bb_proximity_mult" (Fin 1.02) in
  let _vol_surge := th cfg "technicals" "volume_surge_ratio" (Fin 1.2) in
  let _sc_rsi_rev := th cfg "technicals" "score_rsi_reversal" (Fin 40) in
  let _sc_rsi_dep := th cfg "technicals" "score_rsi_depth" (Fin 15) in
  let _sc_bb := th cfg "technicals" "score_bb_proximity" (Fin 25) in
  let _sc_vol := th cfg "technicals" "score_volume_surge" (Fin 10) in
  let _sc_price := th cfg "technicals" "score_price_reversal" (Fin 10) in
  let len (s : list float) : Z := Z.of_nat (length s) in
  let idx := (-1 - Z.of_nat offset)%Z in
  day_rsi ← iloc rsi_series idx;
  day_prev_rsi ←
    (if (Z.abs (idx - 1) <? len rsi_series)%Z
     then iloc rsi_series (idx - 1) else Ret NaN);
  day_close ← iloc close idx;
  day_prev_close ←
    (if (Z.abs (idx - 1) <? len close)%Z
     then iloc close (idx - 1) else Ret NaN);
  day_lower ←
    (if (Z.abs idx <? len lower_band)%Z then
       x ← iloc lower_band idx;
       if negb (isnan x) then iloc lower_band idx else Ret NaN
     else Ret NaN);
  let day_volume_ratio :=
    if (Z.abs idx <? len volume)%Z then
      let day_vol_5 :=
        series_mean
          (iloc_slice volume (Z.max 0 (len volume + idx - 4))
                      (len volume + idx + 1)) in
      let day_vol_20 :=
        series_mean
          (iloc_slice volume (Z.max 0 (len volume + idx - 19))
                      (len volume + idx + 1)) in
      if Fin 0 <? day_vol_20 then day_vol_5 / day_vol_20 else NaN
    else NaN in
  let day_score := Fin 0 in
  let c_rsi_reversal :=
    (_rsi_rev_lo <=? day_rsi) && (day_rsi <=? _rsi_rev_hi)
    && negb (isnan day_prev_rsi) && (day_prev_rsi <? day_rsi) in
  let day_score :=
    if c_rsi_reversal then day_score + _sc_rsi_rev else day_score in
  let c_rsi_depth_bonus :=
    (_rsi_dep_lo <=? day_rsi) && (day_rsi <=? _rsi_dep_hi) in
  let day_score :=
    if c_rsi_depth_bonus then day_score + _sc_rsi_dep else day_score in
  let c_bb_proximity :=
    negb (isnan day_lower) && (Fin 0 <? day_lower)
    && (day_close <=? day_lower * _bb_prox) in
  let day_score :=
    if c_bb_proximity then day_score + _sc_bb else day_score in
  let c_volume_surge :=
    negb (isnan day_volume_ratio) && (_vol_surge <? day_volume_ratio) in
  let day_score :=
    if c_volume_surge then day_score + _sc_vol else day_score in
  let c_price_reversal :=
    negb (isnan day_prev_close) && (day_prev_close <? day_close) in
  let day_score :=
    if c_price_reversal then day_score + _sc_price else day_score in
  Ret (day_score,
       {| rsi_reversal := c_rsi_reversal;
          rsi_depth_bonus := c_rsi_depth_bonus;
          bb_proximity := c_bb_proximity;
          volume_surge := c_volume_surge;
          price_reversal := c_price_reversal;
          lookback_day := offset |}).

(** [for offset in range(lookback)]: the best day so far. *)
Fixpoint bounce_loop (cfg : config)
    (close volume rsi_series lower_band : list float)
    (offsets : list nat) (best : float * BounceDetails)
  : py (float * BounceDetails) :=
  match offsets with
  | [] => Ret best
  | offset :: rest =>
      let idx := (-1 - Z.of_nat offset)%Z in
      if (Z.of_nat (length close) <=? Z.abs idx)%Z
         || (Z.of_nat (length rsi_series) <=? Z.abs idx)%Z
      then Ret best
      else
        day ← bounce_day cfg close volume rsi_series lower_band offset;
        bounce_loop cfg close volume rsi_series lower_band rest
          (if best.1 <? day.1 then day else best)
  end.

Definition detect_pullback_in_uptrend (cfg : config) (hist : DataFrame)
  : py PullbackReport :=
  let close := map bar_close hist in
  let volume := map bar_volume hist in
  if (length close <? 200)%nat then Ret default_report
  else
    let sma50 := rolling_mean 50 close in
    let sma200 := rolling_mean 200 close in
    current_price ← iloc close (-1);
    current_sma50 ← iloc sma50 (-1);
    current_sma200 ← iloc sma200 (-1);
    rsi_series ← compute_rsi close 14;
    current_rsi ← iloc rsi_series (-1);
    prev_rsi ←
      (if (2 <=? length rsi_series)%nat then iloc rsi_series (-2)
       else Ret NaN);
    vol_5 ← iloc (rolling_mean 5 volume) (-1);
    vol_20 ← iloc (rolling_mean 20 volume) (-1);
    let volume_ratio := if Fin 0 <? vol_20 then vol_5 / vol_20 else NaN in
    let recent_high := series_max (last_n 60 close) in
    pullback_pct ←
      (if Fin 0 <? recent_high
       then pydiv (current_price - recent_high) recent_high
       else Ret (Fin 0));
    let uptrend :=
      (current_sma200 <? current_price) && (current_sma200 <? current_sma50) in
    let _pb_min := th cfg "technicals" "pullback_min" (Fin (-0.20)) in
    let _pb_max := th cfg "technicals" "pullback_max" (Fin (-0.05)) in
    let is_pullback :=
      ((_pb_min <=? pullback_pct) && (pullback_pct <=? _pb_max))
      && (current_sma200 <? current_price) in
    let '(_, _, lower_band) := compute_bollinger_bands close 20 (Fin 2) in
    let lookback := 5%nat in
    let _bounce_min := th cfg "technicals" "bounce_signal_min" (Fin 40) in
    best ←
      bounce_loop cfg close volume rsi_series lower_band (seq 0 lookback)
        (Fin 0, no_bounce 0);
    let '(bounce_score, bounce_details) := best in
    let bounce_signal := _bounce_min <=? bounce_score in
    let all_conditions := uptrend && is_pullback && bounce_signal in
    Ret {| uptrend := uptrend;
           is_pullback := is_pullback;
           pullback_pct := py_round pullback_pct 4;
           bounce_signal := bounce_signal;
           bounce_score := py_round bounce_score 2;
           bounce_details := bounce_details;
           rsi := py_round current_rsi 2;
           volume_ratio :=
             if negb (isnan volume_ratio) then py_round volume_ratio 4
             else NaN;
           sma50 := py_round current_sma50 2;
           sma200 := py_round current_sma200 2;
           current_price := py_round current_price 2;
           recent_high := py_round recent_high 2;
           all_conditions := all_conditions |}.

End WithLibm.
End Technicals.

(** The bounce search in the words of the specification. *)

Module BounceSpec.
Import Technicals.
Section WithLibm.
Context `{Libm}.

(** The threshold values the bounce score depends on are the defaults. *)
Definition default_scores (cfg : config) : Prop :=
  th cfg "technicals" "score_rsi_reversal" (Fin 40) = Fin 40
  ∧ th cfg "technicals" "score_rsi_depth" (Fin 15) = Fin 15
  ∧ th cfg "technicals" "score_bb_proximity" (Fin 25) = Fin 25
  ∧ th cfg "technicals" "score_volume_surge" (Fin 10) = Fin 10
  ∧ th cfg "technicals" "score_price_reversal" (Fin 10) = Fin 10
  ∧ th cfg "technicals" "bounce_signal_min" (Fin 40) = Fin 40.

(** The points of the sub-conditions that fired, under the defaults. *)
Definition points (d : BounceDetails) : Q :=
  ((if rsi_reversal d then 40 else 0)
   + (if rsi_depth_bonus d then 15 else 0)
   + (if bb_proximity d then 25 else 0)
   + (if volume_surge d then 10 else 0)
   + (if price_reversal d then 10 else 0))%Q.

Definition closes (hist : DataFrame) : list float := map bar_close hist.
Definition volumes (hist : DataFrame) : list float := map bar_volume hist.

Definition lower_band_of (hist : DataFrame) : list float :=
  (compute_bollinger_bands (closes hist) 20 (Fin 2)).2.

End WithLibm.
End BounceSpec.

(** The smoothed averages behind the RSI. *)

Module RsiSpec.
Import Technicals.
Section WithLibm.
Context `{Libm}.
Local Open Scope float_scope.

Definition gains (close : list float) : list float :=
  let delta := series_diff close in
  where_ (map (λ d, Fin 0 <? d) delta) (Fin 0) delta.

Definition losses (close : list float) : list float :=
  let delta := series_diff close in
  where_ (map (λ d, d <? Fin 0) delta) (Fin 0) (map fneg delta).

(** Wilder's smoothing: alpha = 1 / period, seeded once [period]
    observations exist. *)
Definition wilder (period : nat) (s : list float) : list float :=
  ewm_mean (Fin (1 / inject_Z (Z.of_nat period))) period s.

Definition avg_gain (close : list float) (period : nat) : list float :=
  wilder period (gains close).

Definition avg_loss (close : list float) (period : nat) : list float :=
  wilder period (losses close).

(** A finite, non-negative value. *)
Definition nonneg_fin (x : float) : Prop := ∃ q : Q, x = Fin q ∧ (0 <= q)%Q.

(** The state of the smoothing loop after [n] finite non-negative values. *)
Definition ewm_inv (n : nat) (st : ewm_state) : Prop :=
  nonneg_fin (weighted st) ∧ old_wt st = Fin 1 ∧ nobs st = n.

End WithLibm.
End RsiSpec.

(** The choice of the lookback loop: a later day replaces the best one only
    with a strictly greater score. *)

Module SelectionSpec.
Import Technicals BounceSpec.
Section WithLibm.
Context `{Libm}.
Local Open Scope float_scope.

Definition pick (best day : float * BounceDetails) : float * BounceDetails :=
  if best.1 <? day.1 then day else best.

(** A day with its score under the default points. *)
Definition scored (d : BounceDetails) : float * BounceDetails :=
  (Fin (points d), d).

End WithLibm.
End SelectionSpec.

(** A rising series of [n] bars with a small saw-tooth and a dip over the
    last bars. *)

Module SeriesExamples.
Import Technicals.

Definition bar_at (i : nat) : PriceBar :=
  let dip := if (195 <? i)%nat then (3 * (i - 195))%nat else 0%nat in
  {| bar_close :=
       Fin (inject_Z (Z.of_nat (100 + i + (i * 7) mod 5 - dip)));
     bar_volume := Fin (inject_Z (Z.of_nat (1000 + (i * 13) mod 50))) |}.

Definition bars (n : nat) : DataFrame := map bar_at (seq 0 n).

End SeriesExamples.

(** Two floats with the same value: finite values are compared as
    rationals. *)
Definition feqv (x y : float) : Prop :=
  match x, y with
  | Fin a, Fin b => (a == b)%Q
  | PInf, PInf | NInf, NInf | NaN, NaN => True
  | _, _ => False
  end.

Definition opt_feqv (x y : option float) : Prop :=
  match x, y with
  | Some a, Some b => feqv a b
  | None, None => True
  | _, _ => False
  end.

(** The figures of a pullback report, before rounding. *)

Module DetectorSpec.
Import Technicals BounceSpec.
Section WithLibm.
Context `{Libm}.
Local Open Scope float_scope.

(** The simple moving average over the last [n] closes, an infinite close
    counting as NaN. *)
Definition sma_of (n : nat) (hist : DataFrame) : float :=
  np_mean (last_n n (prep_values (closes hist))).

(** The highest close of the last 60 bars. *)
Definition recent_high_of (hist : DataFrame) : float :=
  series_max (last_n 60 (closes hist)).

(** (current - high) / high, or 0 when the high is not positive. *)
Definition pullback_of (current high : float) : float :=
  if Fin 0 <? high then (current - high) / high else Fin 0.

(** Mean of the last 5 volumes over the mean of the last 20, NaN when the
    latter is not positive. *)
Definition volume_ratio_of (hist : DataFrame) : float :=
  let vol_5 := np_mean (last_n 5 (prep_values (volumes hist))) in
  let vol_20 := np_mean (last_n 20 (prep_values (volumes hist))) in
  if Fin 0 <? vol_20 then vol_5 / vol_20 else NaN.

End WithLibm.
End DetectorSpec.

(** The closes of [SeriesExamples.bars] as rationals. *)

Module SeriesValues.
Import Technicals SeriesExamples.

Definition close_value (b : PriceBar) : Q :=
  match bar_close b with
  | Fin q => q
  | _ => 0%Q
  end.

Definition close_values (n : nat) : list Q := map close_value (bars n).

End SeriesValues.

(** ** _thresholds.py: the loader and its cache *)

Module ThresholdsLoader.

(** What opening and parsing [config/thresholds.yaml] gives at the time of
    a call: an exception (the file is missing or unreadable), a value that
    is not truthy (an empty document, an empty mapping), or a mapping of
    sections. *)
Inductive yaml_file : Type :=
| Unreadable
| Blank
| Mapping (cfg : config).

(** The module-level [_THRESHOLDS]: [None] until the first call. *)
Abbreviation cache := (option config) (only parsing).

(** [get_thresholds()]: the mapping it returns and the new value of
    [_THRESHOLDS]. *)
Definition get_thresholds (file : yaml_file) (_THRESHOLDS : cache)
  : config * cache :=
  match _THRESHOLDS with
  | None =>
      let loaded :=
        match file with
        | Mapping cfg => cfg
        | Blank => ∅
        | Unreadable => ∅
        end in
      (loaded, Some loaded)
  | Some cfg => (cfg, Some cfg)
  end.

(** [th(section, key, default)] as a call: the lookup [Thresholds.th] in
    the mapping [get_thresholds()] returns. *)
Definition th_call (file : yaml_file) (section key : string) (dflt : float)
    (_THRESHOLDS : cache) : float * cache :=
  let '(cfg, _THRESHOLDS) := get_thresholds file _THRESHOLDS in
  (th cfg section key dflt, _THRESHOLDS).

End ThresholdsLoader.

(** Successive lookups of a process, each with the state of the file at its
    time. *)

Module LookupSpec.
Import ThresholdsLoader.

Record lookup_request : Type := {
  file_now : yaml_file;
  req_section : string;
  req_key : string;
  req_default : float
}.

Fixpoint th_calls (reqs : list lookup_request) (_THRESHOLDS : option config)
  : list float * option config :=
  match reqs with
  | [] => ([], _THRESHOLDS)
  | r :: rest =>
      let '(v, _THRESHOLDS) :=
        th_call (file_now r) (req_section r) (req_key r) (req_default r)
          _THRESHOLDS in
      let '(vs, _THRESHOLDS) := th_calls rest _THRESHOLDS in
      (v :: vs, _THRESHOLDS)
  end.

(** The mapping a first call loads. *)
Definition loaded_from (file : yaml_file) : config :=
  match file with
  | Mapping cfg => cfg
  | _ => ∅
  end.

(** The answer of one lookup in a fixed mapping. *)
Definition answer (cfg : config) (r : lookup_request) : float :=
  th cfg (req_section r) (req_key r) (req_default r).

End LookupSpec.

(** ** screener.py: the Sharpe screener

    [SharpeScreener.screen] asks the client for the snapshot of each symbol,
    scores it with [compute_full_sharpe_score], sorts the rows of the
    instruments that are not excluded by their final score and returns the
    first [top_n]. *)

Module Screener.
Import Sharpe.

(** The exceptions of [screen]: the [TypeError] of a comparison between
    keys that cannot be ordered, or an exception of the scoring. *)
Inductive screen_exn : Type :=
| TypeError
| Propagated (e : exn).

Inductive screened (A : Type) : Type :=
| Rows (a : A)
| Fails (e : screen_exn).
Arguments Rows {A} a.
Arguments Fails {A} e.

(** The answer of [yahoo_client.get_stock_detail]: a reference to a
    dictionary of the store.  The entries of that dictionary that are
    strings (["symbol"], ["name"]), which [dict] does not hold, come with
    the reference. *)
Record StockDetail : Type := {
  detail_ref : loc;
  detail_strings : gmap string (option string)
}.

(** The market: [get_default_symbols()] and [get_thresholds()]. *)
Record Market : Type := {
  get_default_symbols : list string;
  get_thresholds : gmap string float
}.

(** A row of the result. *)
Record ScreenRow : Type := {
  row_symbol : option string;
  row_name : option string;
  row_price : option float;
  row_per : option float;
  row_pbr : option float;
  row_dividend_yield : option float;
  row_roe : option float;
  row_eps_growth : option float;
  row_hv30 : option float;
  row_expected_return : float;
  row_adjusted_sr : option float;
  row_conditions_passed : Z;
  row_condition_details : condition_details_t;
  row_final_score : option float
}.

(** [list.sort(key=..., reverse=True)] on keys that are floats or [None];
    [None] as a result stands for the [TypeError] of an unsupported
    comparison.  The sort is the library's. *)
Class ListSort : Type := {
  sort_desc : ∀ {A : Type}, (A → option float) → list A → option (list A)
}.

(** What is used of the library's sort: a list of fewer than two elements
    is returned without any comparison; with two or more elements every
    element is compared, and a key [None] cannot be compared; float keys
    can always be compared; a sort that returns gives a permutation; on
    keys without NaN the result is in descending order.  The order on keys
    with NaN is left open. *)
Record sort_laws `{ListSort} : Prop := {
  sort_few : ∀ {A} (key : A → option float) (l : list A),
    (length l < 2)%nat → sort_desc key l = Some l;
  sort_unorderable : ∀ {A} (key : A → option float) (l : list A) (x : A),
    (2 ≤ length l)%nat → x ∈ l → key x = None → sort_desc key l = None;
  sort_returns : ∀ {A} (key : A → option float) (l : list A),
    Forall (λ x, is_Some (key x)) l → is_Some (sort_desc key l);
  sort_permutation : ∀ {A} (key : A → option float) (l l' : list A),
    sort_desc key l = Some l' → l' ≡ₚ l;
  sort_descending : ∀ {A} (key : A → option float) (l l' : list A),
    Forall (λ x, ∃ v, key x = Some v ∧ isnan v = false) l →
    sort_desc key l = Some l' →
    ∀ (i j : nat) (x y : A) (vx vy : float),
      (i ≤ j)%nat → l' !! i = Some x → l' !! j = Some y →
      key x = Some vx → key y = Some vy → (vy <=? vx)%F = true
}.

(** [results[:top_n]] *)
Definition slice_to {A} (l : list A) (n : Z) : list A :=
  if (0 <=? n)%Z then take (Z.to_nat n) l
  else take (length l - Z.to_nat (- n)) l.

Section WithLibm.
Context `{Libm} `{ListSort}.
Local Open Scope float_scope.

(** The row appended for a symbol that is kept. *)
Definition make_row (σ : heap) (symbol : string) (detail : StockDetail)
    (sr_result : SharpeResult) : ScreenRow :=
  let d := deref σ (detail_ref detail) in
  {| row_symbol := default (Some symbol) (detail_strings detail !! "symbol");
     row_name := default None (detail_strings detail !! "name");
     row_price := get d "price";
     row_per := get d "per";
     row_pbr := get d "pbr";
     row_dividend_yield := get d "dividend_yield";
     row_roe := get d "roe";
     row_eps_growth := get d "eps_growth";
     row_hv30 := hv30 sr_result;
     row_expected_return := expected_return sr_result;
     row_adjusted_sr := adjusted_sr sr_result;
     row_conditions_passed := conditions_passed sr_result;
     row_condition_details := condition_details sr_result;
     row_final_score := final_score sr_result |}.

(** [for symbol in symbols]: the rows collected so far and the store. *)
Fixpoint screen_loop (get_stock_detail : string → option StockDetail)
    (thresholds : gmap string float) (rf : float)
    (symbols : list string) (σ : heap) (results : list ScreenRow)
  : py (list ScreenRow) * heap :=
  match symbols with
  | [] => (Ret results, σ)
  | symbol :: rest =>
      match get_stock_detail symbol with
      | None => screen_loop get_stock_detail thresholds rf rest σ results
      | Some detail =>
          let '(sr_result, σ) :=
            compute_full_sharpe_score σ (detail_ref detail) thresholds rf in
          match sr_result with
          | Raise e => (Raise e, σ)
          | Ret None =>
              screen_loop get_stock_detail thresholds rf rest σ results
          | Ret (Some sr_result) =>
              screen_loop get_stock_detail thresholds rf rest σ
                (results ++ [make_row σ symbol detail sr_result])
          end
      end
  end.

(** The thresholds of the SR framework: the market's, with three keys
    set.  (The assignments update the dictionary the market returned; the
    model follows the value the loop reads.) *)
Definition sr_thresholds (thresholds : gmap string float)
  : gmap string float :=
  let thresholds := <["hv30_max" := Fin 0.25]> thresholds in
  let thresholds := <["per_max" := Fin 15]> thresholds in
  let thresholds := <["pbr_max" := Fin 1.5]> thresholds in
  thresholds.

Definition screen (get_stock_detail : string → option StockDetail)
    (market : Market) (σ : heap)
    (symbols : option (list string)) (top_n : Z)
  : screened (list ScreenRow) * heap :=
  let symbols := default (get_default_symbols market) symbols in
  let thresholds := sr_thresholds (get_thresholds market) in
  let rf := th_get thresholds "rf" (Fin 0.005) in
  let '(results, σ) :=
    screen_loop get_stock_detail thresholds rf symbols σ [] in
  match results with
  | Raise e => (Fails (Propagated e), σ)
  | Ret results =>
      match sort_desc row_final_score results with
      | None => (Fails TypeError, σ)
      | Some results => (Rows (slice_to results top_n), σ)
      end
  end.

End WithLibm.
End Screener.

(** The screener in the words of its documentation. *)

Module ScreenerSpec.
Import Sharpe Screener.
Section WithLibm.
Context `{Libm}.
Local Open Scope float_scope.

(** Every answer of the client is an object of the store. *)
Definition client_in_store (σ : heap)
    (get_stock_detail : string → option StockDetail) : Prop :=
  ∀ symbol detail,
    get_stock_detail symbol = Some detail →
    is_Some (σ !! detail_ref detail).

(** The row of a symbol, when the client knows it and it is not excluded. *)
Definition row_of (get_stock_detail : string → option StockDetail)
    (thresholds : gmap string float) (rf : float) (σ : heap)
    (symbol : string) : option ScreenRow :=
  match get_stock_detail symbol with
  | None => None
  | Some detail =>
      match (compute_full_sharpe_score σ (detail_ref detail) thresholds rf).1
      with
      | Ret (Some sr_result) => Some (make_row σ symbol detail sr_result)
      | _ => None
      end
  end.

(** The rows of the instruments that are kept, in the order of the
    symbols. *)
Definition kept_rows (get_stock_detail : string → option StockDetail)
    (market : Market) (σ : heap) (symbols : option (list string))
  : list ScreenRow :=
  let thresholds := sr_thresholds (get_thresholds market) in
  omap (row_of get_stock_detail thresholds
          (th_get thresholds "rf" (Fin 0.005)) σ)
       (default (get_default_symbols market) symbols).

(** A volatility that gives scores. *)
Definition usable (hv : option float) : Prop :=
  ∃ h, hv = Some h ∧ (h <=? Fin 0) = false.

End WithLibm.
End ScreenerSpec.

(** A sort to run the screener with: insertion, from the right, before the
    first element whose key is not greater. *)

Module InsertionSort.
Import FloatOps.

Fixpoint insert_desc {A} (key : A → float) (x : A) (l : list A) : list A :=
  match l with
  | [] => [x]
  | y :: rest =>
      if flt (key x) (key y) then y :: insert_desc key x rest
      else x :: y :: rest
  end.

Definition float_key {A} (key : A → option float) (x : A) : float :=
  default NaN (key x).

Definition insertion_sort_desc {A} (key : A → option float) (l : list A)
  : option (list A) :=
  if (length l <? 2)%nat then Some l
  else if forallb (λ x, bool_decide (is_Some (key x))) l
       then Some (foldr (insert_desc (float_key key)) [] l)
       else None.

(** A list in descending order of its keys. *)
Fixpoint descending {A} (key : A → float) (l : list A) : Prop :=
  match l with
  | [] => True
  | x :: rest =>
      Forall (λ y, fle (key y) (key x) = true) rest ∧ descending key rest
  end.

Definition insertion_sort : Screener.ListSort :=
  {| Screener.sort_desc := @insertion_sort_desc |}.

End InsertionSort.

(** Inputs to run the screener on. *)

Module ScreenerExamples.
Import Sharpe Screener Examples.
Local Open Scope Q_scope.

(** A coarser [Libm], to run the model on a price history: the logarithm
    by its first-order approximation at 1. *)
Definition first_order_libm : Libm :=
  {| lnQ := λ q, Qred (q - 1); sqrtQ := approx_sqrt |}.

(** 30 closes at 1, then a close at 2. *)
Definition step_history : list float :=
  map (λ i, if (i =? 30)%nat then Fin 2 else Fin 1) (seq 0 31).

(** The fundamentals of [three_pass] with that history: three conditions
    pass and the scores exist. *)
Definition scored_detail : dict :=
  {| price_history := Some step_history; fields := fields three_pass |}.

(** 30 closes at 1, then a close at 1.05; and the fundamentals of
    [three_pass] with that history: all four conditions pass. *)
Definition calm_history : list float :=
  map (λ i, if (i =? 30)%nat then Fin 1.05 else Fin 1) (seq 0 31).

Definition calm_detail : dict :=
  {| price_history := Some calm_history; fields := fields three_pass |}.

(** The store of the client: a scored instrument, one without a price
    history, an excluded one and a second one without a price history. *)
Definition store : heap := [scored_detail; three_pass; one_pass; three_pass].

Definition client (symbol : string) : option StockDetail :=
  if decide (symbol = "AAA") then
    Some {| detail_ref := 0; detail_strings := ∅ |}
  else if decide (symbol = "BBB") then
    Some {| detail_ref := 1;
            detail_strings := {["symbol" := Some "BBB.T"]} |}
  else if decide (symbol = "CCC") then
    Some {| detail_ref := 2; detail_strings := ∅ |}
  else if decide (symbol = "EEE") then
    Some {| detail_ref := 3; detail_strings := ∅ |}
  else None.

Definition market : Market :=
  {| get_default_symbols := ["AAA"; "BBB"; "CCC"; "DDD"];
     get_thresholds := ∅ |}.

End ScreenerExamples.

(** Closes that rise, or fall, from each bar to the next. *)

Module TrendSpec.
Local Open Scope Q_scope.

Fixpoint rising (cs : list Q) : Prop :=
  match cs with
  | x :: rest =>
      match rest with
      | y :: _ => x < y ∧ rising rest
      | [] => True
      end
  | [] => True
  end.

Fixpoint falling (cs : list Q) : Prop :=
  match cs with
  | x :: rest =>
      match rest with
      | y :: _ => y < x ∧ falling rest
      | [] => True
      end
  | [] => True
  end.

(** A finite value > 0, and a finite value equal to 0. *)
Definition pos_fin (x : float) : Prop := ∃ q : Q, x = Fin q ∧ 0 < q.
Definition zero_fin (x : float) : Prop := ∃ q : Q, x = Fin q ∧ q == 0.

End TrendSpec.

(** * Properties *)

(** ** Comparisons on finite values *)

Section FloatFacts.
Local Open Scope Q_scope.

Lemma Qlt_bool_iff (a b : Q) : Qlt_bool a b = true ↔ a < b.
Proof.
  unfold Qlt_bool. rewrite negb_true_iff.
  destruct (Qle_bool b a) eqn:E.
  - apply Qle_bool_iff in E. split; [discriminate | intros; lra].
  - split; [intros _ | reflexivity].
    apply Qnot_le_lt. intros L. apply Qle_bool_iff in L. congruence.
Qed.

Lemma Qle_bool_false (a b : Q) : Qle_bool a b = false ↔ b < a.
Proof.
  rewrite <- Qlt_bool_iff. unfold Qlt_bool.
  destruct (Qle_bool a b); simpl; intuition congruence.
Qed.

Lemma Qlt_bool_false (a b : Q) : Qlt_bool a b = false ↔ b <= a.
Proof.
  unfold Qlt_bool. rewrite negb_false_iff. apply Qle_bool_iff.
Qed.

Lemma Qeq_bool_false (a b : Q) : Qeq_bool a b = false ↔ ¬ a == b.
Proof.
  destruct (Qeq_bool a b) eqn:E.
  - apply Qeq_bool_iff in E. intuition congruence.
  - split; [| reflexivity]. intros _ Heq. apply Qeq_bool_iff in Heq. congruence.
Qed.

Lemma sign_case_pos {A} (q : Q) (p n z : A) : 0 < q → sign_case q p n z = p.
Proof.
  intros Hq. unfold sign_case.
  destruct (q ?= 0) eqn:E; [| | reflexivity].
  - apply Qeq_alt in E. lra.
  - apply Qlt_alt in E. lra.
Qed.

Lemma sign_case_neg {A} (q : Q) (p n z : A) : q < 0 → sign_case q p n z = n.
Proof.
  intros Hq. unfold sign_case.
  destruct (q ?= 0) eqn:E; [| reflexivity |].
  - apply Qeq_alt in E. lra.
  - apply Qgt_alt in E. lra.
Qed.

Lemma sign_case_zero {A} (q : Q) (p n z : A) : q == 0 → sign_case q p n z = z.
Proof.
  intros Hq. unfold sign_case.
  destruct (q ?= 0) eqn:E; [reflexivity | |].
  - apply Qlt_alt in E. lra.
  - apply Qgt_alt in E. lra.
Qed.

End FloatFacts.

(** Turn every boolean comparison on rationals in the context into a
    proposition. *)
Ltac qprop :=
  repeat match goal with
    | H : Qle_bool _ _ = true |- _ => apply Qle_bool_iff in H
    | H : Qle_bool _ _ = false |- _ => apply Qle_bool_false in H
    | H : Qlt_bool _ _ = true |- _ => apply Qlt_bool_iff in H
    | H : Qlt_bool _ _ = false |- _ => apply Qlt_bool_false in H
    | H : Qeq_bool _ _ = true |- _ => apply Qeq_bool_iff in H
    | H : Qeq_bool _ _ = false |- _ => apply Qeq_bool_false in H
    end.

(** Case analysis on the rational comparisons of the goal. *)
Ltac qcases :=
  repeat match goal with
    | |- context [Qle_bool ?a ?b] =>
        let E := fresh "E" in destruct (Qle_bool a b) eqn:E
    | |- context [Qlt_bool ?a ?b] =>
        let E := fresh "E" in destruct (Qlt_bool a b) eqn:E
    | |- context [Qeq_bool ?a ?b] =>
        let E := fresh "E" in destruct (Qeq_bool a b) eqn:E
    end; qprop.

Section PyFacts.
Local Open Scope float_scope.

Lemma pydiv_pos (x y : float) :
  (Fin 0 <? y) = true → pydiv x y = Ret (x / y).
Proof.
  intros Hy. unfold pydiv.
  destruct y as [q | | |]; simpl in *; try discriminate; try reflexivity.
  qprop. qcases; [lra | reflexivity].
Qed.

(** A volatility that is not [<= 0] stays non-zero when scaled by 0.8. *)
Lemma pydiv_scaled (x h : float) :
  (h <=? Fin 0) = false → pydiv x (h * Fin 0.8) = Ret (x / (h * Fin 0.8)).
Proof.
  intros Hh. unfold pydiv.
  destruct h as [q | | |]; simpl in *; try discriminate; try reflexivity.
  qprop. qcases; [lra | reflexivity].
Qed.

End PyFacts.

Import Sharpe.
Import SharpeSpec.

(** ** The adjusted Sharpe ratio *)

Section AdjustedSR.
Local Open Scope float_scope.

Lemma fmul_NaN_l (x : float) : NaN * x = NaN.
Proof. destruct x; reflexivity. Qed.

Lemma fdiv_NaN_r (x : float) : x / NaN = NaN.
Proof. destruct x; reflexivity. Qed.

Lemma asymmetry_returns (u d : option float) :
  match u, d with
  | Some u, Some d =>
      if Fin 0 <? d then r ← pydiv u d; Ret (py_min r (Fin 2))
      else Ret (Fin 1)
  | _, _ => Ret (Fin 1)
  end = Ret (asymmetry_of u d).
Proof.
  unfold asymmetry_of.
  destruct u as [u |], d as [d |]; try reflexivity.
  destruct (Fin 0 <? d) eqn:Hd; [| reflexivity].
  rewrite (pydiv_pos _ _ Hd). reflexivity.
Qed.

Lemma not_le_zero_cases (h : float) :
  (h <=? Fin 0) = false → (Fin 0 <? h) = true ∨ h = NaN.
Proof.
  destruct h as [q | | |]; simpl; intros Hh; try discriminate; auto.
  left. qprop. apply Qlt_bool_iff. exact Hh.
Qed.

(** With a volatility that is not [<= 0] the three factors are computed
    without a division by zero. *)
Lemma calculate_adjusted_sr_present
    (expected_return rf h : float) (hv90 upside_vol downside_vol : option float) :
  (h <=? Fin 0) = false →
  calculate_adjusted_sr expected_return rf (Some h) hv90 upside_vol downside_vol
  = Ret (Some (raw_sr_of expected_return rf h
               * vol_trend_of hv90 h
               * asymmetry_of upside_vol downside_vol)).
Proof.
  intros Hh. unfold calculate_adjusted_sr. rewrite Hh.
  rewrite (pydiv_scaled _ _ Hh), asymmetry_returns.
  unfold raw_sr_of, vol_trend_of.
  destruct (not_le_zero_cases h Hh) as [Hpos | ->].
  - rewrite Hpos. destruct hv90 as [x |]; [| reflexivity].
    rewrite (pydiv_pos _ _ Hpos). reflexivity.
  - cbn [mbind py_bind flt fmul]. rewrite fdiv_NaN_r, !fmul_NaN_l.
    destruct hv90; cbn [mbind py_bind mret py_ret];
      rewrite ?fmul_NaN_l; reflexivity.
Qed.

Lemma calculate_adjusted_sr_returns
    (expected_return rf : float)
    (hv30 hv90 upside_vol downside_vol : option float) :
  calculate_adjusted_sr expected_return rf hv30 hv90 upside_vol downside_vol
  = Ret (adjusted_sr_of expected_return rf hv30 hv90 upside_vol downside_vol).
Proof.
  unfold adjusted_sr_of. destruct hv30 as [h |]; [| reflexivity].
  destruct (h <=? Fin 0) eqn:Hh.
  - unfold calculate_adjusted_sr. by rewrite Hh.
  - by apply calculate_adjusted_sr_present.
Qed.

(** C1. [calculate_adjusted_sr] never raises; it returns absent whenever
    hv30 is absent or <= 0, whatever the other inputs, and otherwise
    returns raw_sr * vol_trend * asymmetry, with
    raw_sr = (expected_return - rf) / (hv30 * 0.8),
    vol_trend = hv90 / hv30 when hv90 is present (else 1.0) and
    asymmetry = min(upside_vol / downside_vol, 2.0) when both are present
    and downside_vol > 0 (else 1.0). *)
Theorem C1_calculate_adjusted_sr
    (expected_return rf : float)
    (hv30 hv90 upside_vol downside_vol : option float) :
  calculate_adjusted_sr expected_return rf hv30 hv90 upside_vol downside_vol
  = Ret match hv30 with
        | None => None
        | Some h =>
            if h <=? Fin 0 then None
            else Some (raw_sr_of expected_return rf h
                       * vol_trend_of hv90 h
                       * asymmetry_of upside_vol downside_vol)
        end.
Proof.
  destruct hv30 as [h |].
  - destruct (h <=? Fin 0) eqn:Hh.
    + unfold calculate_adjusted_sr. rewrite Hh. reflexivity.
    + apply calculate_adjusted_sr_present. exact Hh.
  - reflexivity.
Qed.

End AdjustedSR.

(** ** Financial stability *)

Import StabilitySpec.

Section Stability.
Local Open Scope Q_scope.

(** On finite metrics the check is a conjunction of rational comparisons and
    never divides by zero. *)
Lemma check_financial_stability_finite
    (e o n f : Q) (d b : option Q) :
  check_financial_stability
    (Some (Fin e)) (Some (Fin o)) (Some (Fin n)) (Some (Fin f))
    (Fin <$> d) (Fin <$> b)
  = Ret (Qlt_bool 0.40 e && Qlt_bool n o && Qlt_bool 0 f
         && match b with
            | Some b => Qlt_bool 0 b && Qlt_bool (default 0 d / b) 3
            | None => true
            end).
Proof.
  unfold check_financial_stability, pydiv.
  destruct b as [b |], d as [d |];
    cbn [fle flt feq fdiv fmap option_fmap option_map default
         mbind py_bind mret py_ret];
    unfold Qlt_bool; qcases; cbn; qcases; unfold id in *;
    first [reflexivity | exfalso; lra].
Qed.

Lemma check_financial_stability_returns
    (e o n f d b : option Q) :
  ∃ r : bool,
    check_financial_stability
      (Fin <$> e) (Fin <$> o) (Fin <$> n) (Fin <$> f) (Fin <$> d) (Fin <$> b)
    = Ret r.
Proof.
  destruct e as [e |], o as [o |], n as [n |], f as [f |];
    try (eexists; exact (check_financial_stability_finite _ _ _ _ _ _));
    unfold check_financial_stability; cbn [fmap option_fmap option_map];
    repeat case_match; by eexists.
Qed.

Lemma check_financial_stability_missing (e o n f d b : option Q) :
  e = None ∨ o = None ∨ n = None ∨ f = None →
  check_financial_stability
    (Fin <$> e) (Fin <$> o) (Fin <$> n) (Fin <$> f) (Fin <$> d) (Fin <$> b)
  = Ret false.
Proof.
  intros Hmiss. unfold check_financial_stability.
  destruct e as [e |], o as [o |], n as [n |], f as [f |];
    cbn [fmap option_fmap option_map];
    repeat case_match; try reflexivity;
    destruct Hmiss as [? | [? | [? | ?]]]; discriminate.
Qed.

Lemma financial_stability_holds_finite (e o n f : Q) (d b : option Q) :
  Qlt_bool 0.40 e && Qlt_bool n o && Qlt_bool 0 f
  && match b with
     | Some b => Qlt_bool 0 b && Qlt_bool (default 0 d / b) 3
     | None => true
     end = true
  ↔ financial_stability_holds (Some e) (Some o) (Some n) (Some f) d b.
Proof.
  unfold financial_stability_holds.
  rewrite !andb_true_iff, !Qlt_bool_iff. split.
  - intros [[[He Ho] Hf] Hb]. repeat split; eauto.
    + intros b' -> Hpos. apply andb_true_iff in Hb as [_ Hb].
      by apply Qlt_bool_iff in Hb.
    + intros b' -> Hneg. apply andb_true_iff in Hb as [Hb _].
      apply Qlt_bool_iff in Hb. lra.
  - intros ([e' [[= <-] He]] & [o' [n' ([= <-] & [= <-] & Ho)]]
            & [f' [[= <-] Hf]] & Hd & Hb).
    repeat split; try done.
    destruct b as [b |]; [| done].
    assert (0 < b) as Hpos by (specialize (Hb b eq_refl); lra).
    apply andb_true_iff. rewrite !Qlt_bool_iff. auto.
Qed.

Lemma financial_stability_computed_finite (e o n f : Q) (d b : option Q) :
  Qlt_bool 0.40 e && Qlt_bool n o && Qlt_bool 0 f
  && match b with
     | Some b => Qlt_bool 0 b && Qlt_bool (default 0 d / b) 3
     | None => true
     end = true
  ↔ financial_stability_computed
      (Some (Fin e)) (Some (Fin o)) (Some (Fin n)) (Some (Fin f))
      (Fin <$> d) (Fin <$> b).
Proof.
  assert (∀ b' : Q,
             0 < b' →
             (default (Fin 0) (Fin <$> d) / Fin b' <? Fin 3)%F
             = Qlt_bool (default 0 d / b') 3) as Hratio.
  { intros b' Hpos.
    assert (Qeq_bool b' 0 = false) as Hb' by (apply Qeq_bool_false; lra).
    destruct d as [d |]; cbn [fmap option_fmap option_map default];
      unfold id; cbn [fdiv]; by rewrite Hb'. }
  unfold financial_stability_computed.
  rewrite !andb_true_iff, !Qlt_bool_iff. split.
  - intros [[[He Ho] Hf] Hb].
    split; [exists (Fin e); split; [done | by apply Qlt_bool_iff] |].
    split; [exists (Fin o), (Fin n); repeat split; by apply Qlt_bool_iff |].
    split; [exists (Fin f); split; [done | by apply Qlt_bool_iff] |].
    destruct b as [b |]; cbn [fmap option_fmap option_map];
      [| split; intros b' [=]].
    apply andb_true_iff in Hb as [Hpos Hlt]. apply Qlt_bool_iff in Hpos.
    split; intros b' [= <-].
    + intros _. by rewrite Hratio.
    + cbn [fle]. apply Qle_bool_false. exact Hpos.
  - intros ([e' [[= <-] He]] & [o' [n' ([= <-] & [= <-] & Ho)]]
            & [f' [[= <-] Hf]] & Hd & Hb).
    cbn [flt] in He, Ho, Hf. apply Qlt_bool_iff in He, Ho, Hf.
    repeat split; try done.
    destruct b as [b |]; [| done]. cbn [fmap option_fmap option_map] in Hd, Hb.
    specialize (Hb (Fin b) eq_refl). cbn [fle] in Hb.
    apply Qle_bool_false in Hb.
    specialize (Hd (Fin b) eq_refl). cbn [flt] in Hd.
    assert (Qlt_bool 0 b = true) as Hpos by (by apply Qlt_bool_iff).
    specialize (Hd Hpos). rewrite Hratio in Hd by exact Hb.
    by rewrite Hpos, Hd.
Qed.

(** C3 (amended). On every snapshot of finite metrics, the
    financial-stability check returns (it never raises) and passes if and
    only if equity_ratio is present and > 0.40, operating cash flow and net
    income are present with operating cash flow > net income, free cash
    flow is present and > 0, and, when EBITDA is present and > 0, the
    quotient total_debt / EBITDA as the program computes it is < 3.0, with
    a missing total_debt read as 0, and EBITDA is not present-and-<= 0.  A
    present EBITDA <= 0 fails outright; with EBITDA absent the check passes
    exactly on the other three sub-checks.  The snapshot equity_ratio=0.5,
    operating_cf=100, net_income=50, fcf=10, total_debt=0 passes with EBITDA
    absent and fails with EBITDA = 0. *)
Theorem C3_check_financial_stability_amended (e o n f d b : option Q) :
  let check :=
    check_financial_stability
      (Fin <$> e) (Fin <$> o) (Fin <$> n) (Fin <$> f) (Fin <$> d) (Fin <$> b)
  in
  (check = Ret true ∨ check = Ret false)
  ∧ (check = Ret true
     ↔ financial_stability_computed
         (Fin <$> e) (Fin <$> o) (Fin <$> n) (Fin <$> f)
         (Fin <$> d) (Fin <$> b))
  ∧ ((∃ b', b = Some b' ∧ b' <= 0) → check = Ret false)
  ∧ (b = None →
     (check = Ret true
      ↔ other_three_computed
          (Fin <$> e) (Fin <$> o) (Fin <$> n) (Fin <$> f)))
  ∧ check_financial_stability
      (Some (Fin 0.5)) (Some (Fin 100)) (Some (Fin 50)) (Some (Fin 10))
      (Some (Fin 0)) None = Ret true
  ∧ check_financial_stability
      (Some (Fin 0.5)) (Some (Fin 100)) (Some (Fin 50)) (Some (Fin 10))
      (Some (Fin 0)) (Some (Fin 0)) = Ret false.
Proof.
  intros check.
  assert (check = Ret true
          ↔ financial_stability_computed
              (Fin <$> e) (Fin <$> o) (Fin <$> n) (Fin <$> f)
              (Fin <$> d) (Fin <$> b)) as Hiff.
  { destruct e as [e |], o as [o |], n as [n |], f as [f |];
      try (subst check; change (Fin <$> Some ?x) with (Some (Fin x));
           rewrite check_financial_stability_finite,
             <- financial_stability_computed_finite;
           split; [by intros [= ->] | by intros ->]);
      (subst check; rewrite check_financial_stability_missing by auto;
       split; [discriminate |];
       intros ([? [? ?]] & [? [? (? & ? & ?)]] & [? [? ?]] & _);
       discriminate). }
  split; [| split; [exact Hiff | split; [| split; [| split; reflexivity]]]].
  - destruct (check_financial_stability_returns e o n f d b) as [[] Hr];
      subst check; rewrite Hr; auto.
  - intros (b' & -> & Hneg).
    destruct (check_financial_stability_returns e o n f d (Some b'))
      as [[] Hr]; subst check; [| exact Hr].
    apply Hiff in Hr. destruct Hr as (_ & _ & _ & _ & Hb).
    specialize (Hb (Fin b') eq_refl). cbn [fle] in Hb.
    apply Qle_bool_false in Hb. exfalso. lra.
  - intros ->. rewrite Hiff. unfold financial_stability_computed, other_three_computed.
    split; [tauto |]. intros (? & ? & ?). repeat split; try done.
Qed.

(** NaN is not > 0.40, yet a NaN equity_ratio passes: the guards reject
    with [<=], which is false on NaN. *)
Example C3_nan_equity_ratio_passes :
  check_financial_stability
    (Some NaN) (Some (Fin 100)) (Some (Fin 50)) (Some (Fin 10))
    (Some (Fin 0)) None = Ret true
  ∧ (Fin 0.40 <? NaN)%F = false
  ∧ ¬ financial_stability_computed
        (Some NaN) (Some (Fin 100)) (Some (Fin 50)) (Some (Fin 10))
        (Some (Fin 0)) None.
Proof.
  split; [reflexivity |]. split; [reflexivity |].
  intros ([e [[= <-] He]] & _). discriminate.
Qed.

End Stability.

(** ** The condition engine *)

Section Conditions.
Context `{Libm}.
Local Open Scope float_scope.

Lemma check_financial_stability_total
    (equity_ratio operating_cf net_income fcf total_debt ebitda : option float) :
  ∃ r : bool,
    check_financial_stability
      equity_ratio operating_cf net_income fcf total_debt ebitda = Ret r.
Proof.
  unfold check_financial_stability.
  repeat case_match; try (by eexists);
    match goal with
    | Hpos : (Fin 0 <? _) = true |- _ => rewrite (pydiv_pos _ _ Hpos)
    end; cbn; case_match; by eexists.
Qed.

Lemma count_true_range (l : list bool) :
  (0 ≤ count_true l ≤ Z.of_nat (length l))%Z.
Proof.
  unfold count_true. pose proof (List.filter_length_le id l). lia.
Qed.

Lemma count_conditions_passed_total (d : dict) (th : gmap string float) :
  ∃ count details,
    count_conditions_passed d th = Ret (count, details)
    ∧ (0 ≤ count ≤ 4)%Z
    ∧ catalyst details = None.
Proof.
  unfold count_conditions_passed.
  match goal with
  | |- context [check_financial_stability ?a ?b ?c ?d ?e ?f] =>
      destruct (check_financial_stability_total a b c d e f) as [c3 ->]
  end.
  eexists _, _. split; [reflexivity |]. split; [| reflexivity].
  apply (count_true_range [_; _; _; _]).
Qed.

End Conditions.

(** ** The orchestrator *)

Import OrchestratorSpec.

Section Orchestrator.
Context `{Libm}.
Local Open Scope float_scope.

Lemma deref_alloc_old (σ : heap) (l : loc) (d d' : dict) :
  σ !! l = Some d → deref (σ ++ [d']) l = d.
Proof.
  intros Hl. unfold deref. by rewrite (lookup_app_l_Some _ _ _ _ Hl).
Qed.

Lemma deref_alloc_new (σ : heap) (d' : dict) :
  deref (σ ++ [d']) (length σ) = d'.
Proof.
  unfold deref. rewrite lookup_app_r by lia. by rewrite Nat.sub_diag.
Qed.

Lemma deref_Some (σ : heap) (l : loc) (d : dict) :
  σ !! l = Some d → deref σ l = d.
Proof. intros Hl. unfold deref. by rewrite Hl. Qed.

Lemma fcf_yield_returns (d : dict) :
  match get d "fcf_yield" with
  | Some _ => Ret (get d "fcf_yield")
  | None =>
      match py_or (get d "fcf") (get d "free_cashflow"), get d "market_cap" with
      | Some fcf, Some market_cap =>
          if Fin 0 <? market_cap then r ← pydiv fcf market_cap; Ret (Some r)
          else Ret None
      | _, _ => Ret None
      end
  end = Ret (fcf_yield_of d).
Proof.
  unfold fcf_yield_of.
  destruct (get d "fcf_yield"); [reflexivity |].
  destruct (py_or _ _); [| reflexivity].
  destruct (get d "market_cap") as [mc |]; [| reflexivity].
  destruct (Fin 0 <? mc) eqn:Hmc; [| reflexivity].
  by rewrite (pydiv_pos _ _ Hmc).
Qed.

Lemma sharpe_ratios_return (er rf : float) (hv30 hv90 up down : option float) :
  match hv30 with
  | None => Ret (None, None)
  | Some hv =>
      if hv <=? Fin 0 then Ret (None, None)
      else
        raw_sr ← pydiv (er - rf) (hv * Fin 0.8);
        adjusted_sr ← calculate_adjusted_sr er rf hv30 hv90 up down;
        Ret (Some raw_sr, adjusted_sr)
  end = Ret (raw_sr_opt er rf hv30, adjusted_sr_of er rf hv30 hv90 up down).
Proof.
  unfold raw_sr_opt, adjusted_sr_of.
  destruct hv30 as [h |]; [| reflexivity].
  rewrite calculate_adjusted_sr_returns. unfold adjusted_sr_of.
  destruct (h <=? Fin 0) eqn:Hh; [reflexivity |].
  by rewrite (pydiv_scaled _ _ Hh).
Qed.

(** The orchestrator as a function of the snapshot: it returns, allocates
    the augmented copy and nothing else, and its result is [result_of]. *)
Lemma compute_full_sharpe_score_run
    (σ : heap) (l : loc) (d : dict) (th : gmap string float) (rf : float) :
  σ !! l = Some d →
  ∃ count details,
    count_conditions_passed (snapshot_with_hv d) th = Ret (count, details)
    ∧ compute_full_sharpe_score σ l th rf
      = (Ret match calculate_condition_multiplier count with
             | None => None
             | Some m => Some (result_of d rf count details m)
             end,
         σ ++ [snapshot_with_hv d]).
Proof.
  intros Hl.
  destruct (count_conditions_passed_total (snapshot_with_hv d) th)
    as (count & details & Hcount & _).
  exists count, details. split; [exact Hcount |].
  unfold compute_full_sharpe_score, alloc.
  rewrite (deref_Some _ _ _ Hl).
  fold (history d).
  destruct (calculate_upside_downside_vol (history d) 30) as [up down] eqn:Hv.
  rewrite (deref_alloc_old _ _ _ _ Hl), deref_alloc_new.
  fold (snapshot_with_hv d).
  rewrite fcf_yield_returns.
  cbn [mbind py_bind].
  rewrite sharpe_ratios_return.
  cbn [mbind py_bind]. rewrite Hcount. cbn [mbind py_bind].
  unfold result_of. rewrite Hv.
  destruct (calculate_condition_multiplier count); reflexivity.
Qed.

End Orchestrator.

Import Examples.

Section OrchestratorClaims.
Context `{Libm}.
Local Open Scope float_scope.

(** C2. For every count of passed conditions the multiplier is 1.0 when the
    count is >= 4, 0.8 when it is exactly 3 and absent when it is <= 2, and
    nothing else; and on every snapshot the orchestrator returns absent
    exactly when the multiplier of the snapshot's condition count is absent,
    and otherwise returns a result carrying that multiplier whose
    final_score is adjusted_sr * multiplier when adjusted_sr is present and
    absent when adjusted_sr is absent. *)
Theorem C2_multiplier_and_exclusion
    (σ : heap) (stock_detail : loc) (d : dict)
    (thresholds : gmap string float) (rf : float) :
  σ !! stock_detail = Some d →
  (∀ count : Z,
      ((4 ≤ count)%Z → calculate_condition_multiplier count = Some (Fin 1))
      ∧ (count = 3%Z → calculate_condition_multiplier count = Some (Fin 0.8))
      ∧ ((count ≤ 2)%Z → calculate_condition_multiplier count = None))
  ∧ ∃ count details,
      count_conditions_passed (snapshot_with_hv d) thresholds
      = Ret (count, details)
      ∧ (0 ≤ count ≤ 4)%Z
      ∧ match calculate_condition_multiplier count with
        | None =>
            (compute_full_sharpe_score σ stock_detail thresholds rf).1
            = Ret None
        | Some m =>
            ∃ r,
              (compute_full_sharpe_score σ stock_detail thresholds rf).1
              = Ret (Some r)
              ∧ conditions_passed r = count
              ∧ condition_multiplier r = m
              ∧ final_score r
                = match adjusted_sr r with
                  | Some a => Some (a * m)
                  | None => None
                  end
        end.
Proof.
  intros Hl. split.
  - intros count. unfold calculate_condition_multiplier.
    repeat split; intros Hc.
    + apply Z.leb_le in Hc. by rewrite Hc.
    + by subst count.
    + destruct (4 <=? count)%Z eqn:H4; [apply Z.leb_le in H4; lia |].
      destruct (count =? 3)%Z eqn:H3; [apply Z.eqb_eq in H3; lia | done].
  - destruct (compute_full_sharpe_score_run σ stock_detail d thresholds rf Hl)
      as (count & details & Hcount & Hrun).
    destruct (count_conditions_passed_total (snapshot_with_hv d) thresholds)
      as (count' & details' & Hcount' & Hrange & _).
    rewrite Hcount in Hcount'. injection Hcount' as <- <-.
    exists count, details. split; [exact Hcount |]. split; [exact Hrange |].
    rewrite Hrun. cbn [fst].
    destruct (calculate_condition_multiplier count) as [m |]; [| reflexivity].
    eexists. split; [reflexivity |]. repeat split.
Qed.

(** C7. [calculate_expected_return] is the sum of its three inputs with an
    absent input read as 0, and is itself uncapped (0.6 + 0.6 + 0 gives
    1.2); the orchestrator stores the sum capped at 1.0, so a stored
    expected_return never exceeds 1.0, and a snapshot with eps_growth = 0.6,
    dividend_yield = 0.6 and fcf_yield = 0 has the stored expected_return
    exactly 1.0. *)
Theorem C7_expected_return_cap :
  (∀ eps_growth dividend_yield fcf_yield : option float,
      calculate_expected_return eps_growth dividend_yield fcf_yield
      = default (Fin 0) eps_growth + default (Fin 0) dividend_yield
        + default (Fin 0) fcf_yield)
  ∧ (∃ q : Q,
        calculate_expected_return
          (Some (Fin 0.6)) (Some (Fin 0.6)) (Some (Fin 0)) = Fin q
        ∧ (q == 1.2)%Q)
  ∧ (∀ (σ : heap) (stock_detail : loc) (d : dict)
       (thresholds : gmap string float) (rf : float) (r : SharpeResult),
        σ !! stock_detail = Some d →
        (compute_full_sharpe_score σ stock_detail thresholds rf).1
        = Ret (Some r) →
        expected_return r
        = py_min
            (calculate_expected_return
               (py_or (get d "eps_growth") (get d "earnings_growth"))
               (get d "dividend_yield")
               (fcf_yield_of d))
            (Fin 1)
        ∧ (Fin 1 <? expected_return r) = false
        ∧ (get d "eps_growth" = Some (Fin 0.6) →
           get d "dividend_yield" = Some (Fin 0.6) →
           get d "fcf_yield" = Some (Fin 0) →
           expected_return r = Fin 1))
  ∧ (∃ r : SharpeResult,
        (compute_full_sharpe_score [three_pass] 0 ∅ DEFAULT_RF).1
        = Ret (Some r)
        ∧ expected_return r = Fin 1).
Proof.
  split; [reflexivity |].
  split; [eexists; split; [reflexivity | reflexivity] |].
  split.
  - intros σ l d th rf r Hl Hres.
    destruct (compute_full_sharpe_score_run σ l d th rf Hl)
      as (count & details & _ & Hrun).
    rewrite Hrun in Hres. cbn [fst] in Hres.
    destruct (calculate_condition_multiplier count) as [m |];
      [| discriminate].
    injection Hres as <-. cbn [expected_return result_of].
    split; [reflexivity |]. split.
    + unfold capped_expected_return, py_min.
      destruct (Fin 1 <? calculate_expected_return _ _ _) eqn:Hcap;
        [reflexivity | exact Hcap].
    + intros Heps Hdiv Hfy. unfold capped_expected_return, fcf_yield_of.
      rewrite Heps, Hdiv, Hfy. reflexivity.
  - destruct (compute_full_sharpe_score_run [three_pass] 0 three_pass ∅
                DEFAULT_RF eq_refl) as (count & details & Hcount & Hrun).
    vm_compute in Hcount. injection Hcount as <- <-.
    eexists. rewrite Hrun. split; reflexivity.
Qed.

(** C10. The orchestrator never mutates its argument: after the call the
    caller's dictionary holds exactly what it held before (a pre-existing
    hv30 entry included), every other object of the store is untouched, and
    the only effect is the allocation of the copy that carries the freshly
    computed hv30. *)
Theorem C10_stock_detail_not_mutated
    (σ : heap) (stock_detail : loc) (d : dict)
    (thresholds : gmap string float) (rf : float) :
  σ !! stock_detail = Some d →
  let σ' := (compute_full_sharpe_score σ stock_detail thresholds rf).2 in
  σ' !! stock_detail = Some d
  ∧ (∀ key, get (deref σ' stock_detail) key = get d key)
  ∧ (∀ (l : loc) (d' : dict), σ !! l = Some d' → σ' !! l = Some d')
  ∧ σ' = σ ++ [with_field d "hv30" (calculate_hv (history d) 30)].
Proof.
  intros Hl σ'.
  destruct (compute_full_sharpe_score_run σ stock_detail d thresholds rf Hl)
    as (count & details & _ & Hrun).
  assert (σ' = σ ++ [snapshot_with_hv d]) as Hσ'
      by (subst σ'; by rewrite Hrun).
  rewrite Hσ'. repeat split.
  - by apply lookup_app_l_Some.
  - intros key. by rewrite (deref_alloc_old _ _ _ _ Hl).
  - intros l d' Hd'. by apply lookup_app_l_Some.
Qed.

End OrchestratorClaims.

(** A snapshot that passes one condition only is excluded. *)
Example one_pass_excluded :
  (@compute_full_sharpe_score approx_libm [one_pass] 0 ∅ DEFAULT_RF).1
  = Ret None.
Proof. reflexivity. Qed.

(** The theorems above are not vacuous: a store holding one snapshot. *)

Lemma C2_multiplier_and_exclusion_witness :
  [three_pass] !! 0%nat = Some three_pass
  ∧ ∃ r : SharpeResult,
      (@compute_full_sharpe_score approx_libm [three_pass] 0 ∅ DEFAULT_RF).1
      = Ret (Some r)
      ∧ condition_multiplier r = Fin 0.8.
Proof.
  split; [reflexivity |].
  destruct (@C2_multiplier_and_exclusion approx_libm
              [three_pass] 0%nat three_pass ∅ DEFAULT_RF eq_refl)
    as (_ & count & details & Hcount & _ & Hres).
  vm_compute in Hcount. injection Hcount as <- <-.
  destruct Hres as (r & Hr & _ & Hm & _).
  exists r. split; [exact Hr | exact Hm].
Defined.

Lemma C10_stock_detail_not_mutated_witness :
  [three_pass] !! 0%nat = Some three_pass
  ∧ (@compute_full_sharpe_score approx_libm [three_pass] 0 ∅ DEFAULT_RF).2
      !! 0%nat = Some three_pass.
Proof.
  split; [reflexivity |].
  exact (proj1 (@C10_stock_detail_not_mutated approx_libm
                  [three_pass] 0%nat three_pass ∅ DEFAULT_RF eq_refl)).
Defined.

(** ** Fields read through [or] chains *)

Section OrChains.
Context `{Libm}.
Local Open Scope float_scope.

Lemma py_or_falsy (a b : option float) : truthy a = false → py_or a b = b.
Proof. intros Ha. unfold py_or. by rewrite Ha. Qed.

Lemma py_or_truthy (a b : option float) : truthy a = true → py_or a b = a.
Proof. intros Ha. unfold py_or. by rewrite Ha. Qed.

Lemma check_financial_stability_no_income
    (equity_ratio operating_cf fcf total_debt ebitda : option float) :
  check_financial_stability
    equity_ratio operating_cf None fcf total_debt ebitda = Ret false.
Proof.
  unfold check_financial_stability.
  destruct equity_ratio as [e |]; [| reflexivity].
  destruct (e <=? Fin 0.40); [reflexivity |].
  by destruct operating_cf.
Qed.

(** The condition count in terms of the value read for net income. *)
Lemma count_conditions_passed_income (d : dict) (th : gmap string float) :
  ∃ count details c3,
    count_conditions_passed d th = Ret (count, details)
    ∧ financial_stability details = c3
    ∧ check_financial_stability
        (get d "equity_ratio")
        (py_or (get d "operating_cashflow") (get d "operatingCashflow"))
        (py_or (py_or (get d "net_income_stmt") (get d "netIncome"))
               (get d "net_income"))
        (py_or (py_or (get d "fcf") (get d "free_cashflow"))
               (get d "freeCashflow"))
        (py_or (get d "total_debt") (get d "totalDebt"))
        (get d "ebitda") = Ret c3.
Proof.
  unfold count_conditions_passed.
  match goal with
  | |- context [check_financial_stability ?a ?b ?c ?d ?e ?f] =>
      destruct (check_financial_stability_total a b c d e f) as [c3 ->]
  end.
  by eexists _, _, c3.
Qed.

(** C4 (amended). An [or] chain over alternative keys yields its first
    alternative that is neither absent nor 0 and, when there is none, the
    value under its last key.  So a 0 under a key that is not the last is
    read as absent when the later keys are absent, whereas a 0 under the
    last key is kept.  For every snapshot whose net income is 0 (or absent)
    under net_income_stmt and netIncome and absent under net_income, the
    financial-stability condition is false whatever the other fields,
    although the direct check with net_income = 0 passes when operating cash
    flow > 0 and the other sub-checks hold; with the 0 under the key
    net_income the condition is the direct check at net_income = 0.  In the
    orchestrator, eps_growth = 0 under eps_growth with earnings_growth
    absent is read as absent, and fcf = 0 under fcf with free_cashflow and
    fcf_yield absent leaves the result's fcf_yield absent, whereas a 0 under
    free_cashflow gives fcf_yield = 0 / market_cap. *)
Theorem C4_or_chain_zero_amended :
  (∀ a b : option float,
      (truthy a = true → py_or a b = a) ∧ (truthy a = false → py_or a b = b))
  ∧ truthy (Some (Fin 0)) = false
  ∧ py_or (Some (Fin 0)) None = None
  ∧ py_or None (Some (Fin 0)) = Some (Fin 0)
  ∧ (∀ (d : dict) (thresholds : gmap string float),
        truthy (get d "net_income_stmt") = false →
        truthy (get d "netIncome") = false →
        get d "net_income" = None →
        ∃ count details,
          count_conditions_passed d thresholds = Ret (count, details)
          ∧ financial_stability details = false)
  ∧ (∀ (e o f : Q) (total_debt ebitda : option Q),
        financial_stability_holds
          (Some e) (Some o) (Some 0%Q) (Some f) total_debt ebitda →
        check_financial_stability
          (Some (Fin e)) (Some (Fin o)) (Some (Fin 0)) (Some (Fin f))
          (Fin <$> total_debt) (Fin <$> ebitda) = Ret true)
  ∧ (∀ (d : dict) (thresholds : gmap string float),
        truthy (get d "net_income_stmt") = false →
        truthy (get d "netIncome") = false →
        get d "net_income" = Some (Fin 0) →
        ∃ count details c3,
          count_conditions_passed d thresholds = Ret (count, details)
          ∧ financial_stability details = c3
          ∧ check_financial_stability
              (get d "equity_ratio")
              (py_or (get d "operating_cashflow") (get d "operatingCashflow"))
              (Some (Fin 0))
              (py_or (py_or (get d "fcf") (get d "free_cashflow"))
                     (get d "freeCashflow"))
              (py_or (get d "total_debt") (get d "totalDebt"))
              (get d "ebitda") = Ret c3)
  ∧ (∃ count details,
        count_conditions_passed zero_netIncome ∅ = Ret (count, details)
        ∧ financial_stability details = false)
  ∧ (∀ (σ : heap) (stock_detail : loc) (d : dict)
       (thresholds : gmap string float) (rf : float) (r : SharpeResult),
        σ !! stock_detail = Some d →
        (compute_full_sharpe_score σ stock_detail thresholds rf).1
        = Ret (Some r) →
        get d "fcf_yield" = None →
        truthy (get d "fcf") = false →
        (get d "free_cashflow" = None → fcf_yield r = None)
        ∧ (∀ market_cap,
              get d "free_cashflow" = Some (Fin 0) →
              get d "market_cap" = Some market_cap →
              (Fin 0 <? market_cap) = true →
              fcf_yield r = Some (Fin 0 / market_cap))).
Proof.
  split; [intros a b; split; [apply py_or_truthy | apply py_or_falsy] |].
  do 3 (split; [reflexivity |]).
  split.
  { intros d th Hstmt Hni Hlast.
    destruct (count_conditions_passed_income d th)
      as (count & details & c3 & Hcount & Hc3 & Hcheck).
    rewrite (py_or_falsy _ _ Hstmt), (py_or_falsy _ _ Hni), Hlast in Hcheck.
    rewrite check_financial_stability_no_income in Hcheck.
    injection Hcheck as <-. by exists count, details. }
  split.
  { intros e o f total_debt ebitda Hholds.
    rewrite check_financial_stability_finite.
    by apply financial_stability_holds_finite in Hholds as ->. }
  split.
  { intros d th Hstmt Hni Hlast.
    destruct (count_conditions_passed_income d th)
      as (count & details & c3 & Hcount & Hc3 & Hcheck).
    rewrite (py_or_falsy _ _ Hstmt), (py_or_falsy _ _ Hni), Hlast in Hcheck.
    by exists count, details, c3. }
  split; [by eexists _, _ |].
  intros σ l d th rf r Hl Hres Hfy Hfcf.
  destruct (compute_full_sharpe_score_run σ l d th rf Hl)
    as (count & details & _ & Hrun).
  rewrite Hrun in Hres. cbn [fst] in Hres.
  destruct (calculate_condition_multiplier count) as [m |]; [| discriminate].
  injection Hres as <-. cbn [fcf_yield result_of]. unfold fcf_yield_of.
  rewrite Hfy, (py_or_falsy _ _ Hfcf). split.
  - by intros ->.
  - intros mc -> -> Hmc. by rewrite Hmc.
Qed.

End OrChains.

(** C4, as stated, fails: with net income 0 under the key [net_income],
    operating cash flow 100 > 0 and the other stability sub-checks
    satisfied, the financial-stability condition evaluates to true. *)
Lemma C4_zero_under_last_key_is_kept :
  get zero_net_income "net_income" = Some (Fin 0)
  ∧ count_conditions_passed zero_net_income ∅
    = Ret (1%Z,
           {| low_volatility := false;
              undervalued := false;
              financial_stability := true;
              eps_growth_ok := false;
              catalyst := None |}).
Proof. split; reflexivity. Qed.

(** ** Historical volatility *)

Import VolatilitySpec.

Section Volatility.
Context `{Libm}.
Local Open Scope float_scope.

Lemma np_sum_from (acc : Q) (l : list Q) :
  foldl fadd (Fin acc) (Fin <$> l) = Fin (foldl Qplus acc l).
Proof.
  revert acc. induction l as [| r l IH]; intros acc; [reflexivity |].
  cbn [fmap list_fmap foldl]. apply IH.
Qed.

Lemma np_sum_Fin (l : list Q) : np_sum (Fin <$> l) = Fin (Qsum l).
Proof. apply np_sum_from. Qed.

Lemma foldl_Qplus_nonneg (acc : Q) (l : list Q) :
  (0 <= acc)%Q → Forall (λ r, 0 <= r)%Q l → (0 <= foldl Qplus acc l)%Q.
Proof.
  intros Hacc Hl. revert acc Hacc.
  induction Hl as [| r l Hr _ IH]; intros acc Hacc; [exact Hacc |].
  cbn [foldl]. apply IH. lra.
Qed.

Lemma of_nat_nonzero (n : nat) :
  (0 < n)%nat → Qeq_bool (inject_Z (Z.of_nat n)) 0 = false.
Proof.
  intros Hn. apply Qeq_bool_false. intros Heq.
  assert (0 < inject_Z (Z.of_nat n))%Q as Hpos.
  { rewrite <- (Zlt_Qlt 0). lia. }
  lra.
Qed.

Lemma np_mean_Fin (l : list Q) :
  (0 < length l)%nat → np_mean (Fin <$> l) = Fin (Qmean l).
Proof.
  intros Hn. unfold np_mean, Qmean, of_nat.
  rewrite np_sum_Fin, length_fmap. cbn [fdiv].
  by rewrite (of_nat_nonzero _ Hn).
Qed.

Lemma sample_variance_nonneg (l : list Q) :
  (2 ≤ length l)%nat → (0 <= sample_variance l)%Q.
Proof.
  intros Hn. unfold sample_variance.
  assert (0 < inject_Z (Z.of_nat (length l - 1)))%Q as Hpos.
  { rewrite <- (Zlt_Qlt 0). lia. }
  apply Qle_shift_div_l; [exact Hpos |].
  rewrite Qmult_0_l. apply foldl_Qplus_nonneg; [lra |].
  apply Forall_forall. intros x Hx.
  apply list_elem_of_In, in_map_iff in Hx as (r & <- & _).
  cbv beta. generalize (r - Qmean l)%Q as x. intros x.
  destruct (Qlt_le_dec x 0) as [Hneg | Hpos'].
  - assert (x * x == (- x) * (- x))%Q as -> by ring.
    apply Qmult_le_0_compat; lra.
  - by apply Qmult_le_0_compat.
Qed.

(** [numpy.std(_, ddof=1)] on at least two finite values is the square root
    of the sample variance, with its n - 1 denominator. *)
Lemma np_std_ddof1_Fin (l : list Q) :
  (2 ≤ length l)%nat →
  np_std_ddof1 (Fin <$> l) = Fin (sqrtQ (sample_variance l)).
Proof.
  intros Hn. unfold np_std_ddof1.
  rewrite np_mean_Fin by lia.
  replace (map _ (Fin <$> l))
    with (Fin <$> map (λ r, (r - Qmean l) * (r - Qmean l))%Q l).
  2:{ clear Hn. generalize (Qmean l) as m. intros m.
      induction l as [| r l IH]; [reflexivity |].
      cbn [map fmap list_fmap]. f_equal. exact IH. }
  rewrite np_sum_Fin, length_fmap, Nat.max_0_r.
  unfold of_nat. cbn [fdiv]. rewrite of_nat_nonzero by lia.
  fold (Qsum (map (λ r, (r - Qmean l) * (r - Qmean l))%Q l)).
  change (Fin (_ / _)) with (Fin (sample_variance l)).
  cbn [np_sqrt].
  pose proof (sample_variance_nonneg l Hn) as Hv.
  apply Qle_bool_iff in Hv. by rewrite Hv.
Qed.

Lemma length_last_n {A} (n : nat) (l : list A) :
  (n ≤ length l)%nat → length (last_n n l) = n.
Proof. intros Hn. unfold last_n. rewrite length_drop. lia. Qed.

Lemma last_n_suffix {A} (n : nat) (l : list A) : last_n n l `suffix_of` l.
Proof. apply suffix_drop. Qed.

Lemma existsb_elem_of (f : float → bool) (l : list float) :
  existsb f l = true ↔ ∃ p, p ∈ l ∧ f p = true.
Proof.
  rewrite existsb_exists. by setoid_rewrite list_elem_of_In.
Qed.

(** C6. [calculate_hv] returns absent whenever the list has fewer than
    window + 1 prices or one of the most recent window + 1 prices is <= 0;
    otherwise it returns the sample standard deviation of the log returns of
    the most recent window + 1 prices times sqrt(252), the standard
    deviation having the n - 1 denominator.
    [calculate_upside_downside_vol] is absent on both sides under the same
    two conditions and otherwise splits the same log returns into the
    strictly positive and the strictly negative ones, each sub-volatility
    being absent unless its subset has at least 2 observations. *)
Theorem C6_historical_volatility (prices : list float) (window : nat) :
  let unusable :=
    (length prices < window + 1)%nat
    ∨ ∃ p, p ∈ recent prices window ∧ (p <=? Fin 0) = true in
  (unusable →
     calculate_hv prices window = None
     ∧ calculate_upside_downside_vol prices window = (None, None))
  ∧ (¬ unusable →
       length (recent prices window) = (window + 1)%nat
       ∧ recent prices window `suffix_of` prices
       ∧ calculate_hv prices window
         = Some (np_std_ddof1 (log_returns prices window)
                 * np_sqrt (Fin 252))
       ∧ calculate_upside_downside_vol prices window
         = (sub_volatility
              (List.filter (λ r, Fin 0 <? r) (log_returns prices window)),
            sub_volatility
              (List.filter (λ r, r <? Fin 0) (log_returns prices window))))
  ∧ (∀ rs : list Q,
        (2 ≤ length rs)%nat →
        np_std_ddof1 (Fin <$> rs) = Fin (sqrtQ (sample_variance rs))).
Proof.
  intros unusable.
  unfold calculate_hv, calculate_upside_downside_vol.
  fold (recent prices window).
  split; [| split; [| exact np_std_ddof1_Fin]].
  - intros [Hshort | Hbad].
    + apply Nat.ltb_lt in Hshort. by rewrite Hshort.
    + apply existsb_elem_of in Hbad. rewrite Hbad.
      by destruct (length prices <? window + 1)%nat.
  - intros Hok.
    destruct (length prices <? window + 1)%nat eqn:Hlen.
    { exfalso. apply Hok. left. by apply Nat.ltb_lt. }
    apply Nat.ltb_ge in Hlen.
    destruct (existsb _ (recent prices window)) eqn:Hex.
    { exfalso. apply Hok. right. by apply existsb_elem_of. }
    split; [by apply length_last_n |].
    split; [apply last_n_suffix |].
    split; reflexivity.
Qed.

End Volatility.

(** Three rises and one fall: a single negative return leaves the downside
    volatility absent. *)
Example upside_only :
  ∃ u : float,
    @calculate_upside_downside_vol approx_libm
      [Fin 100; Fin 110; Fin 121; Fin 110; Fin 121] 4 = (Some u, None).
Proof. eexists. vm_compute. reflexivity. Qed.

(** Two flat closes after a rise: the log returns of the window are 0, 0. *)
Example calculate_hv_flat :
  (∃ q : Q,
      @calculate_hv approx_libm [Fin 90; Fin 100; Fin 100; Fin 100] 2
      = Some (Fin q)
      ∧ (q == 0)%Q)
  ∧ @calculate_hv approx_libm [Fin 100; Fin 100] 2 = None
  ∧ @calculate_hv approx_libm [Fin 100; Fin 0; Fin 100] 2 = None.
Proof.
  split; [| split; reflexivity].
  eexists. split; [vm_compute; reflexivity | reflexivity].
Qed.

(** ** The pullback detector *)

Import Technicals BounceSpec RsiSpec.

Section Series.
Context `{Libm}.
Local Open Scope float_scope.

Lemma iloc_from_end (s : list float) (k : nat) :
  (1 ≤ k ≤ length s)%nat →
  ∃ x, iloc s (- Z.of_nat k) = Ret x ∧ s !! (length s - k)%nat = Some x.
Proof.
  intros Hk. unfold iloc.
  assert ((- Z.of_nat k <? 0)%Z = true) as -> by (apply Z.ltb_lt; lia).
  assert ((- Z.of_nat k + Z.of_nat (length s) <? 0)%Z = false) as ->
      by (apply Z.ltb_ge; lia).
  replace (Z.to_nat (- Z.of_nat k + Z.of_nat (length s)))
    with (length s - k)%nat by lia.
  destruct (lookup_lt_is_Some_2 s (length s - k)%nat) as [x Hx]; [lia |].
  rewrite Hx. by exists x.
Qed.

Lemma length_prep_values (s : list float) :
  length (prep_values s) = length s.
Proof. apply length_map. Qed.

(** Series without infinities are left as they are. *)
Lemma prep_values_id (s : list float) :
  Forall (λ x, x = NaN ∨ ∃ q : Q, x = Fin q) s → prep_values s = s.
Proof.
  induction 1 as [| x s Hx _ IH]; [reflexivity |].
  unfold prep_values in *. cbn [map]. rewrite IH.
  by destruct Hx as [-> | [q ->]].
Qed.

Lemma prep_values_Fin (cs : list Q) : prep_values (Fin <$> cs) = Fin <$> cs.
Proof.
  apply prep_values_id. apply Forall_fmap, Forall_true. intros q.
  right. by exists q.
Qed.

Lemma length_rolling_mean (window : nat) (s : list float) :
  length (rolling_mean window s) = length s.
Proof. unfold rolling_mean. by rewrite length_map, length_seq. Qed.

Lemma length_rolling_std (window : nat) (s : list float) :
  length (rolling_std window s) = length s.
Proof. unfold rolling_std. by rewrite length_map, length_seq. Qed.

Lemma length_np_diff (s : list float) : length (np_diff s) = (length s - 1)%nat.
Proof.
  induction s as [| x [| y t] IH]; [reflexivity | reflexivity |].
  cbn [np_diff length] in *. rewrite IH. lia.
Qed.

Lemma length_series_diff (s : list float) :
  length (series_diff s) = length s.
Proof.
  destruct s as [| x t]; [reflexivity |].
  unfold series_diff. cbn [length]. rewrite length_np_diff. cbn [length]. lia.
Qed.

Lemma length_ewm_loop (alpha : float) (minp : nat) (st : ewm_state)
    (s : list float) :
  length (ewm_loop alpha minp st s) = length s.
Proof.
  revert st. induction s as [| x t IH]; intros st; [reflexivity |].
  cbn [ewm_loop length]. by rewrite IH.
Qed.

Lemma length_ewm_mean (alpha : float) (minp : nat) (s : list float) :
  length (ewm_mean alpha minp s) = length s.
Proof.
  unfold ewm_mean. rewrite <- (length_prep_values s).
  destruct (prep_values s) as [| x t]; [reflexivity |].
  cbn [length]. by rewrite length_ewm_loop.
Qed.

Lemma length_gains (close : list float) : length (gains close) = length close.
Proof.
  unfold gains, where_.
  rewrite length_zip_with, length_map, length_series_diff. lia.
Qed.

Lemma length_losses (close : list float) :
  length (losses close) = length close.
Proof.
  unfold losses, where_.
  rewrite length_zip_with, !length_map, length_series_diff. lia.
Qed.

Lemma pydiv_period (period : nat) :
  (1 ≤ period)%nat →
  pydiv (Fin 1) (of_nat period) = Ret (Fin (1 / inject_Z (Z.of_nat period))).
Proof.
  intros Hp. unfold pydiv, of_nat. cbn [feq fdiv].
  by rewrite of_nat_nonzero by lia.
Qed.

(** [compute_rsi] in terms of the two smoothed averages. *)
Lemma compute_rsi_returns (close : list float) (period : nat) :
  (1 ≤ period)%nat →
  compute_rsi close period
  = Ret (map (λ r, Fin 100 - Fin 100 / (Fin 1 + r))
             (zip_with fdiv (avg_gain close period) (avg_loss close period))).
Proof.
  intros Hp. unfold compute_rsi. by rewrite (pydiv_period _ Hp).
Qed.

Lemma length_compute_rsi (close rsi_series : list float) (period : nat) :
  compute_rsi close period = Ret rsi_series →
  length rsi_series = length close.
Proof.
  destruct period as [| p]; [discriminate |].
  rewrite compute_rsi_returns by lia. intros [= <-].
  unfold avg_gain, avg_loss, wilder.
  rewrite length_map, length_zip_with, !length_ewm_mean.
  rewrite length_gains, length_losses. lia.
Qed.

End Series.

Section ShortSeries.
Context `{Libm}.
Local Open Scope float_scope.

(** C5. On every series of fewer than 200 bars the detector returns,
    without raising, the canonical default report: the three conditions and
    all_conditions false, pullback_pct and bounce_score 0.0, the five
    bounce_details flags false with lookback_day 0, and rsi, volume_ratio,
    sma50, sma200, current_price and recent_high NaN. *)
Theorem C5_short_series_default_report (cfg : config) (hist : DataFrame) :
  (length hist < 200)%nat →
  detect_pullback_in_uptrend cfg hist
  = Ret {| uptrend := false;
           is_pullback := false;
           pullback_pct := Fin 0;
           bounce_signal := false;
           bounce_score := Fin 0;
           bounce_details :=
             {| rsi_reversal := false;
                rsi_depth_bonus := false;
                bb_proximity := false;
                volume_surge := false;
                price_reversal := false;
                lookback_day := 0 |};
           rsi := NaN;
           volume_ratio := NaN;
           sma50 := NaN;
           sma200 := NaN;
           current_price := NaN;
           recent_high := NaN;
           all_conditions := false |}.
Proof.
  intros Hshort. unfold detect_pullback_in_uptrend.
  rewrite length_map.
  apply Nat.ltb_lt in Hshort. by rewrite Hshort.
Qed.

End ShortSeries.

(** Three bars. *)
Lemma C5_short_series_default_report_witness :
  let hist :=
    [ {| bar_close := Fin 100; bar_volume := Fin 1000 |};
      {| bar_close := Fin 101; bar_volume := Fin 1200 |};
      {| bar_close := Fin 99; bar_volume := Fin 900 |} ] in
  (length hist < 200)%nat
  ∧ @detect_pullback_in_uptrend approx_libm ∅ hist = Ret default_report.
Proof.
  intros hist. assert (length hist < 200)%nat as Hshort by (cbn; lia).
  split; [exact Hshort |].
  exact (@C5_short_series_default_report approx_libm ∅ hist Hshort).
Defined.

(** ** The RSI *)

Section Rsi.
Context `{Libm}.
Local Open Scope float_scope.

Lemma zip_with_map_l {A B C D} (g : B → C → D) (f : A → B) (k : A → C)
    (l : list A) :
  zip_with g (map f l) (map k l) = map (λ x, g (f x) (k x)) l.
Proof. induction l as [| x l IH]; [reflexivity |]. cbn. by rewrite IH. Qed.

Lemma np_diff_Fin (cs : list Q) :
  Forall (λ d, ∃ q : Q, d = Fin q) (np_diff (Fin <$> cs)).
Proof.
  induction cs as [| x [| y t] IH]; [constructor | constructor |].
  cbn [fmap list_fmap np_diff] in *. constructor; [by eexists | exact IH].
Qed.

Lemma series_diff_Fin (cs : list Q) :
  Forall (λ d, d = NaN ∨ ∃ q : Q, d = Fin q) (series_diff (Fin <$> cs)).
Proof.
  destruct cs as [| x t]; [constructor |].
  unfold series_diff. cbn [fmap list_fmap]. constructor; [by left |].
  eapply Forall_impl; [apply (np_diff_Fin (x :: t)) |].
  cbn beta. intros d Hd. by right.
Qed.

Lemma gains_nonneg (cs : list Q) : Forall nonneg_fin (gains (Fin <$> cs)).
Proof.
  unfold gains, where_.
  rewrite <- (map_id (series_diff (Fin <$> cs))) at 2.
  rewrite zip_with_map_l. apply Forall_map.
  eapply Forall_impl; [apply series_diff_Fin |].
  intros d [-> | [q ->]]; cbn.
  - exists 0%Q. split; [reflexivity | lra].
  - destruct (Qlt_bool 0 q) eqn:Hq; qprop.
    + exists q. split; [reflexivity | lra].
    + exists 0%Q. split; [reflexivity | lra].
Qed.

Lemma losses_nonneg (cs : list Q) : Forall nonneg_fin (losses (Fin <$> cs)).
Proof.
  unfold losses, where_.
  rewrite zip_with_map_l. apply Forall_map.
  eapply Forall_impl; [apply series_diff_Fin |].
  intros d [-> | [q ->]]; cbn.
  - exists 0%Q. split; [reflexivity | lra].
  - destruct (Qlt_bool q 0) eqn:Hq; qprop.
    + exists (- q)%Q. split; [reflexivity | lra].
    + exists 0%Q. split; [reflexivity | lra].
Qed.

Lemma ewm_init_inv (x : float) : nonneg_fin x → ewm_inv 1 (ewm_init x).
Proof.
  intros [q [-> Hq]]. repeat split. exists q. by split.
Qed.

Lemma ewm_step_inv (a : Q) (n : nat) (st : ewm_state) (cur : float) :
  (0 < a)%Q → (a <= 1)%Q →
  ewm_inv n st → nonneg_fin cur → ewm_inv (S n) (ewm_step (Fin a) st cur).
Proof.
  intros Ha0 Ha1 ([w [Hw Hw0]] & Hold & Hn) [c [-> Hc]].
  unfold ewm_step. rewrite Hw, Hold, Hn. cbn [isnan negb].
  repeat split; cbn [weighted old_wt nobs]; [| lia].
  cbn [fsub fneg fadd fmul feq fdiv].
  destruct (Qeq_bool w c); [by exists w |].
  assert (Qeq_bool (1 * (1 + - a) + a) 0 = false) as ->
      by (apply Qeq_bool_false; lra).
  eexists. split; [reflexivity |].
  apply Qle_shift_div_l; [lra |]. rewrite Qmult_0_l.
  assert (0 <= w * (1 - a))%Q by (apply Qmult_le_0_compat; lra).
  assert (0 <= a * c)%Q by (apply Qmult_le_0_compat; lra).
  lra.
Qed.

Lemma ewm_output_inv (minp n : nat) (st : ewm_state) :
  ewm_inv n st →
  if (Nat.max minp 1 <=? n)%nat then nonneg_fin (ewm_output minp st)
  else ewm_output minp st = NaN.
Proof.
  intros (Hw & _ & Hn). unfold ewm_output. rewrite Hn.
  by destruct (Nat.max minp 1 <=? n)%nat.
Qed.

Lemma ewm_loop_lookup (a : Q) (minp n : nat) (st : ewm_state)
    (s : list float) (i : nat) (x : float) :
  (0 < a)%Q → (a <= 1)%Q →
  ewm_inv n st → Forall nonneg_fin s →
  ewm_loop (Fin a) minp st s !! i = Some x →
  if (Nat.max minp 1 <=? n + i + 1)%nat then nonneg_fin x else x = NaN.
Proof.
  intros Ha0 Ha1 Hst Hs. revert n st i Hst.
  induction Hs as [| cur s Hcur _ IH]; intros n st i Hst; [discriminate |].
  cbn [ewm_loop].
  pose proof (ewm_step_inv a n st cur Ha0 Ha1 Hst Hcur) as Hst'.
  destruct i as [| i]; cbn [lookup list_lookup].
  - intros [= <-]. replace (n + 0 + 1)%nat with (S n) by lia.
    by apply ewm_output_inv.
  - intros Hx. replace (n + S i + 1)%nat with (S n + i + 1)%nat by lia.
    by apply (IH (S n) _ i Hst').
Qed.

(** A smoothed average of finite non-negative values is defined from index
    [period - 1] on, and is then finite and non-negative. *)
Lemma wilder_lookup (period : nat) (s : list float) (i : nat) (x : float) :
  (1 ≤ period)%nat → Forall nonneg_fin s →
  wilder period s !! i = Some x →
  if (period <=? i + 1)%nat then nonneg_fin x else x = NaN.
Proof.
  intros Hp Hs. unfold wilder.
  assert (0 < inject_Z (Z.of_nat period))%Q as Hpos.
  { rewrite <- (Zlt_Qlt 0). lia. }
  assert (1 <= inject_Z (Z.of_nat period))%Q as Hone.
  { rewrite <- (Zle_Qle 1). lia. }
  assert (0 < 1 / inject_Z (Z.of_nat period))%Q as Ha0.
  { apply Qlt_shift_div_l; lra. }
  assert (1 / inject_Z (Z.of_nat period) <= 1)%Q as Ha1.
  { apply Qle_shift_div_r; lra. }
  replace period with (Nat.max period 1) at 3 by lia.
  assert (prep_values s = s) as Hprep.
  { apply prep_values_id. eapply Forall_impl; [exact Hs |].
    intros y (q & -> & _). right. by exists q. }
  unfold ewm_mean. rewrite Hprep.
  destruct Hs as [| x0 s Hx0 Hs]; [discriminate |].
  destruct i as [| i]; cbn [lookup list_lookup].
  - intros [= <-]. apply (ewm_output_inv period 1). by apply ewm_init_inv.
  - intros Hx. replace (S i + 1)%nat with (1 + i + 1)%nat by lia.
    eapply ewm_loop_lookup; eauto. by apply ewm_init_inv.
Qed.

Lemma rsi_at (close : list float) (period i : nat) (g l : float) :
  (1 ≤ period)%nat →
  avg_gain close period !! i = Some g →
  avg_loss close period !! i = Some l →
  ∃ rsi_series,
    compute_rsi close period = Ret rsi_series
    ∧ rsi_series !! i = Some (Fin 100 - Fin 100 / (Fin 1 + g / l)).
Proof.
  intros Hp Hg Hl. rewrite (compute_rsi_returns _ _ Hp).
  eexists. split; [reflexivity |].
  rewrite list_lookup_fmap, lookup_zip_with, Hg, Hl. reflexivity.
Qed.

Lemma rsi_value_in_range (g l : Q) :
  (0 <= g)%Q → (0 < l)%Q →
  ∃ r : Q,
    Fin 100 - Fin 100 / (Fin 1 + Fin g / Fin l) = Fin r
    ∧ (0 <= r <= 100)%Q.
Proof.
  intros Hg Hl. cbn [fdiv fadd fsub fneg].
  assert (Qeq_bool l 0 = false) as -> by (apply Qeq_bool_false; lra).
  assert (0 <= g / l)%Q as Hrs.
  { apply Qle_shift_div_l; [exact Hl | lra]. }
  cbn [fadd fdiv].
  assert (Qeq_bool (1 + g / l) 0 = false) as -> by (apply Qeq_bool_false; lra).
  cbn [fneg fadd]. eexists. split; [reflexivity |].
  assert (0 <= 100 / (1 + g / l))%Q.
  { apply Qle_shift_div_l; lra. }
  assert (100 / (1 + g / l) <= 100)%Q.
  { apply Qle_shift_div_r; lra. }
  lra.
Qed.

Lemma rsi_value_saturates (g l : Q) :
  (0 < g)%Q → (l == 0)%Q →
  ∃ r : Q,
    Fin 100 - Fin 100 / (Fin 1 + Fin g / Fin l) = Fin r ∧ (r == 100)%Q.
Proof.
  intros Hg Hl. cbn [fdiv].
  assert (Qeq_bool l 0 = true) as -> by (by apply Qeq_bool_iff).
  rewrite (sign_case_pos _ _ _ _ Hg).
  eexists. split; reflexivity.
Qed.

Lemma rsi_value_undefined (g l : Q) :
  (g == 0)%Q → (l == 0)%Q →
  Fin 100 - Fin 100 / (Fin 1 + Fin g / Fin l) = NaN.
Proof.
  intros Hg Hl. cbn [fdiv].
  assert (Qeq_bool l 0 = true) as -> by (by apply Qeq_bool_iff).
  by rewrite (sign_case_zero _ _ _ _ Hg).
Qed.

(** C9 (amended). For every series of finite closes and every index where
    the Wilder-smoothed average loss is defined, both averages are finite
    and non-negative; if the average loss is > 0 the RSI lies in [0,100];
    if the average loss is 0 and the average gain is > 0 the RSI is 100
    (the infinite ratio is not special-cased away); and if both averages
    are 0 the ratio is 0/0 and the RSI is NaN. *)
Theorem C9_rsi_range_amended
    (close : list Q) (period i : nat) (l : float) :
  (1 ≤ period)%nat →
  avg_loss (Fin <$> close) period !! i = Some l →
  isnan l = false →
  ∃ (rsi_series : list float) (lq gq : Q),
    compute_rsi (Fin <$> close) period = Ret rsi_series
    ∧ l = Fin lq
    ∧ avg_gain (Fin <$> close) period !! i = Some (Fin gq)
    ∧ (0 <= lq)%Q ∧ (0 <= gq)%Q
    ∧ ((0 < lq)%Q →
       ∃ r : Q, rsi_series !! i = Some (Fin r) ∧ (0 <= r <= 100)%Q)
    ∧ ((lq == 0)%Q → (0 < gq)%Q →
       ∃ r : Q, rsi_series !! i = Some (Fin r) ∧ (r == 100)%Q)
    ∧ ((lq == 0)%Q → (gq == 0)%Q → rsi_series !! i = Some NaN).
Proof.
  intros Hp Hl Hdef.
  pose proof (wilder_lookup period _ i l Hp (losses_nonneg close) Hl) as Hlv.
  destruct (period <=? i + 1)%nat eqn:Hi;
    [| rewrite Hlv in Hdef; discriminate].
  destruct Hlv as [lq [-> Hlq]].
  destruct (lookup_lt_is_Some_2 (avg_gain (Fin <$> close) period) i)
    as [g Hg].
  { apply lookup_lt_Some in Hl. revert Hl. unfold avg_gain, avg_loss, wilder.
    by rewrite !length_ewm_mean, length_gains, length_losses. }
  pose proof (wilder_lookup period _ i g Hp (gains_nonneg close) Hg) as Hgv.
  rewrite Hi in Hgv. destruct Hgv as [gq [-> Hgq]].
  destruct (rsi_at _ period i _ _ Hp Hg Hl) as (rsi_series & Hrun & Hat).
  exists rsi_series, lq, gq. rewrite Hat.
  do 5 (split; [done |]). split; [| split].
  - intros Hpos. destruct (rsi_value_in_range gq lq Hgq Hpos) as (r & -> & Hr).
    by exists r.
  - intros Hzero Hpos.
    destruct (rsi_value_saturates gq lq Hpos Hzero) as (r & -> & Hr).
    by exists r.
  - intros Hlz Hgz. by rewrite (rsi_value_undefined gq lq Hgz Hlz).
Qed.

End Rsi.

(** A rising series: the average loss is 0, the average gain is not. *)
Lemma C9_rsi_range_amended_witness :
  let close := [100; 101; 102; 103; 104; 105; 106; 107; 108; 109; 110;
                111; 112; 113; 114]%Q in
  avg_loss (Fin <$> close) 14 !! 14%nat = Some (Fin 0)
  ∧ ∃ r : Q,
      (∀ rsi_series,
          compute_rsi (Fin <$> close) 14 = Ret rsi_series →
          rsi_series !! 14%nat = Some (Fin r))
      ∧ (r == 100)%Q.
Proof.
  intros close.
  assert (1 ≤ 14)%nat as Hp by lia.
  assert (avg_loss (Fin <$> close) 14 !! 14%nat = Some (Fin 0)) as Hl
      by (vm_compute; reflexivity).
  split; [exact Hl |].
  destruct (C9_rsi_range_amended close 14 14 (Fin 0) Hp Hl eq_refl)
    as (rsi_series & lq & gq & Hrun & [= <-] & Hg & _ & _ & _ & Hsat & _).
  assert (0 < gq)%Q as Hpos.
  { vm_compute in Hg. injection Hg as <-. reflexivity. }
  destruct (Hsat (Qeq_refl 0) Hpos) as (r & Hr & H100).
  exists r. split; [| exact H100].
  intros rsi' Hrun'. rewrite Hrun in Hrun'. by injection Hrun' as <-.
Defined.

(** C9, as stated, fails on a flat series: at index 13 the average loss is
    defined and equal to 0, and the RSI is NaN, not 100. *)
Lemma C9_flat_series_rsi_is_nan :
  let close := repeat (Fin 100) 15 in
  avg_loss close 14 !! 13%nat = Some (Fin 0)
  ∧ avg_gain close 14 !! 13%nat = Some (Fin 0)
  ∧ ∃ rsi_series,
      compute_rsi close 14 = Ret rsi_series
      ∧ rsi_series !! 13%nat = Some NaN.
Proof.
  intros close. split; [reflexivity |]. split; [reflexivity |].
  eexists. split; reflexivity.
Qed.

(** ** The bounce score *)

Import SelectionSpec.

Section Selection.
Context `{Libm}.
Local Open Scope float_scope.

Lemma points_range (d : BounceDetails) : (0 <= points d <= 100)%Q.
Proof.
  destruct d as [[] [] [] [] [] day]; unfold points; cbn; lra.
Qed.

Lemma points_zero (d : BounceDetails) :
  (points d <= 0)%Q → d = no_bounce (lookback_day d).
Proof.
  destruct d as [[] [] [] [] [] day]; unfold points; cbn; intros Hle;
    first [reflexivity | exfalso; lra].
Qed.

Lemma py_round_points (d : BounceDetails) :
  py_round (Fin (points d)) 2 = Fin (points d).
Proof.
  destruct d as [[] [] [] [] [] day]; vm_compute; reflexivity.
Qed.

(** The best of the days seen: either the initial value, no day scoring
    more, or the first day that attains the maximum. *)
Lemma foldl_pick (s0 : Q) (d0 : BounceDetails) (days : list BounceDetails) :
  let best := foldl pick (Fin s0, d0) (scored <$> days) in
  (best = (Fin s0, d0)
   ∧ ∀ j d, days !! j = Some d → (points d <= s0)%Q)
  ∨ (∃ k d,
        days !! k = Some d
        ∧ best = scored d
        ∧ (s0 < points d)%Q
        ∧ (∀ j d', days !! j = Some d' → (points d' <= points d)%Q)
        ∧ (∀ j d', (j < k)%nat → days !! j = Some d' →
                   (points d' < points d)%Q)).
Proof.
  revert s0 d0. induction days as [| d1 days IH]; intros s0 d0 best.
  { left. split; [reflexivity |]. intros j d Hj. discriminate. }
  subst best. cbn [fmap list_fmap foldl].
  change (pick (Fin s0, d0) (scored d1))
    with (if Qlt_bool s0 (points d1) then scored d1 else (Fin s0, d0)).
  destruct (Qlt_bool s0 (points d1)) eqn:Hlt; qprop.
  - right. destruct (IH (points d1) d1) as [[Hbest Hle] | Hfound].
    + exists 0%nat, d1. split; [reflexivity |]. split; [exact Hbest |].
      split; [exact Hlt |]. split.
      * intros [| j] d'; cbn; [intros [= <-]; lra | apply Hle].
      * intros j d' Hj. lia.
    + destruct Hfound as (k & d & Hk & Hbest & Hgt & Hmax & Hfirst).
      exists (S k), d. split; [exact Hk |]. split; [exact Hbest |].
      split; [lra |]. split.
      * intros [| j] d'; cbn; [intros [= <-]; lra | apply Hmax].
      * intros [| j] d' Hj; cbn; [intros [= <-]; lra |].
        apply Hfirst. lia.
  - destruct (IH s0 d0) as [[Hbest Hle] | Hfound].
    + left. split; [exact Hbest |].
      intros [| j] d'; cbn; [intros [= <-]; lra | apply Hle].
    + right. destruct Hfound as (k & d & Hk & Hbest & Hgt & Hmax & Hfirst).
      exists (S k), d. split; [exact Hk |]. split; [exact Hbest |].
      split; [exact Hgt |]. split.
      * intros [| j] d'; cbn; [intros [= <-]; lra | apply Hmax].
      * intros [| j] d' Hj; cbn; [intros [= <-]; lra |].
        apply Hfirst. lia.
Qed.

End Selection.

Section BounceLoop.
Context `{Libm}.
Local Open Scope float_scope.

Lemma guarded_iloc (s : list float) (k : nat) :
  (1 ≤ k)%nat →
  ∃ x,
    (if (Z.abs (- Z.of_nat k) <? Z.of_nat (length s))%Z
     then iloc s (- Z.of_nat k) else Ret NaN) = Ret x.
Proof.
  intros Hk. destruct (Z.abs _ <? _)%Z eqn:Hlt; [| by eexists].
  apply Z.ltb_lt in Hlt.
  destruct (iloc_from_end s k) as (x & Hx & _); [lia | by exists x].
Qed.

Lemma guarded_lower_band (s : list float) (k : nat) :
  (1 ≤ k)%nat →
  ∃ x,
    (if (Z.abs (- Z.of_nat k) <? Z.of_nat (length s))%Z then
       x ← iloc s (- Z.of_nat k);
       if negb (isnan x) then iloc s (- Z.of_nat k) else Ret NaN
     else Ret NaN) = Ret x.
Proof.
  intros Hk. destruct (Z.abs _ <? _)%Z eqn:Hlt; [| by eexists].
  apply Z.ltb_lt in Hlt.
  destruct (iloc_from_end s k) as (x & Hx & _); [lia |].
  rewrite Hx. cbn [mbind py_bind].
  destruct (negb (isnan x)); by eexists.
Qed.

(** Under the default points a day of the lookback returns, and its score
    is the sum of the points of the sub-conditions that fired. *)
Lemma bounce_day_scored (cfg : config)
    (close volume rsi_series lower_band : list float) (offset : nat) :
  default_scores cfg →
  (offset + 1 ≤ length close)%nat →
  (offset + 1 ≤ length rsi_series)%nat →
  ∃ d,
    bounce_day cfg close volume rsi_series lower_band offset = Ret (scored d)
    ∧ lookback_day d = offset.
Proof.
  intros (Hrev & Hdep & Hbb & Hvol & Hprice & _) Hclose Hrsi.
  unfold bounce_day. cbv beta zeta.
  rewrite Hrev, Hdep, Hbb, Hvol, Hprice.
  replace (-1 - Z.of_nat offset - 1)%Z with (- Z.of_nat (S (S offset)))%Z
    by lia.
  replace (-1 - Z.of_nat offset)%Z with (- Z.of_nat (S offset))%Z by lia.
  destruct (iloc_from_end rsi_series (S offset)) as (day_rsi & -> & _);
    [lia |].
  destruct (guarded_iloc rsi_series (S (S offset))) as (day_prev_rsi & ->);
    [lia |].
  destruct (iloc_from_end close (S offset)) as (day_close & -> & _); [lia |].
  destruct (guarded_iloc close (S (S offset))) as (day_prev_close & ->);
    [lia |].
  destruct (guarded_lower_band lower_band (S offset)) as (day_lower & ->);
    [lia |].
  cbn [mbind py_bind].
  match goal with
  | |- ∃ d, Ret (_, ?r) = _ ∧ _ => exists r
  end.
  split; [| reflexivity].
  unfold scored, points.
  cbn [rsi_reversal rsi_depth_bonus bb_proximity volume_surge price_reversal].
  repeat match goal with
         | |- context [if ?b then _ else _] =>
             lazymatch b with
             | true => fail
             | false => fail
             | _ => destruct b
             end
         end; reflexivity.
Qed.

(** With enough bars the loop never breaks: it folds [pick] over the five
    days. *)
Lemma bounce_loop_run (cfg : config)
    (close volume rsi_series lower_band : list float)
    (offsets : list nat) (best : float * BounceDetails) :
  default_scores cfg →
  Forall (λ o, (o + 1 < length close)%nat ∧ (o + 1 < length rsi_series)%nat)
         offsets →
  ∃ days,
    Forall2
      (λ o d,
         bounce_day cfg close volume rsi_series lower_band o = Ret (scored d)
         ∧ lookback_day d = o)
      offsets days
    ∧ bounce_loop cfg close volume rsi_series lower_band offsets best
      = Ret (foldl pick best (scored <$> days)).
Proof.
  intros Hcfg Hoff. revert best.
  induction Hoff as [| o offsets [Hc Hr] _ IH]; intros best.
  { exists []. split; [constructor | reflexivity]. }
  destruct (bounce_day_scored cfg close volume rsi_series lower_band o Hcfg)
    as (d & Hday & Hlook); [lia | lia |].
  destruct (IH (pick best (scored d))) as (days & Hdays & Hloop).
  exists (d :: days). split; [by constructor |].
  cbn [bounce_loop].
  assert ((Z.of_nat (length close) <=? Z.abs (-1 - Z.of_nat o))%Z = false)
    as -> by (apply Z.leb_gt; lia).
  assert ((Z.of_nat (length rsi_series) <=? Z.abs (-1 - Z.of_nat o))%Z
          = false) as -> by (apply Z.leb_gt; lia).
  cbn [orb]. rewrite Hday. cbn [mbind py_bind].
  exact Hloop.
Qed.

Lemma iloc_last (s : list float) :
  (1 ≤ length s)%nat → ∃ x, iloc s (-1) = Ret x.
Proof.
  intros Hs. destruct (iloc_from_end s 1) as (x & Hx & _); [lia |].
  by exists x.
Qed.

Lemma iloc_second_last (s : list float) :
  ∃ x, (if (2 <=? length s)%nat then iloc s (-2) else Ret NaN) = Ret x.
Proof.
  destruct (2 <=? length s)%nat eqn:Hs; [| by eexists].
  apply Nat.leb_le in Hs.
  destruct (iloc_from_end s 2) as (x & Hx & _); [lia |].
  by exists x.
Qed.

Lemma pullback_pct_returns (current_price recent_high : float) :
  ∃ x,
    (if Fin 0 <? recent_high
     then pydiv (current_price - recent_high) recent_high
     else Ret (Fin 0)) = Ret x.
Proof.
  destruct (Fin 0 <? recent_high) eqn:Hpos; [| by eexists].
  rewrite (pydiv_pos _ _ Hpos). by eexists.
Qed.

(** The detector on at least 200 bars: it returns, and its bounce fields
    come from folding [pick] over the five days of the lookback. *)
Lemma detect_pullback_in_uptrend_run (cfg : config) (hist : DataFrame) :
  default_scores cfg →
  (200 ≤ length hist)%nat →
  ∃ report rsi_series days,
    detect_pullback_in_uptrend cfg hist = Ret report
    ∧ compute_rsi (closes hist) 14 = Ret rsi_series
    ∧ Forall2
        (λ o d,
           bounce_day cfg (closes hist) (volumes hist) rsi_series
             (lower_band_of hist) o = Ret (scored d)
           ∧ lookback_day d = o)
        (seq 0 5) days
    ∧ let best := foldl pick (Fin 0, no_bounce 0) (scored <$> days) in
      bounce_score report = py_round best.1 2
      ∧ bounce_details report = best.2
      ∧ bounce_signal report = (Fin 40 <=? best.1).
Proof.
  intros Hcfg Hlen.
  assert (length (closes hist) = length hist) as Hclose
      by apply length_map.
  assert (length (volumes hist) = length hist) as Hvolume
      by apply length_map.
  unfold detect_pullback_in_uptrend.
  fold (closes hist). fold (volumes hist).
  assert ((length (closes hist) <? 200)%nat = false) as ->
      by (apply Nat.ltb_ge; lia).
  destruct (iloc_last (closes hist)) as [current_price ->]; [lia |].
  destruct (iloc_last (rolling_mean 50 (closes hist)))
    as [current_sma50 ->]; [rewrite length_rolling_mean; lia |].
  destruct (iloc_last (rolling_mean 200 (closes hist)))
    as [current_sma200 ->]; [rewrite length_rolling_mean; lia |].
  cbn [mbind py_bind].
  destruct (compute_rsi (closes hist) 14) as [rsi_series |] eqn:Hrsi;
    [| by rewrite compute_rsi_returns in Hrsi by lia].
  pose proof (length_compute_rsi _ _ _ Hrsi) as Hlrsi.
  cbn [mbind py_bind].
  destruct (iloc_last rsi_series) as [current_rsi ->]; [lia |].
  cbn [mbind py_bind].
  destruct (iloc_second_last rsi_series) as [prev_rsi ->].
  destruct (iloc_last (rolling_mean 5 (volumes hist)))
    as [vol_5 ->]; [rewrite length_rolling_mean; lia |].
  destruct (iloc_last (rolling_mean 20 (volumes hist)))
    as [vol_20 ->]; [rewrite length_rolling_mean; lia |].
  cbn [mbind py_bind].
  destruct (pullback_pct_returns current_price
              (series_max (last_n 60 (closes hist)))) as [pullback_pct ->].
  cbn [mbind py_bind].
  set (bb := compute_bollinger_bands (closes hist) 20 (Fin 2)).
  assert (bb = (bb.1.1, bb.1.2, lower_band_of hist)) as -> by reflexivity.
  destruct (bounce_loop_run cfg (closes hist) (volumes hist) rsi_series
              (lower_band_of hist) (seq 0 5) (Fin 0, no_bounce 0) Hcfg)
    as (days & Hdays & ->).
  { apply Forall_forall. intros o Ho. apply elem_of_seq in Ho. lia. }
  cbn [mbind py_bind].
  destruct Hcfg as (_ & _ & _ & _ & _ & ->).
  destruct (foldl pick (Fin 0, no_bounce 0) (scored <$> days))
    as [bounce_score bounce_details] eqn:Hbest.
  eexists _, rsi_series, days. split; [reflexivity |].
  split; [reflexivity |]. split; [exact Hdays |].
  rewrite Hbest. repeat split.
Qed.

End BounceLoop.

Section BounceScore.
Context `{Libm}.
Local Open Scope float_scope.

(** C8. Under the default threshold values (the five score points and the
    signal minimum are what the result depends on), on every series of at
    least 200 bars the detector returns a report whose bounce_score lies in
    [0,100] and is the maximum (not the sum) of the scores of the five days
    of the lookback, each day's score being the sum of the points of its
    sub-conditions; the reported bounce_details and lookback_day are those
    of the first offset, scanning from 0 upward, that attains the maximum;
    and bounce_signal holds if and only if that maximum is >= 40. *)
Theorem C8_bounce_score_is_first_maximum (cfg : config) (hist : DataFrame) :
  default_scores cfg →
  (200 ≤ length hist)%nat →
  ∃ (report : PullbackReport) (rsi_series : list float)
    (days : list BounceDetails),
    detect_pullback_in_uptrend cfg hist = Ret report
    ∧ compute_rsi (closes hist) 14 = Ret rsi_series
    ∧ length days = 5%nat
    ∧ (∀ offset d,
          days !! offset = Some d →
          bounce_day cfg (closes hist) (volumes hist) rsi_series
            (lower_band_of hist) offset = Ret (Fin (points d), d))
    ∧ ∃ best : nat,
        days !! best = Some (bounce_details report)
        ∧ lookback_day (bounce_details report) = best
        ∧ bounce_score report = Fin (points (bounce_details report))
        ∧ (0 <= points (bounce_details report) <= 100)%Q
        ∧ (∀ offset d,
              days !! offset = Some d →
              (points d <= points (bounce_details report))%Q)
        ∧ (∀ offset d,
              (offset < best)%nat → days !! offset = Some d →
              (points d < points (bounce_details report))%Q)
        ∧ (bounce_signal report = true
           ↔ (40 <= points (bounce_details report))%Q).
Proof.
  intros Hcfg Hlen.
  destruct (detect_pullback_in_uptrend_run cfg hist Hcfg Hlen)
    as (report & rsi_series & days & Hrun & Hrsi & Hdays
        & Hscore & Hdetails & Hsignal).
  assert (length days = 5%nat) as Hfive.
  { apply Forall2_length in Hdays. by rewrite length_seq in Hdays. }
  assert (∀ offset d,
             days !! offset = Some d →
             bounce_day cfg (closes hist) (volumes hist) rsi_series
               (lower_band_of hist) offset = Ret (scored d)
             ∧ lookback_day d = offset) as Hday.
  { intros offset d Hd.
    destruct (Forall2_lookup_r _ _ _ _ _ Hdays Hd) as (o & Ho & Hbd & Hlook).
    apply lookup_seq in Ho as [-> _]. by split. }
  exists report, rsi_series, days.
  do 3 (split; [done |]).
  split; [intros offset d Hd; by apply Hday |].
  rewrite Hscore, Hdetails, Hsignal.
  destruct (foldl_pick 0 (no_bounce 0) days)
    as [[-> Hle] | (k & d & Hk & -> & Hgt & Hmax & Hfirst)].
  - destruct (lookup_lt_is_Some_2 days 0) as [d0 Hd0]; [lia |].
    pose proof (points_zero d0 (Hle _ _ Hd0)) as Hzero.
    destruct (Hday _ _ Hd0) as [_ Hlook]. rewrite Hlook in Hzero.
    subst d0. exists 0%nat. cbn [fst snd].
    split; [exact Hd0 |]. split; [reflexivity |]. split; [reflexivity |].
    split; [apply points_range |]. split; [exact Hle |].
    split; [intros; lia |].
    split; [discriminate |]. intros Hforty. exfalso.
    change (points (no_bounce 0)) with (0 + 0 + 0 + 0 + 0)%Q in Hforty. lra.
  - exists k. cbn [fst snd scored].
    destruct (Hday _ _ Hk) as [_ Hlook].
    split; [exact Hk |]. split; [exact Hlook |].
    split; [apply py_round_points |].
    split; [apply points_range |]. split; [exact Hmax |].
    split; [exact Hfirst |].
    cbn [fle]. apply Qle_bool_iff.
Qed.

End BounceScore.

Import SeriesExamples.

(** Two hundred bars and an empty configuration. *)
Lemma C8_bounce_score_is_first_maximum_witness :
  default_scores ∅
  ∧ (200 ≤ length (bars 200))%nat
  ∧ ∃ (report : PullbackReport) (best : nat),
      @detect_pullback_in_uptrend approx_libm ∅ (bars 200) = Ret report
      ∧ lookback_day (bounce_details report) = best
      ∧ bounce_score report = Fin (points (bounce_details report))
      ∧ (0 <= points (bounce_details report) <= 100)%Q.
Proof.
  assert (default_scores ∅) as Hcfg by (repeat split; reflexivity).
  assert (200 ≤ length (bars 200))%nat as Hlen
      by (unfold bars; rewrite length_map, length_seq; lia).
  split; [exact Hcfg |]. split; [exact Hlen |].
  destruct (@C8_bounce_score_is_first_maximum approx_libm ∅ (bars 200)
              Hcfg Hlen)
    as (report & _ & _ & Hrun & _ & _ & _
        & best & _ & Hlook & Hscore & Hrange & _).
  exists report, best.
  exact (conj Hrun (conj Hlook (conj Hscore Hrange))).
Defined.

(** * Further properties of the Sharpe framework *)

Section OrchestratorInvariants.
Context `{Libm}.
Local Open Scope float_scope.

Lemma count_conditions_passed_flags
    (d : dict) (th : gmap string float)
    (count : Z) (details : condition_details_t) :
  count_conditions_passed d th = Ret (count, details) →
  count
  = count_true [low_volatility details; undervalued details;
                financial_stability details; eps_growth_ok details]
  ∧ catalyst details = None
  ∧ low_volatility details
    = check_low_volatility (get d "hv30")
        (th_get th "hv_threshold" (Fin 0.25)).
Proof.
  unfold count_conditions_passed.
  destruct (check_financial_stability _ _ _ _ _ _) as [c3 |];
    [| discriminate].
  cbn [mbind py_bind]. intros [= <- <-]. repeat split.
Qed.

Lemma multiplier_cases (count : Z) (m : float) :
  (0 ≤ count ≤ 4)%Z →
  calculate_condition_multiplier count = Some m →
  (3 ≤ count ≤ 4)%Z ∧ m = if (count =? 4)%Z then Fin 1 else Fin 0.8.
Proof.
  intros Hrange. unfold calculate_condition_multiplier.
  destruct (4 <=? count)%Z eqn:H4.
  - apply Z.leb_le in H4. intros [= <-].
    assert (count = 4%Z) as -> by lia. by split.
  - destruct (count =? 3)%Z eqn:H3; [| discriminate].
    apply Z.eqb_eq in H3 as ->. intros [= <-]. by split.
Qed.


(** X2. In every result raw_sr, adjusted_sr and final_score are present or
    absent together: they are present exactly when hv30 is present and not
    <= 0. *)
Theorem X2_scores_absent_together
    (σ : heap) (stock_detail : loc) (d : dict)
    (thresholds : gmap string float) (rf : float) (r : SharpeResult) :
  σ !! stock_detail = Some d →
  (compute_full_sharpe_score σ stock_detail thresholds rf).1 = Ret (Some r) →
  let usable := ∃ h, hv30 r = Some h ∧ (h <=? Fin 0) = false in
  (is_Some (raw_sr r) ↔ usable)
  ∧ (is_Some (adjusted_sr r) ↔ usable)
  ∧ (is_Some (final_score r) ↔ usable).
Proof.
  intros Hl Hres usable. subst usable.
  destruct (compute_full_sharpe_score_run σ stock_detail d thresholds rf Hl)
    as (count & details & _ & Hrun).
  rewrite Hrun in Hres. cbn [fst] in Hres.
  destruct (calculate_condition_multiplier count) as [m |]; [| discriminate].
  injection Hres as <-.
  cbn [raw_sr adjusted_sr final_score hv30 result_of].
  unfold final_score_of, adjusted_sr_of, raw_sr_opt.
  destruct (calculate_hv (history d) 30) as [h |].
  - destruct (h <=? Fin 0) eqn:Hh.
    + repeat split; try (intros [? [=]]);
        intros (h' & [= <-] & Hh'); congruence.
    + repeat split; try (intros _; by exists h); intros _; by eexists.
  - repeat split; try (intros [? [=]]); intros (h' & [=] & _).
Qed.

End OrchestratorInvariants.

Lemma X2_scores_absent_together_witness :
  [three_pass] !! 0%nat = Some three_pass
  ∧ ∃ r : SharpeResult,
      (@compute_full_sharpe_score approx_libm [three_pass] 0 ∅ DEFAULT_RF).1
      = Ret (Some r)
      ∧ (is_Some (final_score r)
         ↔ ∃ h, hv30 r = Some h ∧ (h <=? Fin 0)%F = false).
Proof.
  split; [reflexivity |]. eexists. split; [reflexivity |].
  exact (proj2 (proj2 (@X2_scores_absent_together approx_libm
                         [three_pass] 0%nat three_pass ∅ DEFAULT_RF _
                         eq_refl eq_refl))).
Defined.


Section SnapshotReads.
Context `{Libm}.
Local Open Scope float_scope.

Lemma get_with_field_eq (d : dict) (key : string) (v : option float) :
  get (with_field d key v) key = v.
Proof. unfold get, with_field. cbn. by rewrite lookup_insert_eq. Qed.

Lemma get_with_field_ne (d : dict) (key key' : string) (v : option float) :
  key ≠ key' → get (with_field d key v) key' = get d key'.
Proof.
  intros Hne. unfold get, with_field. cbn. by rewrite lookup_insert_ne.
Qed.

Lemma with_field_twice (d : dict) (key : string) (v w : option float) :
  with_field (with_field d key v) key w = with_field d key w.
Proof. unfold with_field. cbn. by rewrite insert_insert_eq. Qed.

(** X3. A snapshot with fewer than 31 prices (or none) has no volatility
    figure: in every result hv30, hv90, both sub-volatilities and the three
    scores are absent and the low-volatility condition is false, so the
    result exists only with exactly the other three conditions passed and
    carries the multiplier 0.8; the expected return is still computed from
    the fundamentals. *)
Theorem X3_short_history
    (σ : heap) (stock_detail : loc) (d : dict)
    (thresholds : gmap string float) (rf : float) (r : SharpeResult) :
  σ !! stock_detail = Some d →
  (length (history d) < 31)%nat →
  (compute_full_sharpe_score σ stock_detail thresholds rf).1 = Ret (Some r) →
  hv30 r = None ∧ hv90 r = None
  ∧ upside_vol r = None ∧ downside_vol r = None
  ∧ raw_sr r = None ∧ adjusted_sr r = None ∧ final_score r = None
  ∧ low_volatility (condition_details r) = false
  ∧ conditions_passed r = 3%Z
  ∧ condition_multiplier r = Fin 0.8
  ∧ expected_return r = capped_expected_return d.
Proof.
  intros Hl Hshort Hres.
  destruct (compute_full_sharpe_score_run σ stock_detail d thresholds rf Hl)
    as (count & details & Hcount & Hrun).
  destruct (count_conditions_passed_total (snapshot_with_hv d) thresholds)
    as (count' & details' & Hcount' & Hrange & _).
  rewrite Hcount in Hcount'. injection Hcount' as <- <-.
  destruct (count_conditions_passed_flags _ _ _ _ Hcount)
    as (Hflags & _ & Hlow).
  rewrite Hrun in Hres. cbn [fst] in Hres.
  destruct (calculate_condition_multiplier count) as [m |] eqn:Hm;
    [| discriminate].
  injection Hres as <-.
  destruct (multiplier_cases count m Hrange Hm) as [H34 Hmult].
  assert (calculate_hv (history d) 30 = None) as H30.
  { unfold calculate_hv.
    assert ((length (history d) <? 30 + 1)%nat = true) as ->
        by (apply Nat.ltb_lt; lia). reflexivity. }
  assert (calculate_hv (history d) 90 = None) as H90.
  { unfold calculate_hv.
    assert ((length (history d) <? 90 + 1)%nat = true) as ->
        by (apply Nat.ltb_lt; lia). reflexivity. }
  assert (calculate_upside_downside_vol (history d) 30 = (None, None)) as Hud.
  { unfold calculate_upside_downside_vol.
    assert ((length (history d) <? 30 + 1)%nat = true) as ->
        by (apply Nat.ltb_lt; lia). reflexivity. }
  assert (low_volatility details = false) as Hlow'.
  { rewrite Hlow. unfold snapshot_with_hv.
    by rewrite get_with_field_eq, H30. }
  assert (count = 3%Z) as ->.
  { rewrite Hflags, Hlow' in H34 |- *. revert H34. unfold count_true.
    destruct (undervalued details), (financial_stability details),
      (eps_growth_ok details); cbn; lia. }
  cbn [hv30 hv90 upside_vol downside_vol raw_sr adjusted_sr final_score
       condition_details conditions_passed condition_multiplier
       expected_return result_of].
  rewrite H30, H90, Hud. cbn [fst snd]. subst m. by repeat split.
Qed.

(** X4. A hv30 entry supplied in the snapshot is never used: the
    orchestrator overrides it with the volatility it computes, so two
    snapshots that differ only in their hv30 entry have the same outcome. *)
Theorem X4_supplied_hv30_is_ignored
    (σ σ' : heap) (l l' : loc) (d : dict) (v : option float)
    (thresholds : gmap string float) (rf : float) :
  σ !! l = Some d →
  σ' !! l' = Some (with_field d "hv30" v) →
  (compute_full_sharpe_score σ' l' thresholds rf).1
  = (compute_full_sharpe_score σ l thresholds rf).1.
Proof.
  intros Hl Hl'.
  destruct (compute_full_sharpe_score_run σ l d thresholds rf Hl)
    as (count & details & Hcount & ->).
  destruct (compute_full_sharpe_score_run σ' l' _ thresholds rf Hl')
    as (count' & details' & Hcount' & ->).
  cbn [fst].
  assert (snapshot_with_hv (with_field d "hv30" v) = snapshot_with_hv d)
    as Hsnap by apply with_field_twice.
  rewrite Hsnap, Hcount in Hcount'. injection Hcount' as <- <-.
  destruct (calculate_condition_multiplier count) as [m |]; [| reflexivity].
  do 2 f_equal. unfold result_of, capped_expected_return, fcf_yield_of.
  change (history (with_field d "hv30" v)) with (history d).
  by rewrite !get_with_field_ne.
Qed.

End SnapshotReads.

Lemma X3_short_history_witness :
  [three_pass] !! 0%nat = Some three_pass
  ∧ (length (history three_pass) < 31)%nat
  ∧ ∃ r : SharpeResult,
      (@compute_full_sharpe_score approx_libm [three_pass] 0 ∅ DEFAULT_RF).1
      = Ret (Some r)
      ∧ final_score r = None
      ∧ condition_multiplier r = Fin 0.8.
Proof.
  assert (length (history three_pass) < 31)%nat as Hshort by (cbn; lia).
  split; [reflexivity |]. split; [exact Hshort |].
  eexists. split; [reflexivity |].
  match goal with
  | |- final_score ?r = _ ∧ _ =>
      assert ((@compute_full_sharpe_score approx_libm [three_pass] 0 ∅
                 DEFAULT_RF).1 = Ret (Some r)) as Hres by reflexivity;
      destruct (@X3_short_history approx_libm [three_pass] 0%nat three_pass ∅
                  DEFAULT_RF r eq_refl Hshort Hres)
        as (_ & _ & _ & _ & _ & _ & Hfinal & _ & _ & Hmult & _)
  end.
  exact (conj Hfinal Hmult).
Defined.

Lemma X4_supplied_hv30_is_ignored_witness :
  [three_pass] !! 0%nat = Some three_pass
  ∧ [with_field three_pass "hv30" (Some (Fin 0.1))] !! 0%nat
    = Some (with_field three_pass "hv30" (Some (Fin 0.1)))
  ∧ (@compute_full_sharpe_score approx_libm
       [with_field three_pass "hv30" (Some (Fin 0.1))] 0 ∅ DEFAULT_RF).1
    = (@compute_full_sharpe_score approx_libm [three_pass] 0 ∅ DEFAULT_RF).1.
Proof.
  split; [reflexivity |]. split; [reflexivity |].
  exact (@X4_supplied_hv30_is_ignored approx_libm
           [three_pass] [with_field three_pass "hv30" (Some (Fin 0.1))]
           0%nat 0%nat three_pass (Some (Fin 0.1)) ∅ DEFAULT_RF
           eq_refl eq_refl).
Defined.

Section ThresholdKeys.
Context `{Libm}.
Local Open Scope float_scope.

Lemma th_get_insert_ne (th : gmap string float) (key key' : string)
    (v dflt : float) :
  key ≠ key' → th_get (<[key := v]> th) key' dflt = th_get th key' dflt.
Proof. intros Hne. unfold th_get. by rewrite lookup_insert_ne. Qed.

Lemma count_conditions_passed_other_key
    (d : dict) (th : gmap string float) (key : string) (v : float) :
  key ≠ "hv_threshold" → key ≠ "per_max" → key ≠ "pbr_max" →
  count_conditions_passed d (<[key := v]> th) = count_conditions_passed d th.
Proof.
  intros Hhv Hper Hpbr. unfold count_conditions_passed.
  by rewrite !th_get_insert_ne.
Qed.

(** X9. The condition engine reads exactly three threshold keys,
    hv_threshold, per_max and pbr_max; any other key, hv30_max included, has
    no effect on the condition count nor on the orchestrator's outcome.  The
    volatility limit is the value under hv_threshold, 0.25 when that key is
    missing. *)
Theorem X9_only_three_threshold_keys
    (σ : heap) (stock_detail : loc) (d : dict)
    (thresholds : gmap string float) (rf : float)
    (key : string) (v : float) :
  σ !! stock_detail = Some d →
  key ≠ "hv_threshold" → key ≠ "per_max" → key ≠ "pbr_max" →
  count_conditions_passed d (<[key := v]> thresholds)
  = count_conditions_passed d thresholds
  ∧ (compute_full_sharpe_score σ stock_detail (<[key := v]> thresholds) rf).1
    = (compute_full_sharpe_score σ stock_detail thresholds rf).1
  ∧ ∀ count details,
      count_conditions_passed d thresholds = Ret (count, details) →
      low_volatility details
      = match get d "hv30" with
        | Some hv => hv <? default (Fin 0.25) (thresholds !! "hv_threshold")
        | None => false
        end.
Proof.
  intros Hl Hhv Hper Hpbr.
  split; [by apply count_conditions_passed_other_key |]. split.
  - destruct (compute_full_sharpe_score_run σ stock_detail d thresholds rf Hl)
      as (count & details & Hcount & ->).
    destruct (compute_full_sharpe_score_run σ stock_detail d
                (<[key := v]> thresholds) rf Hl)
      as (count' & details' & Hcount' & ->).
    rewrite count_conditions_passed_other_key in Hcount' by done.
    rewrite Hcount in Hcount'. by injection Hcount' as <- <-.
  - intros count details Hcount.
    by destruct (count_conditions_passed_flags _ _ _ _ Hcount)
      as (_ & _ & ->).
Qed.

(** X10. Whether an instrument is excluded does not depend on the
    risk-free rate: for two rates the orchestrator returns absent for both
    or results for both, and the two results agree on the volatilities, the
    expected return, the condition count and details and the multiplier. *)
Theorem X10_exclusion_independent_of_rf
    (σ : heap) (stock_detail : loc) (d : dict)
    (thresholds : gmap string float) (rf1 rf2 : float) :
  σ !! stock_detail = Some d →
  match (compute_full_sharpe_score σ stock_detail thresholds rf1).1,
        (compute_full_sharpe_score σ stock_detail thresholds rf2).1 with
  | Ret None, Ret None => True
  | Ret (Some r1), Ret (Some r2) =>
      hv30 r1 = hv30 r2 ∧ hv90 r1 = hv90 r2
      ∧ upside_vol r1 = upside_vol r2 ∧ downside_vol r1 = downside_vol r2
      ∧ expected_return r1 = expected_return r2
      ∧ fcf_yield r1 = fcf_yield r2
      ∧ conditions_passed r1 = conditions_passed r2
      ∧ condition_details r1 = condition_details r2
      ∧ condition_multiplier r1 = condition_multiplier r2
  | _, _ => False
  end.
Proof.
  intros Hl.
  destruct (compute_full_sharpe_score_run σ stock_detail d thresholds rf1 Hl)
    as (count & details & Hcount & ->).
  destruct (compute_full_sharpe_score_run σ stock_detail d thresholds rf2 Hl)
    as (count' & details' & Hcount' & ->).
  rewrite Hcount in Hcount'. injection Hcount' as <- <-. cbn [fst].
  destruct (calculate_condition_multiplier count); [| done].
  by repeat split.
Qed.

End ThresholdKeys.

Lemma X9_only_three_threshold_keys_witness :
  [three_pass] !! 0%nat = Some three_pass
  ∧ (@compute_full_sharpe_score approx_libm [three_pass] 0
       (<["hv30_max" := Fin 0.25]> ∅) DEFAULT_RF).1
    = (@compute_full_sharpe_score approx_libm [three_pass] 0 ∅ DEFAULT_RF).1.
Proof.
  split; [reflexivity |].
  assert ("hv30_max" ≠ "hv_threshold") as H1 by discriminate.
  assert ("hv30_max" ≠ "per_max") as H2 by discriminate.
  assert ("hv30_max" ≠ "pbr_max") as H3 by discriminate.
  exact (proj1 (proj2 (@X9_only_three_threshold_keys approx_libm
                         [three_pass] 0%nat three_pass ∅ DEFAULT_RF
                         "hv30_max" (Fin 0.25) eq_refl H1 H2 H3))).
Defined.

Lemma X10_exclusion_independent_of_rf_witness :
  [three_pass] !! 0%nat = Some three_pass
  ∧ ∃ r1 r2 : SharpeResult,
      (@compute_full_sharpe_score approx_libm [three_pass] 0 ∅ (Fin 0.005)).1
      = Ret (Some r1)
      ∧ (@compute_full_sharpe_score approx_libm [three_pass] 0 ∅ (Fin 0.02)).1
        = Ret (Some r2)
      ∧ conditions_passed r1 = conditions_passed r2.
Proof.
  split; [reflexivity |].
  eexists _, _. split; [reflexivity |]. split; [reflexivity |].
  pose proof (@X10_exclusion_independent_of_rf approx_libm
                [three_pass] 0%nat three_pass ∅ (Fin 0.005) (Fin 0.02)
                eq_refl) as Hboth.
  vm_compute in Hboth.
  destruct Hboth as (_ & _ & _ & _ & _ & _ & Hc & _). exact Hc.
Defined.

(** ** Windows of the price history *)

Section Windows.
Context `{Libm}.
Local Open Scope float_scope.

Lemma last_n_app_exact {A} (old recent : list A) :
  last_n (length recent) (old ++ recent) = recent.
Proof.
  unfold last_n. rewrite length_app.
  replace (length old + length recent - length recent)%nat
    with (length old) by lia.
  by rewrite drop_app_length.
Qed.

Lemma last_n_exact {A} (l : list A) : last_n (length l) l = l.
Proof. unfold last_n. by rewrite Nat.sub_diag. Qed.

Lemma last_n_shorter {A} (n m : nat) (l : list A) :
  (n ≤ m)%nat → last_n n l `suffix_of` last_n m l.
Proof.
  intros Hnm. unfold last_n.
  replace (length l - n)%nat
    with ((length l - m) + ((length l - n) - (length l - m)))%nat by lia.
  rewrite <- drop_drop. apply suffix_drop.
Qed.

(** X5. Only the most recent window + 1 prices matter: on a history whose
    last window + 1 prices are [recent], the volatility and the two
    sub-volatilities are those of [recent] alone, whatever came before. *)
Theorem X5_older_prices_are_ignored
    (old recent : list float) (window : nat) :
  length recent = (window + 1)%nat →
  calculate_hv (old ++ recent) window = calculate_hv recent window
  ∧ calculate_upside_downside_vol (old ++ recent) window
    = calculate_upside_downside_vol recent window.
Proof.
  intros Hlen. unfold calculate_hv, calculate_upside_downside_vol.
  rewrite <- Hlen, last_n_app_exact, last_n_exact, length_app.
  assert ((length old + length recent <? length recent)%nat = false) as ->
      by (apply Nat.ltb_ge; lia).
  by rewrite Nat.ltb_irrefl.
Qed.

(** X6. A volatility over a longer window is available only if the one
    over a shorter window is: whenever the volatility over [w2] is present,
    the one over any [w1 <= w2] is present too (the orchestrator's hv90 and
    hv30 are the windows 90 and 30). *)
Theorem X6_longer_window_needs_more
    (prices : list float) (w1 w2 : nat) (x : float) :
  (w1 ≤ w2)%nat →
  calculate_hv prices w2 = Some x →
  is_Some (calculate_hv prices w1).
Proof.
  intros Hw. unfold calculate_hv.
  destruct (length prices <? w2 + 1)%nat eqn:Hlen2; [discriminate |].
  apply Nat.ltb_ge in Hlen2.
  destruct (existsb _ (last_n (w2 + 1) prices)) eqn:Hex2; [discriminate |].
  intros _.
  assert ((length prices <? w1 + 1)%nat = false) as ->
      by (apply Nat.ltb_ge; lia).
  destruct (existsb _ (last_n (w1 + 1) prices)) eqn:Hex1; [| by eexists].
  exfalso. apply existsb_elem_of in Hex1 as (p & Hp & Hbad).
  assert (existsb (λ p, p <=? Fin 0) (last_n (w2 + 1) prices) = true)
    as Hex2'; [| congruence].
  apply existsb_elem_of. exists p. split; [| exact Hbad].
  eapply elem_of_suffix; [exact Hp |].
  apply last_n_shorter. lia.
Qed.

End Windows.

Lemma X5_older_prices_are_ignored_witness :
  length [Fin 100; Fin 110; Fin 121] = (2 + 1)%nat
  ∧ @calculate_hv approx_libm ([Fin 90; Fin 95] ++ [Fin 100; Fin 110; Fin 121]) 2
    = @calculate_hv approx_libm [Fin 100; Fin 110; Fin 121] 2.
Proof.
  split; [reflexivity |].
  exact (proj1 (@X5_older_prices_are_ignored approx_libm
                  [Fin 90; Fin 95] [Fin 100; Fin 110; Fin 121] 2 eq_refl)).
Defined.

Lemma X6_longer_window_needs_more_witness :
  (2 ≤ 4)%nat
  ∧ is_Some (@calculate_hv approx_libm
               [Fin 100; Fin 110; Fin 121; Fin 110; Fin 100] 4)
  ∧ is_Some (@calculate_hv approx_libm
               [Fin 100; Fin 110; Fin 121; Fin 110; Fin 100] 2).
Proof.
  assert (2 ≤ 4)%nat as Hw by lia.
  split; [exact Hw |]. split; [by eexists |].
  eapply (@X6_longer_window_needs_more approx_libm _ 2 4 _ Hw).
  reflexivity.
Defined.

(** ** Neutral factors and the cap on the asymmetry *)

Section Adjustments.
Context `{Libm}.
Local Open Scope float_scope.

Lemma feqv_refl (x : float) : feqv x x.
Proof. destruct x; cbn; [reflexivity | done ..]. Qed.

Lemma fmul_one_r (x : float) : feqv (x * Fin 1) x.
Proof. destruct x as [q | | |]; cbn; [ring | done ..]. Qed.

(** X7. With nothing to adjust with, the adjusted ratio is the raw one: in
    every result where hv90 is absent and one of the two sub-volatilities
    is absent, adjusted_sr has the value of raw_sr (both factors are the
    neutral 1.0); and with all four conditions passed final_score has the
    value of adjusted_sr. *)
Theorem X7_neutral_factors
    (σ : heap) (stock_detail : loc) (d : dict)
    (thresholds : gmap string float) (rf : float) (r : SharpeResult) :
  σ !! stock_detail = Some d →
  (compute_full_sharpe_score σ stock_detail thresholds rf).1 = Ret (Some r) →
  (hv90 r = None →
   upside_vol r = None ∨ downside_vol r = None →
   opt_feqv (adjusted_sr r) (raw_sr r))
  ∧ (conditions_passed r = 4%Z → opt_feqv (final_score r) (adjusted_sr r)).
Proof.
  intros Hl Hres.
  destruct (compute_full_sharpe_score_run σ stock_detail d thresholds rf Hl)
    as (count & details & Hcount & Hrun).
  destruct (count_conditions_passed_total (snapshot_with_hv d) thresholds)
    as (count' & details' & Hcount' & Hrange & _).
  rewrite Hcount in Hcount'. injection Hcount' as <- <-.
  rewrite Hrun in Hres. cbn [fst] in Hres.
  destruct (calculate_condition_multiplier count) as [m |] eqn:Hm;
    [| discriminate].
  destruct (multiplier_cases count m Hrange Hm) as [_ Hmult].
  injection Hres as <-.
  cbn [hv90 upside_vol downside_vol adjusted_sr raw_sr final_score
       conditions_passed result_of].
  split.
  - intros -> Hvols.
    unfold adjusted_sr_of, raw_sr_opt.
    destruct (calculate_hv (history d) 30) as [h |]; [| done].
    destruct (h <=? Fin 0); [done |].
    assert (asymmetry_of (calculate_upside_downside_vol (history d) 30).1
              (calculate_upside_downside_vol (history d) 30).2 = Fin 1)
      as ->.
    { unfold asymmetry_of. destruct Hvols as [-> | ->]; [done |].
      by destruct (calculate_upside_downside_vol (history d) 30).1. }
    cbn [opt_feqv vol_trend_of].
    generalize (raw_sr_of (capped_expected_return d) rf h). intros raw.
    destruct raw as [q | | |]; cbn; [ring | done ..].
  - intros ->. subst m. cbn [Z.eqb Pos.eqb].
    unfold final_score_of.
    destruct (adjusted_sr_of _ _ _ _ _ _) as [a |]; [| done].
    apply fmul_one_r.
Qed.

Lemma asymmetry_range (u : option Q) (d : option float) :
  (∀ x, u = Some x → 0 <= x)%Q →
  ∃ m : Q, asymmetry_of (Fin <$> u) d = Fin m ∧ (0 <= m <= 2)%Q.
Proof.
  intros Hu. unfold asymmetry_of.
  destruct u as [x |], d as [d |]; cbn [fmap option_fmap option_map];
    try (exists 1%Q; split; [reflexivity | lra]).
  specialize (Hu x eq_refl).
  destruct d as [y | | |]; cbn [flt];
    try (exists 1%Q; split; [reflexivity | lra]).
  - destruct (Qlt_bool 0 y) eqn:Hy; qprop;
      [| exists 1%Q; split; [reflexivity | lra]].
    cbn [fdiv].
    assert (Qeq_bool y 0 = false) as -> by (apply Qeq_bool_false; lra).
    assert (0 <= x / y)%Q as Hratio.
    { apply Qle_shift_div_l; [exact Hy | lra]. }
    unfold py_min. cbn [flt].
    destruct (Qlt_bool 2 (x / y)) eqn:Hcap; qprop.
    + exists 2%Q. split; [reflexivity | lra].
    + exists (x / y)%Q. split; [reflexivity | lra].
  - exists 0%Q. split; [reflexivity | lra].
Qed.

(** X8. The asymmetry factor is capped: whenever the volatility is usable
    and the upside volatility, when present, is finite and not negative,
    the adjusted ratio is raw_sr * vol_trend times a factor between 0 and
    2, whatever the downside volatility is (absent, zero, negative, NaN or
    infinite). *)
Theorem X8_asymmetry_at_most_doubles
    (expected_return rf hv30 : float) (hv90 : option float)
    (upside_vol : option Q) (downside_vol : option float) :
  (hv30 <=? Fin 0) = false →
  (∀ u, upside_vol = Some u → 0 <= u)%Q →
  ∃ m : Q,
    (0 <= m <= 2)%Q
    ∧ calculate_adjusted_sr expected_return rf (Some hv30) hv90
        (Fin <$> upside_vol) downside_vol
      = Ret (Some (raw_sr_of expected_return rf hv30
                   * vol_trend_of hv90 hv30
                   * Fin m)).
Proof.
  intros Hh Hu.
  rewrite (calculate_adjusted_sr_present _ _ _ _ _ _ Hh).
  destruct (asymmetry_range upside_vol downside_vol Hu) as (m & -> & Hm).
  by exists m.
Qed.

End Adjustments.

Lemma X7_neutral_factors_witness :
  [ScreenerExamples.calm_detail] !! 0%nat = Some ScreenerExamples.calm_detail
  ∧ ∃ (r : SharpeResult) (a : float),
      (@compute_full_sharpe_score ScreenerExamples.first_order_libm
         [ScreenerExamples.calm_detail] 0 ∅ DEFAULT_RF).1 = Ret (Some r)
      ∧ hv90 r = None
      ∧ upside_vol r = None
      ∧ conditions_passed r = 4%Z
      ∧ raw_sr r = Some a
      ∧ opt_feqv (adjusted_sr r) (raw_sr r)
      ∧ opt_feqv (final_score r) (adjusted_sr r).
Proof.
  split; [reflexivity |]. eexists _, _.
  split; [vm_compute; reflexivity |].
  split; [reflexivity |]. split; [reflexivity |]. split; [reflexivity |].
  split; [reflexivity |].
  match goal with
  | |- opt_feqv (adjusted_sr ?r) _ ∧ _ =>
      assert ((@compute_full_sharpe_score ScreenerExamples.first_order_libm
                 [ScreenerExamples.calm_detail] 0 ∅ DEFAULT_RF).1
              = Ret (Some r)) as Hres by (vm_compute; reflexivity);
      destruct (@X7_neutral_factors ScreenerExamples.first_order_libm
                  [ScreenerExamples.calm_detail] 0%nat
                  ScreenerExamples.calm_detail ∅ DEFAULT_RF r eq_refl Hres)
        as [Hneutral Hfull]
  end.
  split; [apply Hneutral; [reflexivity | by left] | apply Hfull; reflexivity].
Defined.

Lemma X8_asymmetry_at_most_doubles_witness :
  (Fin 0.2 <=? Fin 0)%F = false
  ∧ ∃ m : Q,
      (0 <= m <= 2)%Q
      ∧ calculate_adjusted_sr (Fin 0.1) (Fin 0.005) (Some (Fin 0.2))
          (Some (Fin 0.25)) (Some (Fin 0.3)) (Some (Fin 0.1))
        = Ret (Some (raw_sr_of (Fin 0.1) (Fin 0.005) (Fin 0.2)
                     * vol_trend_of (Some (Fin 0.25)) (Fin 0.2)
                     * Fin m)%F).
Proof.
  assert ((Fin 0.2 <=? Fin 0)%F = false) as Hh by reflexivity.
  assert (∀ u, Some 0.3%Q = Some u → 0 <= u)%Q as Hu
      by (intros u [= <-]; discriminate).
  split; [exact Hh |].
  exact (X8_asymmetry_at_most_doubles (Fin 0.1) (Fin 0.005) (Fin 0.2)
           (Some (Fin 0.25)) (Some 0.3%Q) (Some (Fin 0.1)) Hh Hu).
Defined.

(** * Further properties of the pullback detector *)

Section DetectorRuns.
Context `{Libm}.
Local Open Scope float_scope.

(** A day of the lookback returns for every configuration. *)
Lemma bounce_day_returns (cfg : config)
    (close volume rsi_series lower_band : list float) (offset : nat) :
  (offset + 1 ≤ length close)%nat →
  (offset + 1 ≤ length rsi_series)%nat →
  ∃ day, bounce_day cfg close volume rsi_series lower_band offset = Ret day.
Proof.
  intros Hclose Hrsi. unfold bounce_day. cbv beta zeta.
  replace (-1 - Z.of_nat offset - 1)%Z with (- Z.of_nat (S (S offset)))%Z
    by lia.
  replace (-1 - Z.of_nat offset)%Z with (- Z.of_nat (S offset))%Z by lia.
  destruct (iloc_from_end rsi_series (S offset)) as (day_rsi & -> & _);
    [lia |].
  destruct (guarded_iloc rsi_series (S (S offset))) as (day_prev_rsi & ->);
    [lia |].
  destruct (iloc_from_end close (S offset)) as (day_close & -> & _); [lia |].
  destruct (guarded_iloc close (S (S offset))) as (day_prev_close & ->);
    [lia |].
  destruct (guarded_lower_band lower_band (S offset)) as (day_lower & ->);
    [lia |].
  cbn [mbind py_bind]. by eexists.
Qed.

(** The loop returns for every configuration and all series: it breaks
    before an index could be out of range. *)
Lemma bounce_loop_returns (cfg : config)
    (close volume rsi_series lower_band : list float)
    (offsets : list nat) (best : float * BounceDetails) :
  ∃ r,
    bounce_loop cfg close volume rsi_series lower_band offsets best = Ret r.
Proof.
  revert best. induction offsets as [| o offsets IH]; intros best.
  { by eexists. }
  cbn [bounce_loop].
  destruct (Z.of_nat (length close) <=? Z.abs (-1 - Z.of_nat o))%Z eqn:Hc;
    [by eexists |].
  destruct (Z.of_nat (length rsi_series) <=? Z.abs (-1 - Z.of_nat o))%Z
    eqn:Hr; [by eexists |].
  cbn [orb]. apply Z.leb_gt in Hc, Hr.
  destruct (bounce_day_returns cfg close volume rsi_series lower_band o)
    as [day ->]; [lia | lia |].
  cbn [mbind py_bind]. apply IH.
Qed.

Lemma window_at_last (window : nat) (s : list float) :
  (window ≤ length s)%nat →
  window_at window (length s - 1) s = last_n window s.
Proof.
  intros Hw. unfold window_at, last_n.
  destruct (decide (window = 0%nat)) as [-> | Hpos].
  - rewrite take_0, Nat.sub_0_r. symmetry. apply drop_all.
  - replace (length s - 1 + 1 - window)%nat with (length s - window)%nat
      by lia.
    apply take_ge. rewrite length_drop. lia.
Qed.

Lemma lookup_map_seq {B} (f : nat → B) (n i : nat) :
  (i < n)%nat → map f (seq 0 n) !! i = Some (f i).
Proof.
  intros Hi. change (map f (seq 0 n)) with (f <$> seq 0 n).
  rewrite list_lookup_fmap, lookup_seq_lt by lia. reflexivity.
Qed.

Lemma rolling_mean_lookup (window : nat) (s : list float) (i : nat) :
  (i < length s)%nat →
  rolling_mean window s !! i
  = Some (if (i + 1 <? window)%nat then NaN
          else np_mean (window_at window i (prep_values s))).
Proof. intros Hi. unfold rolling_mean. by rewrite lookup_map_seq. Qed.

Lemma rolling_std_lookup (window : nat) (s : list float) (i : nat) :
  (i < length s)%nat →
  rolling_std window s !! i
  = Some (if (i + 1 <? window)%nat then NaN
          else np_std_ddof1 (window_at window i (prep_values s))).
Proof. intros Hi. unfold rolling_std. by rewrite lookup_map_seq. Qed.

(** The last value of a rolling mean is the mean of the last [window]
    values, the infinities replaced by NaN. *)
Lemma iloc_rolling_mean_last (window : nat) (s : list float) :
  (1 ≤ window ≤ length s)%nat →
  iloc (rolling_mean window s) (-1)
  = Ret (np_mean (last_n window (prep_values s))).
Proof.
  intros Hw.
  destruct (iloc_from_end (rolling_mean window s) 1) as (x & Hx & Hlook);
    [rewrite length_rolling_mean; lia |].
  change (- Z.of_nat 1)%Z with (-1)%Z in Hx. rewrite Hx. f_equal.
  rewrite length_rolling_mean, rolling_mean_lookup in Hlook by lia.
  injection Hlook as <-.
  assert ((length s - 1 + 1 <? window)%nat = false) as ->
      by (apply Nat.ltb_ge; lia).
  rewrite <- (length_prep_values s).
  by rewrite window_at_last by (rewrite length_prep_values; lia).
Qed.

Lemma iloc_last_is_last (s : list float) (x : float) :
  iloc s (-1) = Ret x → last s = Some x.
Proof.
  intros Hx. destruct s as [| y t]; [discriminate |].
  destruct (iloc_from_end (y :: t) 1) as (x' & Hx' & Hlook);
    [cbn; lia |].
  change (- Z.of_nat 1)%Z with (-1)%Z in Hx'.
  rewrite Hx in Hx'. injection Hx' as <-.
  rewrite last_lookup. rewrite <- Hlook. f_equal. cbn. lia.
Qed.

End DetectorRuns.

Import DetectorSpec.

Section DetectorReport.
Context `{Libm}.
Local Open Scope float_scope.

(** The detector on at least 200 bars, for every configuration: it
    returns, and each field of the report is the rounded figure. *)
Lemma detect_pullback_in_uptrend_report (cfg : config) (hist : DataFrame) :
  (200 ≤ length hist)%nat →
  ∃ (report : PullbackReport) (current : float)
    (best : float * BounceDetails),
    detect_pullback_in_uptrend cfg hist = Ret report
    ∧ last (closes hist) = Some current
    ∧ current_price report = py_round current 2
    ∧ sma50 report = py_round (sma_of 50 hist) 2
    ∧ sma200 report = py_round (sma_of 200 hist) 2
    ∧ recent_high report = py_round (recent_high_of hist) 2
    ∧ pullback_pct report
      = py_round (pullback_of current (recent_high_of hist)) 4
    ∧ volume_ratio report
      = (if negb (isnan (volume_ratio_of hist))
         then py_round (volume_ratio_of hist) 4 else NaN)
    ∧ uptrend report
      = (sma_of 200 hist <? current) && (sma_of 200 hist <? sma_of 50 hist)
    ∧ is_pullback report
      = ((th cfg "technicals" "pullback_min" (Fin (-0.20))
          <=? pullback_of current (recent_high_of hist))
         && (pullback_of current (recent_high_of hist)
             <=? th cfg "technicals" "pullback_max" (Fin (-0.05))))
        && (sma_of 200 hist <? current)
    ∧ bounce_score report = py_round best.1 2
    ∧ bounce_details report = best.2
    ∧ bounce_signal report
      = (th cfg "technicals" "bounce_signal_min" (Fin 40) <=? best.1)
    ∧ all_conditions report
      = uptrend report && is_pullback report && bounce_signal report.
Proof.
  intros Hlen.
  assert (length (closes hist) = length hist) as Hclose
      by apply length_map.
  assert (length (volumes hist) = length hist) as Hvolume
      by apply length_map.
  unfold detect_pullback_in_uptrend.
  fold (closes hist). fold (volumes hist).
  assert ((length (closes hist) <? 200)%nat = false) as ->
      by (apply Nat.ltb_ge; lia).
  destruct (iloc_last (closes hist)) as [current Hcurrent]; [lia |].
  rewrite Hcurrent.
  rewrite !iloc_rolling_mean_last by lia.
  cbn [mbind py_bind].
  destruct (compute_rsi (closes hist) 14) as [rsi_series |] eqn:Hrsi;
    [| by rewrite compute_rsi_returns in Hrsi by lia].
  pose proof (length_compute_rsi _ _ _ Hrsi) as Hlrsi.
  cbn [mbind py_bind].
  destruct (iloc_last rsi_series) as [current_rsi ->]; [lia |].
  cbn [mbind py_bind].
  destruct (iloc_second_last rsi_series) as [prev_rsi ->].
  cbn [mbind py_bind].
  fold (sma_of 50 hist). fold (sma_of 200 hist).
  fold (recent_high_of hist).
  assert ((if Fin 0 <? recent_high_of hist
           then pydiv (current - recent_high_of hist) (recent_high_of hist)
           else Ret (Fin 0))
          = Ret (pullback_of current (recent_high_of hist))) as ->.
  { unfold pullback_of.
    destruct (Fin 0 <? recent_high_of hist) eqn:Hpos; [| reflexivity].
    by rewrite (pydiv_pos _ _ Hpos). }
  cbn [mbind py_bind].
  set (bb := compute_bollinger_bands (closes hist) 20 (Fin 2)).
  assert (bb = (bb.1.1, bb.1.2, lower_band_of hist)) as -> by reflexivity.
  destruct (bounce_loop_returns cfg (closes hist) (volumes hist) rsi_series
              (lower_band_of hist) (seq 0 5) (Fin 0, no_bounce 0))
    as [[bounce_score bounce_details] ->].
  cbn [mbind py_bind].
  eexists _, current, (bounce_score, bounce_details).
  split; [reflexivity |]. split; [by apply iloc_last_is_last |].
  cbn [current_price sma50 sma200 recent_high pullback_pct volume_ratio
       uptrend is_pullback bounce_signal Technicals.bounce_score
       Technicals.bounce_details all_conditions fst snd].
  repeat split.
Qed.

End DetectorReport.

Section DetectorProperties.
Context `{Libm}.
Local Open Scope float_scope.

(** X11. The detector never raises on a well-typed configuration: for
    every configuration whose sections are mappings from keys to numbers
    and every frame, of any length and with any values, it returns a
    report, no index is out of range and no division is by zero; and in the
    report all_conditions is the conjunction of uptrend, is_pullback and
    bounce_signal. *)
Theorem X11_detector_never_raises (cfg : config) (hist : DataFrame) :
  ∃ report : PullbackReport,
    detect_pullback_in_uptrend cfg hist = Ret report
    ∧ all_conditions report
      = uptrend report && is_pullback report && bounce_signal report.
Proof.
  destruct (Nat.lt_ge_cases (length hist) 200) as [Hshort | Hlong].
  - exists default_report. split; [| reflexivity].
    unfold detect_pullback_in_uptrend. rewrite length_map.
    apply Nat.ltb_lt in Hshort. by rewrite Hshort.
  - destruct (detect_pullback_in_uptrend_report cfg hist Hlong)
      as (report & current & best & Hrun & Hrest).
    exists report. split; [exact Hrun |].
    by destruct Hrest as (_ & _ & _ & _ & _ & _ & _ & _ & _ & _ & _ & _ & ?).
Qed.

End DetectorProperties.

(** ** The pullback percentage *)

Section Rounding.
Local Open Scope Q_scope.

Lemma round_half_even_floor (y : Q) :
  round_half_even y = Qfloor y
  ∨ (round_half_even y = (Qfloor y + 1)%Z ∧ inject_Z (Qfloor y) < y).
Proof.
  unfold round_half_even. cbv zeta.
  destruct (y - inject_Z (Qfloor y) ?= 1 # 2) eqn:Hcmp.
  - apply Qeq_alt in Hcmp.
    destruct (Z.even (Qfloor y)); [by left | right].
    split; [reflexivity | lra].
  - by left.
  - apply Qgt_alt in Hcmp. right. split; [reflexivity | lra].
Qed.

Lemma round_half_even_upper (y : Q) (b : Z) :
  y <= inject_Z b → (round_half_even y ≤ b)%Z.
Proof.
  intros Hy. pose proof (Qfloor_le y) as Hfloor.
  destruct (round_half_even_floor y) as [-> | [-> Hlt]].
  - rewrite Zle_Qle. lra.
  - assert (inject_Z (Qfloor y) < inject_Z b) as Hfb by lra.
    rewrite <- Zlt_Qlt in Hfb. lia.
Qed.

Lemma round_half_even_lower (y : Q) (a : Z) :
  inject_Z a <= y → (a ≤ round_half_even y)%Z.
Proof.
  intros Hy.
  assert (a ≤ Qfloor y)%Z as Hfloor.
  { rewrite <- (Qfloor_Z a). by apply Qfloor_resp_le. }
  destruct (round_half_even_floor y) as [-> | [-> _]]; lia.
Qed.

Lemma scale_pos (n : nat) : 0 < inject_Z (10 ^ Z.of_nat n).
Proof.
  rewrite <- (Zlt_Qlt 0). apply Z.pow_pos_nonneg; lia.
Qed.

(** Rounding keeps a value of [-1, 0] in [-1, 0]. *)
Lemma py_round_unit (q : Q) (ndigits : nat) :
  q <= 0 →
  ∃ r : Q,
    py_round (Fin q) ndigits = Fin r
    ∧ r <= 0
    ∧ (-1 <= q → -1 <= r).
Proof.
  intros Hq. unfold py_round. cbv zeta.
  pose proof (scale_pos ndigits) as Hscale.
  set (scale := inject_Z (10 ^ Z.of_nat ndigits)) in *.
  eexists. split; [reflexivity |].
  rewrite Qred_correct.
  assert (q * scale <= inject_Z 0) as Hup.
  { change (inject_Z 0) with 0.
    assert (0 <= (- q) * scale) by (apply Qmult_le_0_compat; lra). lra. }
  apply round_half_even_upper in Hup.
  split.
  - apply Qle_shift_div_r; [exact Hscale |]. rewrite Qmult_0_l.
    rewrite <- (Zle_Qle _ 0). exact Hup.
  - intros Hlow.
    assert (inject_Z (- 10 ^ Z.of_nat ndigits) <= q * scale) as Hdown.
    { rewrite inject_Z_opp. fold scale.
      assert (0 <= (q + 1) * scale) by (apply Qmult_le_0_compat; lra).
      lra. }
    apply round_half_even_lower in Hdown.
    apply Qle_shift_div_l; [exact Hscale |].
    assert (-1 * scale == inject_Z (- 10 ^ Z.of_nat ndigits)) as ->
        by (rewrite inject_Z_opp; fold scale; ring).
    rewrite <- Zle_Qle. exact Hdown.
Qed.

End Rounding.

Section RecentHigh.
Context `{Libm}.
Local Open Scope float_scope.

Lemma dropna_Fin (cs : list Q) : dropna (Fin <$> cs) = Fin <$> cs.
Proof.
  unfold dropna. induction cs as [| c cs IH]; [reflexivity |].
  cbn. by rewrite IH.
Qed.

Lemma foldl_max_Fin (a : Q) (cs : list Q) :
  ∃ m : Q,
    foldl (λ m y, if m <? y then y else m) (Fin a) (Fin <$> cs) = Fin m
    ∧ (a <= m)%Q ∧ Forall (λ c, c <= m)%Q cs.
Proof.
  revert a. induction cs as [| c cs IH]; intros a.
  { exists a. split; [reflexivity |]. split; [lra | constructor]. }
  cbn [fmap list_fmap foldl flt].
  destruct (Qlt_bool a c) eqn:Hlt; qprop.
  - destruct (IH c) as (m & -> & Hc & Hall). exists m.
    split; [reflexivity |]. split; [lra |]. by constructor.
  - destruct (IH a) as (m & -> & Ha & Hall). exists m.
    split; [reflexivity |]. split; [exact Ha |]. constructor; [lra | exact Hall].
Qed.

(** The highest of finite values is finite and not below any of them. *)
Lemma series_max_Fin (cs : list Q) :
  cs ≠ [] →
  ∃ m : Q, series_max (Fin <$> cs) = Fin m ∧ Forall (λ c, c <= m)%Q cs.
Proof.
  intros Hne. unfold series_max. rewrite dropna_Fin.
  destruct cs as [| c cs]; [done |]. cbn [fmap list_fmap].
  destruct (foldl_max_Fin c cs) as (m & Hm & Hc & Hall).
  exists m. split; [exact Hm |]. by constructor.
Qed.

Lemma last_in_last_n {A} (n : nat) (l : list A) (x : A) :
  (1 ≤ n)%nat → last l = Some x → x ∈ last_n n l.
Proof.
  intros Hn Hlast. rewrite last_lookup in Hlast.
  assert (0 < length l)%nat as Hlen.
  { apply lookup_lt_Some in Hlast. lia. }
  unfold last_n. apply list_elem_of_lookup.
  exists (Nat.pred (length l) - (length l - n))%nat.
  rewrite lookup_drop. rewrite <- Hlast. f_equal. lia.
Qed.

Lemma last_n_fmap {A B} (f : A → B) (n : nat) (l : list A) :
  last_n n (f <$> l) = f <$> last_n n l.
Proof. unfold last_n. by rewrite length_fmap, fmap_drop. Qed.

(** X13. With finite closes the reported pullback_pct is never positive:
    the last close is one of the 60 closes whose maximum is the recent
    high; with positive closes it is also not below -1. *)
Theorem X13_pullback_pct_not_positive
    (cfg : config) (hist : DataFrame) (cs : list Q) :
  (200 ≤ length hist)%nat →
  closes hist = Fin <$> cs →
  ∃ (report : PullbackReport) (p : Q),
    detect_pullback_in_uptrend cfg hist = Ret report
    ∧ pullback_pct report = Fin p
    ∧ (p <= 0)%Q
    ∧ (Forall (λ c, 0 < c)%Q cs → (-1 <= p)%Q).
Proof.
  intros Hlong Hcs.
  destruct (detect_pullback_in_uptrend_report cfg hist Hlong)
    as (report & current & best & Hrun & Hlast & _ & _ & _ & _ & Hpct & _).
  assert (length cs = length hist) as Hlen.
  { rewrite <- (length_fmap Fin cs), <- Hcs. apply length_map. }
  unfold recent_high_of in Hpct. rewrite Hcs in Hlast, Hpct.
  rewrite fmap_last in Hlast.
  destruct (last cs) as [c |] eqn:Hc; [| discriminate].
  injection Hlast as <-.
  rewrite last_n_fmap in Hpct.
  assert (c ∈ last_n 60 cs) as Hin by (apply last_in_last_n; [lia | done]).
  destruct (series_max_Fin (last_n 60 cs)) as (m & Hm & Hall).
  { intros Hnil. rewrite Hnil in Hin. by apply not_elem_of_nil in Hin. }
  rewrite Hm in Hpct.
  assert (c <= m)%Q as Hcm by (by eapply Forall_forall in Hall).
  assert (∃ x : Q,
             pullback_of (Fin c) (Fin m) = Fin x ∧ (x <= 0)%Q
             ∧ ((0 < c)%Q → (-1 <= x)%Q)) as (x & Hx & Hx0 & Hx1).
  { unfold pullback_of. cbn [flt].
    destruct (Qlt_bool 0 m) eqn:Hpos; qprop.
    - cbn [fsub fneg fadd fdiv].
      assert (Qeq_bool m 0 = false) as -> by (apply Qeq_bool_false; lra).
      eexists. split; [reflexivity |]. split.
      + apply Qle_shift_div_r; lra.
      + intros Hc0. apply Qle_shift_div_l; lra.
    - exists 0%Q. split; [reflexivity |]. split; [lra |]. intros _. lra. }
  rewrite Hx in Hpct.
  destruct (py_round_unit x 4 Hx0) as (p & Hp & Hp0 & Hp1).
  exists report, p. split; [exact Hrun |].
  split; [by rewrite Hpct |]. split; [exact Hp0 |].
  intros Hpos. apply Hp1, Hx1.
  eapply Forall_forall in Hpos; [exact Hpos |].
  eapply elem_of_suffix; [exact Hin | apply last_n_suffix].
Qed.

End RecentHigh.

Import SeriesValues.

Lemma X13_pullback_pct_not_positive_witness :
  (200 ≤ length (bars 200))%nat
  ∧ closes (bars 200) = Fin <$> close_values 200
  ∧ ∃ (report : PullbackReport) (p : Q),
      @detect_pullback_in_uptrend approx_libm ∅ (bars 200) = Ret report
      ∧ pullback_pct report = Fin p
      ∧ (p <= 0)%Q.
Proof.
  assert (200 ≤ length (bars 200))%nat as Hlen
      by (unfold bars; rewrite length_map, length_seq; lia).
  assert (closes (bars 200) = Fin <$> close_values 200) as Hcs
      by (vm_compute; reflexivity).
  split; [exact Hlen |]. split; [exact Hcs |].
  destruct (@X13_pullback_pct_not_positive approx_libm ∅ (bars 200)
              (close_values 200) Hlen Hcs)
    as (report & p & Hrun & Hpct & Hp & _).
  exists report, p. exact (conj Hrun (conj Hpct Hp)).
Defined.

(** ** The figures of the report *)

Section ReportFigures.
Context `{Libm}.
Local Open Scope float_scope.


End ReportFigures.


(** ** The shape of the RSI and of the Bollinger bands *)

Section IndicatorShapes.
Context `{Libm}.
Local Open Scope float_scope.

Lemma rsi_value_cases (g l : float) :
  nonneg_fin g → nonneg_fin l →
  let x := Fin 100 - Fin 100 / (Fin 1 + g / l) in
  x = NaN ∨ ∃ r : Q, x = Fin r ∧ (0 <= r <= 100)%Q.
Proof.
  intros [gq [-> Hg]] [lq [-> Hl]] x. subst x.
  destruct (Qlt_le_dec 0 lq) as [Hpos | Hzero].
  - right. by apply rsi_value_in_range.
  - assert (lq == 0)%Q as Hl0 by lra.
    destruct (Qlt_le_dec 0 gq) as [Hgpos | Hgzero].
    + right. destruct (rsi_value_saturates gq lq Hgpos Hl0) as (r & -> & Hr).
      exists r. split; [reflexivity | lra].
    + left. apply rsi_value_undefined; lra.
Qed.

(** X14. [compute_rsi] raises ZeroDivisionError for period 0 and returns
    for every period >= 1 a series of the length of its input; on finite
    closes the first period - 1 values are NaN and every later value is
    either NaN or within [0,100]. *)
Theorem X14_rsi_shape (close : list Q) (period : nat) :
  compute_rsi (Fin <$> close) 0 = Raise ZeroDivisionError
  ∧ ((1 ≤ period)%nat →
     ∃ rsi_series : list float,
       compute_rsi (Fin <$> close) period = Ret rsi_series
       ∧ length rsi_series = length close
       ∧ ∀ i x,
           rsi_series !! i = Some x →
           if (period <=? i + 1)%nat
           then x = NaN ∨ ∃ r : Q, x = Fin r ∧ (0 <= r <= 100)%Q
           else x = NaN).
Proof.
  split; [reflexivity |]. intros Hp.
  pose proof (compute_rsi_returns (Fin <$> close) period Hp) as Hrun.
  eexists. split; [exact Hrun |]. split.
  { rewrite (length_compute_rsi _ _ _ Hrun). apply length_fmap. }
  intros i x Hx.
  apply list_lookup_fmap_Some in Hx as (rs & -> & Hrs).
  apply lookup_zip_with_Some in Hrs as (g & l & -> & Hg & Hl).
  pose proof (wilder_lookup period _ i g Hp (gains_nonneg close) Hg) as Hgv.
  pose proof (wilder_lookup period _ i l Hp (losses_nonneg close) Hl) as Hlv.
  destruct (period <=? i + 1)%nat.
  - by apply rsi_value_cases.
  - by rewrite Hgv, Hlv.
Qed.

(** X15. The three Bollinger bands have the length of the input.  On
    finite closes they are NaN at the first period - 1 positions; from
    then on (period >= 2) the middle band is the mean [m] of the last
    [period] closes and the upper and lower bands are [m + k s] and
    [m - k s], with [s] the square root of the sample variance of those
    closes and [k] the multiplier. *)
Theorem X15_bollinger_bands (close : list Q) (period : nat) (k : Q) :
  let bands := compute_bollinger_bands (Fin <$> close) period (Fin k) in
  let upper := bands.1.1 in
  let middle := bands.1.2 in
  let lower := bands.2 in
  length upper = length close
  ∧ length middle = length close
  ∧ length lower = length close
  ∧ ∀ i : nat,
      (i < length close)%nat →
      ((i + 1 < period)%nat →
       upper !! i = Some NaN ∧ middle !! i = Some NaN
       ∧ lower !! i = Some NaN)
      ∧ ((2 ≤ period)%nat → (period ≤ i + 1)%nat →
         let window := take period (drop (i + 1 - period) close) in
         let m := Qmean window in
         let s := sqrtQ (sample_variance window) in
         middle !! i = Some (Fin m)
         ∧ upper !! i = Some (Fin (m + k * s))
         ∧ lower !! i = Some (Fin (m - k * s))).
Proof.
  intros bands upper middle lower.
  subst upper middle lower bands. unfold compute_bollinger_bands.
  cbn [fst snd].
  rewrite !length_zip_with, length_rolling_mean, length_rolling_std,
    length_fmap.
  do 3 (split; [lia |]).
  intros i Hi.
  rewrite !lookup_zip_with,
    (rolling_mean_lookup period (Fin <$> close) i),
    (rolling_std_lookup period (Fin <$> close) i)
    by (rewrite length_fmap; exact Hi).
  cbn [mbind option_bind].
  split.
  - intros Hwarm. apply Nat.ltb_lt in Hwarm. rewrite Hwarm. by repeat split.
  - intros Hp2 Hfull.
    set (window := take period (drop (i + 1 - period) close)).
    assert ((i + 1 <? period)%nat = false) as -> by (apply Nat.ltb_ge; lia).
    assert (window_at period i (prep_values (Fin <$> close))
            = Fin <$> window) as ->.
    { rewrite prep_values_Fin. unfold window_at. subst window.
      by rewrite fmap_take, fmap_drop. }
    assert (length window = period) as Hwlen.
    { subst window. rewrite length_take_le; [done |].
      rewrite length_drop. lia. }
    rewrite np_mean_Fin, np_std_ddof1_Fin by lia.
    by repeat split.
Qed.

End IndicatorShapes.

(** * Properties of the threshold loader *)

Import ThresholdsLoader LookupSpec.

Section Loader.
Context `{Libm}.
Local Open Scope float_scope.

Lemma th_empty (section key : string) (dflt : float) :
  th ∅ section key dflt = dflt.
Proof. unfold th. by rewrite lookup_empty. Qed.

Lemma th_calls_cached (cfg : config) (reqs : list lookup_request) :
  th_calls reqs (Some cfg) = (answer cfg <$> reqs, Some cfg).
Proof.
  induction reqs as [| r reqs IH]; [reflexivity |].
  cbn [th_calls th_call get_thresholds]. by rewrite IH.
Qed.

(** X16. The thresholds file is read at most once per process.  Whatever
    the file holds at the later calls, every lookup is answered from the
    mapping loaded by the first call, which stays the cached value; when
    the file was missing, unreadable or blank at the first call every
    lookup returns its caller's default, also after the file has become
    readable. *)
Theorem X16_thresholds_read_once
    (first : lookup_request) (later : list lookup_request) :
  th_calls (first :: later) None
  = (answer (loaded_from (file_now first)) <$> first :: later,
     Some (loaded_from (file_now first)))
  ∧ (file_now first = Unreadable ∨ file_now first = Blank →
     (th_calls (first :: later) None).1 = req_default <$> first :: later).
Proof.
  assert (th_calls (first :: later) None
          = (answer (loaded_from (file_now first)) <$> first :: later,
             Some (loaded_from (file_now first)))) as Hrun.
  { cbn [th_calls th_call get_thresholds].
    assert (match file_now first with
            | Mapping cfg => cfg
            | Blank => ∅
            | Unreadable => ∅
            end = loaded_from (file_now first)) as ->
        by (by destruct (file_now first)).
    by rewrite th_calls_cached. }
  split; [exact Hrun |].
  intros Hfile. rewrite Hrun. cbn [fst].
  assert (loaded_from (file_now first) = ∅) as ->
      by (by destruct Hfile as [-> | ->]).
  apply list_fmap_ext. intros i r _. apply th_empty.
Qed.

Lemma th_section_only (cfg cfg' : config) (section key : string)
    (dflt : float) :
  cfg !! section = cfg' !! section →
  th cfg section key dflt = th cfg' section key dflt.
Proof. intros Heq. unfold th. by rewrite Heq. Qed.

Lemma bounce_day_section_only (cfg cfg' : config)
    (close volume rsi_series lower_band : list float) (offset : nat) :
  cfg !! "technicals" = cfg' !! "technicals" →
  bounce_day cfg close volume rsi_series lower_band offset
  = bounce_day cfg' close volume rsi_series lower_band offset.
Proof.
  intros Heq. unfold bounce_day.
  by rewrite !(th_section_only cfg cfg' "technicals" _ _ Heq).
Qed.

Lemma bounce_loop_section_only (cfg cfg' : config)
    (close volume rsi_series lower_band : list float)
    (offsets : list nat) (best : float * BounceDetails) :
  cfg !! "technicals" = cfg' !! "technicals" →
  bounce_loop cfg close volume rsi_series lower_band offsets best
  = bounce_loop cfg' close volume rsi_series lower_band offsets best.
Proof.
  intros Heq. revert best.
  induction offsets as [| o offsets IH]; intros best; [reflexivity |].
  cbn [bounce_loop]. rewrite (bounce_day_section_only cfg cfg' _ _ _ _ _ Heq).
  destruct (_ || _); [reflexivity |].
  destruct (bounce_day cfg' close volume rsi_series lower_band o);
    [| reflexivity].
  cbn [mbind py_bind]. apply IH.
Qed.

(** X17. The detector reads the section "technicals" of the thresholds and
    nothing else: two configurations with the same "technicals" section
    give the same report on every frame, and a configuration without that
    section (among them the empty one of a missing file) gives the report
    of the defaults. *)
Theorem X17_detector_reads_its_section (cfg cfg' : config) (hist : DataFrame) :
  (cfg !! "technicals" = cfg' !! "technicals" →
   detect_pullback_in_uptrend cfg hist = detect_pullback_in_uptrend cfg' hist)
  ∧ (cfg !! "technicals" = None →
     detect_pullback_in_uptrend cfg hist
     = detect_pullback_in_uptrend (loaded_from Unreadable) hist).
Proof.
  assert (∀ c c' : config,
             c !! "technicals" = c' !! "technicals" →
             detect_pullback_in_uptrend c hist
             = detect_pullback_in_uptrend c' hist) as Hsame.
  { intros c c' Heq. unfold detect_pullback_in_uptrend.
    destruct (_ <? 200)%nat; [reflexivity |].
    rewrite !(th_section_only c c' "technicals" _ _ Heq).
    destruct (compute_bollinger_bands _ _ _) as [[upper middle] lower].
    destruct (iloc _ _); [| reflexivity]. cbn [mbind py_bind].
    destruct (iloc _ _); [| reflexivity]. cbn [mbind py_bind].
    destruct (iloc _ _); [| reflexivity]. cbn [mbind py_bind].
    destruct (compute_rsi _ _) as [rsi_series |]; [| reflexivity].
    cbn [mbind py_bind].
    by rewrite (bounce_loop_section_only c c' _ _ _ _ _ _ Heq). }
  split; [apply Hsame |].
  intros Hnone. apply Hsame. rewrite Hnone. symmetry. apply lookup_empty.
Qed.

End Loader.

(** * Further properties of the conditions *)

Section Conditions.
Context `{Libm}.
Local Open Scope float_scope.

(** X18. A NaN metric fails the two conditions that test with [<] and
    passes the guards of the two that reject with [<=]: low volatility and
    undervalued are false on NaN, while replacing an input of the growth
    condition by NaN never turns a pass into a fail, and both the growth
    condition and financial stability hold when all their inputs are
    NaN. *)
Theorem X18_nan_metrics :
  (∀ threshold, check_low_volatility (Some NaN) threshold = false)
  ∧ (∀ per pbr per_max pbr_max,
       check_undervalued (Some NaN) pbr per_max pbr_max = false
       ∧ check_undervalued per (Some NaN) per_max pbr_max = false)
  ∧ (∀ eps_growth revenue_growth roe,
       check_eps_growth eps_growth revenue_growth roe = true →
       check_eps_growth (Some NaN) revenue_growth roe = true
       ∧ check_eps_growth eps_growth (Some NaN) roe = true
       ∧ check_eps_growth eps_growth revenue_growth (Some NaN) = true)
  ∧ check_eps_growth (Some NaN) (Some NaN) (Some NaN) = true
  ∧ (∀ total_debt,
       check_financial_stability (Some NaN) (Some NaN) (Some NaN) (Some NaN)
         total_debt (Some NaN) = Ret true).
Proof.
  split; [reflexivity |]. split.
  { intros per pbr per_max pbr_max. split.
    - by destruct pbr.
    - destruct per as [per |]; [| reflexivity]. unfold check_undervalued.
      cbn [flt]. by rewrite andb_false_r. }
  split.
  { intros e r roe. unfold check_eps_growth.
    destruct e as [e |]; [| discriminate].
    destruct (e <=? Fin 0.05); [discriminate |].
    destruct r as [r |]; [| discriminate].
    destruct (r <=? Fin 0); [discriminate |].
    destruct roe as [roe |]; [| discriminate].
    destruct (roe <=? Fin 0.08); [discriminate |].
    intros _. by repeat split. }
  split; [reflexivity |].
  intros total_debt. reflexivity.
Qed.

Lemma flt_fle_trans (a b c : float) :
  (a <? b) = true → (b <=? c) = true → (a <? c) = true.
Proof.
  destruct a as [x | | |], b as [y | | |], c as [z | | |]; cbn; try done.
  intros Hab Hbc. qprop. apply Qlt_bool_iff. lra.
Qed.

Lemma check_undervalued_flags (per pbr : option float)
    (per_max pbr_max per_max' pbr_max' : float) :
  (per_max <=? per_max') = true → (pbr_max <=? pbr_max') = true →
  check_undervalued per pbr per_max pbr_max = true →
  check_undervalued per pbr per_max' pbr_max' = true.
Proof.
  intros Hper Hpbr. unfold check_undervalued.
  destruct per as [per |], pbr as [pbr |]; try done.
  rewrite !andb_true_iff. intros [[? Hp] [? Hb]].
  repeat split; try done; by eapply flt_fle_trans.
Qed.

Lemma count_true_cons (b : bool) (l : list bool) :
  count_true (b :: l) = ((if b then 1 else 0) + count_true l)%Z.
Proof. unfold count_true. destruct b; cbn [List.filter id length]; lia. Qed.

Lemma multiplier_monotone (c c' : Z) :
  (c ≤ c')%Z →
  is_Some (calculate_condition_multiplier c) →
  is_Some (calculate_condition_multiplier c').
Proof.
  intros Hle. unfold calculate_condition_multiplier.
  destruct (4 <=? c)%Z eqn:H4.
  - intros _. apply Z.leb_le in H4.
    assert ((4 <=? c')%Z = true) as -> by (apply Z.leb_le; lia). by eexists.
  - destruct (c =? 3)%Z eqn:H3; [| by intros [? [=]]].
    intros _. apply Z.eqb_eq in H3.
    destruct (4 <=? c')%Z eqn:H4'; [by eexists |].
    apply Z.leb_gt in H4'.
    assert ((c' =? 3)%Z = true) as -> by (apply Z.eqb_eq; lia). by eexists.
Qed.

(** X19. Looser limits keep more.  When each of the three limits
    (hv_threshold, per_max, pbr_max, with their defaults) of one set of
    thresholds is at least the one of another, every condition that holds
    under the tighter set holds under the looser one, the count of passed
    conditions does not decrease, and an instrument that is not excluded
    under the tighter set is not excluded under the looser one.  The
    stability and growth conditions do not depend on the thresholds. *)
Theorem X19_looser_limits_keep_more
    (d : dict) (th th' : gmap string float)
    (count count' : Z) (details details' : condition_details_t) :
  (th_get th "hv_threshold" (Fin 0.25)
   <=? th_get th' "hv_threshold" (Fin 0.25)) = true →
  (th_get th "per_max" (Fin 15) <=? th_get th' "per_max" (Fin 15)) = true →
  (th_get th "pbr_max" (Fin 1.5) <=? th_get th' "pbr_max" (Fin 1.5)) = true →
  count_conditions_passed d th = Ret (count, details) →
  count_conditions_passed d th' = Ret (count', details') →
  (low_volatility details = true → low_volatility details' = true)
  ∧ (undervalued details = true → undervalued details' = true)
  ∧ financial_stability details' = financial_stability details
  ∧ eps_growth_ok details' = eps_growth_ok details
  ∧ (count ≤ count')%Z
  ∧ (is_Some (calculate_condition_multiplier count) →
     is_Some (calculate_condition_multiplier count')).
Proof.
  intros Hhv Hper Hpbr. unfold count_conditions_passed.
  destruct (check_financial_stability _ _ _ _ _ _) as [c3 |];
    [| discriminate].
  cbn [mbind py_bind]. intros [= <- <-] [= <- <-].
  cbn [low_volatility undervalued financial_stability eps_growth_ok].
  assert (check_low_volatility (get d "hv30")
            (th_get th "hv_threshold" (Fin 0.25)) = true →
          check_low_volatility (get d "hv30")
            (th_get th' "hv_threshold" (Fin 0.25)) = true) as H1.
  { unfold check_low_volatility. destruct (get d "hv30") as [hv |]; [| done].
    intros Hlt. by eapply flt_fle_trans. }
  pose proof (check_undervalued_flags
                (py_or (get d "trailingPE") (get d "per"))
                (py_or (get d "priceToBook") (get d "pbr"))
                _ _ _ _ Hper Hpbr) as H2.
  split; [exact H1 |]. split; [exact H2 |].
  split; [reflexivity |]. split; [reflexivity |].
  assert (∀ a b a' b' c e : bool,
             (a = true → a' = true) → (b = true → b' = true) →
             (count_true [a; b; c; e] ≤ count_true [a'; b'; c; e])%Z)
    as Hmono.
  { intros a b a' b' c e Ha Hb. rewrite !count_true_cons.
    destruct a, b, a', b'; try (specialize (Ha eq_refl)); 
      try (specialize (Hb eq_refl)); try discriminate; lia. }
  specialize (Hmono _ _ _ _ c3
                (check_eps_growth
                   (py_or (get d "earningsGrowth") (get d "eps_growth"))
                   (py_or (get d "revenueGrowth") (get d "revenue_growth"))
                   (py_or (get d "returnOnEquity") (get d "roe")))
                H1 H2).
  split; [exact Hmono |].
  by apply multiplier_monotone.
Qed.

(** X20. The sub-volatilities need the volatility: over the same window
    both are absent whenever the volatility is absent, and a present
    sub-volatility needs a window of at least two returns. *)
Theorem X20_sub_volatilities_need_hv (prices : list float) (window : nat) :
  (calculate_hv prices window = None →
   calculate_upside_downside_vol prices window = (None, None))
  ∧ (is_Some (calculate_upside_downside_vol prices window).1
     ∨ is_Some (calculate_upside_downside_vol prices window).2 →
     is_Some (calculate_hv prices window) ∧ (2 ≤ window)%nat).
Proof.
  unfold calculate_hv, calculate_upside_downside_vol.
  destruct (length prices <? window + 1)%nat eqn:Hlen.
  { split; [done |]. cbn. intros [Hn | Hn]; by apply is_Some_None in Hn. }
  destruct (existsb _ (last_n (window + 1) prices)) eqn:Hbad.
  { split; [done |]. cbn. intros [Hn | Hn]; by apply is_Some_None in Hn. }
  split; [discriminate |].
  apply Nat.ltb_ge in Hlen.
  assert (length (np_diff (map np_log (last_n (window + 1) prices))) = window)
    as Hreturns.
  { rewrite length_np_diff, length_map, length_last_n by lia. lia. }
  set (returns := np_diff _) in *. cbn [fst snd].
  pose proof (List.filter_length_le (λ r, Fin 0 <? r) returns) as Hup.
  pose proof (List.filter_length_le (λ r, r <? Fin 0) returns) as Hdown.
  intros [Hsome | Hsome]; (split; [by eexists |]).
  - destruct (length (List.filter _ returns) <? 2)%nat eqn:Hfew;
      [by destruct Hsome |].
    apply Nat.ltb_ge in Hfew. lia.
  - destruct (length (List.filter _ returns) <? 2)%nat eqn:Hfew;
      [by destruct Hsome |].
    apply Nat.ltb_ge in Hfew. lia.
Qed.

End Conditions.

Lemma X19_looser_limits_keep_more_witness :
  (th_get ∅ "hv_threshold" (Fin 0.25)
   <=? th_get (<["per_max" := Fin 20]> ∅) "hv_threshold" (Fin 0.25))%F = true
  ∧ (th_get ∅ "per_max" (Fin 15)
     <=? th_get (<["per_max" := Fin 20]> ∅) "per_max" (Fin 15))%F = true
  ∧ (th_get ∅ "pbr_max" (Fin 1.5)
     <=? th_get (<["per_max" := Fin 20]> ∅) "pbr_max" (Fin 1.5))%F = true
  ∧ ∃ count details count' details',
      count_conditions_passed three_pass ∅ = Ret (count, details)
      ∧ count_conditions_passed three_pass (<["per_max" := Fin 20]> ∅)
        = Ret (count', details')
      ∧ (count ≤ count')%Z.
Proof.
  assert ((th_get ∅ "hv_threshold" (Fin 0.25)
           <=? th_get (<["per_max" := Fin 20]> ∅) "hv_threshold" (Fin 0.25))%F
          = true) as Hhv by reflexivity.
  assert ((th_get ∅ "per_max" (Fin 15)
           <=? th_get (<["per_max" := Fin 20]> ∅) "per_max" (Fin 15))%F
          = true) as Hper by reflexivity.
  assert ((th_get ∅ "pbr_max" (Fin 1.5)
           <=? th_get (<["per_max" := Fin 20]> ∅) "pbr_max" (Fin 1.5))%F
          = true) as Hpbr by reflexivity.
  split; [exact Hhv |]. split; [exact Hper |]. split; [exact Hpbr |].
  eexists _, _, _, _. split; [reflexivity |]. split; [reflexivity |].
  apply (X19_looser_limits_keep_more three_pass ∅ (<["per_max" := Fin 20]> ∅)
           _ _ _ _ Hhv Hper Hpbr eq_refl eq_refl).
Defined.

(** ** The RSI of a trend *)

Import TrendSpec.

Section Trend.
Context `{Libm}.
Local Open Scope float_scope.

Lemma np_diff_rising (cs : list Q) :
  rising cs → Forall pos_fin (np_diff (Fin <$> cs)).
Proof.
  induction cs as [| x cs IH]; [constructor |].
  destruct cs as [| y t]; [constructor |].
  intros [Hxy Hrest]. cbn [fmap list_fmap np_diff] in *.
  constructor; [| by apply IH].
  eexists. split; [reflexivity | lra].
Qed.

Lemma np_diff_falling (cs : list Q) :
  falling cs →
  Forall (λ d, ∃ q : Q, d = Fin q ∧ (q < 0)%Q) (np_diff (Fin <$> cs)).
Proof.
  induction cs as [| x cs IH]; [constructor |].
  destruct cs as [| y t]; [constructor |].
  intros [Hxy Hrest]. cbn [fmap list_fmap np_diff] in *.
  constructor; [| by apply IH].
  eexists. split; [reflexivity | lra].
Qed.

Lemma gains_losses_split (x : Q) (cs : list Q) :
  gains (Fin <$> x :: cs)
  = Fin 0 :: map (λ d, if Fin 0 <? d then d else Fin 0)
               (np_diff (Fin <$> x :: cs))
  ∧ losses (Fin <$> x :: cs)
    = Fin 0 :: map (λ d, if d <? Fin 0 then fneg d else Fin 0)
                 (np_diff (Fin <$> x :: cs)).
Proof.
  unfold gains, losses, where_, series_diff. cbn [fmap list_fmap].
  generalize (np_diff (Fin x :: (Fin <$> cs))). intros D.
  cbn [map zip_with]. split; f_equal.
  - rewrite <- (map_id D) at 2. by rewrite zip_with_map_l.
  - by rewrite zip_with_map_l.
Qed.

Lemma trend_gains_losses (x : Q) (cs : list Q) :
  ∃ gs ls,
    gains (Fin <$> x :: cs) = Fin 0 :: gs
    ∧ losses (Fin <$> x :: cs) = Fin 0 :: ls
    ∧ (rising (x :: cs) → Forall pos_fin gs ∧ Forall zero_fin ls)
    ∧ (falling (x :: cs) → Forall zero_fin gs ∧ Forall pos_fin ls).
Proof.
  destruct (gains_losses_split x cs) as [-> ->].
  eexists _, _. split; [reflexivity |]. split; [reflexivity |]. split.
  - intros Hrise. apply np_diff_rising in Hrise.
    split; apply Forall_map; (eapply Forall_impl; [exact Hrise |]);
      intros d (q & -> & Hq); cbn [flt fneg].
    + assert (Qlt_bool 0 q = true) as -> by (by apply Qlt_bool_iff).
      by exists q.
    + assert (Qlt_bool q 0 = false) as -> by (apply Qlt_bool_false; lra).
      exists 0%Q. split; reflexivity.
  - intros Hfall. apply np_diff_falling in Hfall.
    split; apply Forall_map; (eapply Forall_impl; [exact Hfall |]);
      intros d (q & -> & Hq); cbn [flt fneg].
    + assert (Qlt_bool 0 q = false) as -> by (apply Qlt_bool_false; lra).
      exists 0%Q. split; reflexivity.
    + assert (Qlt_bool q 0 = true) as -> by (by apply Qlt_bool_iff).
      exists (- q)%Q. split; [reflexivity | lra].
Qed.

Lemma pos_fin_nonneg (x : float) : pos_fin x → nonneg_fin x.
Proof. intros (q & -> & Hq). exists q. split; [reflexivity | lra]. Qed.

Lemma zero_fin_nonneg (x : float) : zero_fin x → nonneg_fin x.
Proof. intros (q & -> & Hq). exists q. split; [reflexivity | lra]. Qed.

(** A step of the smoothing on a value > 0 gives a mean > 0. *)
Lemma ewm_step_pos (a : Q) (n : nat) (st : ewm_state) (cur : float) :
  (0 < a)%Q → (a <= 1)%Q →
  ewm_inv n st → pos_fin cur →
  pos_fin (weighted (ewm_step (Fin a) st cur)).
Proof.
  intros Ha0 Ha1 ([w [Hw Hw0]] & Hold & Hn) (c & -> & Hc).
  unfold ewm_step. rewrite Hw, Hold. cbn [isnan negb weighted].
  cbn [fsub fneg fadd fmul feq fdiv].
  destruct (Qeq_bool w c) eqn:Hwc; qprop.
  - exists w. split; [reflexivity | lra].
  - assert (Qeq_bool (1 * (1 + - a) + a) 0 = false) as ->
        by (apply Qeq_bool_false; lra).
    eexists. split; [reflexivity |].
    apply Qlt_shift_div_l; [lra |]. rewrite Qmult_0_l.
    assert (0 <= w * (1 - a))%Q by (apply Qmult_le_0_compat; lra).
    assert (0 < a * c)%Q by (apply Qmult_lt_0_compat; lra).
    lra.
Qed.

Lemma ewm_loop_lookup_pos (a : Q) (minp n : nat) (st : ewm_state)
    (s : list float) (i : nat) (x : float) :
  (0 < a)%Q → (a <= 1)%Q →
  ewm_inv n st → Forall pos_fin s →
  ewm_loop (Fin a) minp st s !! i = Some x →
  (Nat.max minp 1 ≤ n + i + 1)%nat → pos_fin x.
Proof.
  intros Ha0 Ha1 Hst Hs. revert n st i Hst.
  induction Hs as [| cur s Hcur _ IH]; intros n st i Hst; [discriminate |].
  cbn [ewm_loop].
  pose proof (ewm_step_inv a n st cur Ha0 Ha1 Hst (pos_fin_nonneg _ Hcur))
    as Hst'.
  destruct i as [| i]; cbn [lookup list_lookup].
  - intros [= <-] Hdef. unfold ewm_output.
    destruct Hst' as (_ & _ & ->).
    assert ((Nat.max minp 1 <=? S n)%nat = true) as ->
        by (apply Nat.leb_le; lia).
    by eapply ewm_step_pos.
  - intros Hx Hdef. apply (IH (S n) _ i Hst' Hx). lia.
Qed.

(** The smoothing of zeros stays at zero. *)
Lemma ewm_loop_lookup_zero (a : float) (minp n : nat) (st : ewm_state)
    (s : list float) (i : nat) (x : float) :
  zero_fin (weighted st) → nobs st = n →
  Forall zero_fin s →
  ewm_loop a minp st s !! i = Some x →
  (Nat.max minp 1 ≤ n + i + 1)%nat → zero_fin x.
Proof.
  intros Hw Hn Hs. revert n st i Hw Hn.
  induction Hs as [| cur s Hcur _ IH]; intros n st i Hw Hn; [discriminate |].
  cbn [ewm_loop].
  assert (zero_fin (weighted (ewm_step a st cur))
          ∧ nobs (ewm_step a st cur) = S n) as [Hw' Hn'].
  { destruct Hw as (w & Hw & Hw0), Hcur as (c & -> & Hc0).
    unfold ewm_step. rewrite Hw, Hn. cbn [isnan negb feq].
    assert (Qeq_bool w c = true) as ->.
    { apply Qeq_bool_iff. by rewrite Hw0, Hc0. }
    cbn [weighted nobs]. split; [by exists w | lia]. }
  destruct i as [| i]; cbn [lookup list_lookup].
  - intros [= <-] Hdef. unfold ewm_output. rewrite Hn'.
    assert ((Nat.max minp 1 <=? S n)%nat = true) as ->
        by (apply Nat.leb_le; lia).
    exact Hw'.
  - intros Hx Hdef. apply (IH (S n) _ i Hw' Hn' Hx). lia.
Qed.

Lemma wilder_rate (period : nat) :
  (1 ≤ period)%nat →
  (0 < 1 / inject_Z (Z.of_nat period))%Q
  ∧ (1 / inject_Z (Z.of_nat period) <= 1)%Q.
Proof.
  intros Hp.
  assert (0 < inject_Z (Z.of_nat period))%Q as Hpos.
  { rewrite <- (Zlt_Qlt 0). lia. }
  assert (1 <= inject_Z (Z.of_nat period))%Q as Hone.
  { rewrite <- (Zle_Qle 1). lia. }
  split.
  - apply Qlt_shift_div_l; lra.
  - apply Qle_shift_div_r; lra.
Qed.

(** Wilder's average, after the first bar, of values > 0 and of zeros. *)
Lemma wilder_trend (period : nat) (s : list float) (i : nat) (x : float) :
  (1 ≤ period)%nat → (period ≤ S i + 1)%nat →
  wilder period (Fin 0 :: s) !! S i = Some x →
  (Forall pos_fin s → pos_fin x) ∧ (Forall zero_fin s → zero_fin x).
Proof.
  intros Hp Hdef Hx. destruct (wilder_rate period Hp) as [Ha0 Ha1].
  assert (Forall nonneg_fin s →
          ewm_loop (Fin (1 / inject_Z (Z.of_nat period))) period
            (ewm_init (Fin 0)) s !! i = Some x) as Hloop.
  { intros Hs. unfold wilder, ewm_mean in Hx.
    rewrite prep_values_id in Hx; [exact Hx |].
    constructor; [right; by exists 0%Q |].
    eapply Forall_impl; [exact Hs |]. intros y (q & -> & _).
    right. by exists q. }
  split.
  - intros Hs.
    eapply (ewm_loop_lookup_pos _ period 1 (ewm_init (Fin 0)) s i x);
      [exact Ha0 | exact Ha1 | | exact Hs | | lia].
    + apply ewm_init_inv. exists 0%Q. split; [reflexivity | lra].
    + apply Hloop. eapply Forall_impl; [exact Hs |]. apply pos_fin_nonneg.
  - intros Hs.
    eapply (ewm_loop_lookup_zero _ period 1 (ewm_init (Fin 0)) s i x);
      [| | exact Hs | | lia].
    + exists 0%Q. split; reflexivity.
    + reflexivity.
    + apply Hloop. eapply Forall_impl; [exact Hs |]. apply zero_fin_nonneg.
Qed.

Lemma rsi_value_floor (g l : Q) :
  (g == 0)%Q → (0 < l)%Q →
  ∃ r : Q,
    Fin 100 - Fin 100 / (Fin 1 + Fin g / Fin l) = Fin r ∧ (r == 0)%Q.
Proof.
  intros Hg Hl. cbn [fdiv].
  assert (Qeq_bool l 0 = false) as -> by (apply Qeq_bool_false; lra).
  cbn [fadd fdiv].
  assert (g / l == 0)%Q as Hgl by (rewrite Hg; field; lra).
  assert (Qeq_bool (1 + g / l) 0 = false) as ->
      by (apply Qeq_bool_false; rewrite Hgl; lra).
  cbn [fsub fneg fadd]. eexists. split; [reflexivity |].
  rewrite Hgl. field.
Qed.

(** X21. The RSI of a trend.  On closes that rise from each bar to the
    next the RSI is 100 at every bar after the first where it is defined
    (the average loss is 0, the ratio infinite); on closes that fall from
    each bar to the next it is 0. *)
Theorem X21_rsi_of_a_trend (close : list Q) (period i : nat) :
  (1 ≤ period)%nat → (1 ≤ i)%nat → (period ≤ i + 1)%nat →
  (i < length close)%nat →
  ∃ rsi_series : list float,
    compute_rsi (Fin <$> close) period = Ret rsi_series
    ∧ (rising close →
       ∃ r : Q, rsi_series !! i = Some (Fin r) ∧ (r == 100)%Q)
    ∧ (falling close →
       ∃ r : Q, rsi_series !! i = Some (Fin r) ∧ (r == 0)%Q).
Proof.
  intros Hp Hi Hdef Hlen.
  rewrite (compute_rsi_returns _ _ Hp). eexists. split; [reflexivity |].
  destruct close as [| x cs]; [cbn in Hlen; lia |].
  destruct i as [| i]; [lia |].
  destruct (trend_gains_losses x cs) as (gs & ls & Hgs & Hls & Hrise & Hfall).
  assert (∃ g l,
             avg_gain (Fin <$> x :: cs) period !! S i = Some g
             ∧ avg_loss (Fin <$> x :: cs) period !! S i = Some l)
    as (g & l & Hg & Hl).
  { destruct (lookup_lt_is_Some_2 (avg_gain (Fin <$> x :: cs) period) (S i))
      as [g Hg].
    { unfold avg_gain, wilder.
      rewrite length_ewm_mean, length_gains, length_fmap. exact Hlen. }
    destruct (lookup_lt_is_Some_2 (avg_loss (Fin <$> x :: cs) period) (S i))
      as [l Hl].
    { unfold avg_loss, wilder.
      rewrite length_ewm_mean, length_losses, length_fmap. exact Hlen. }
    by exists g, l. }
  assert (∀ v, map (λ r, Fin 100 - Fin 100 / (Fin 1 + r))
                 (zip_with fdiv (avg_gain (Fin <$> x :: cs) period)
                    (avg_loss (Fin <$> x :: cs) period)) !! S i = Some v
               ↔ Fin 100 - Fin 100 / (Fin 1 + g / l) = v) as Hat.
  { intros v.
    change (map ?f ?l0) with (f <$> l0).
    rewrite list_lookup_fmap, lookup_zip_with, Hg, Hl. cbn.
    split; [by intros [= <-] | by intros <-]. }
  unfold avg_gain in Hg. unfold avg_loss in Hl. rewrite Hgs in Hg.
  rewrite Hls in Hl.
  destruct (wilder_trend period gs i g Hp ltac:(lia) Hg) as [Hgpos Hgzero].
  destruct (wilder_trend period ls i l Hp ltac:(lia) Hl) as [Hlpos Hlzero].
  split.
  - intros Hrising. destruct (Hrise Hrising) as [Hgs' Hls'].
    destruct (Hgpos Hgs') as (gq & -> & Hgq).
    destruct (Hlzero Hls') as (lq & -> & Hlq).
    destruct (rsi_value_saturates gq lq Hgq Hlq) as (r & Hr & Hr100).
    exists r. split; [by apply Hat | exact Hr100].
  - intros Hfalling. destruct (Hfall Hfalling) as [Hgs' Hls'].
    destruct (Hgzero Hgs') as (gq & -> & Hgq).
    destruct (Hlpos Hls') as (lq & -> & Hlq).
    destruct (rsi_value_floor gq lq Hgq Hlq) as (r & Hr & Hr0).
    exists r. split; [by apply Hat | exact Hr0].
Qed.

End Trend.

Lemma X21_rsi_of_a_trend_witness :
  (1 ≤ 2)%nat ∧ (1 ≤ 2)%nat ∧ (2 ≤ 2 + 1)%nat
  ∧ (2 < length [10; 11; 13; 14]%Q)%nat
  ∧ rising [10; 11; 13; 14]%Q
  ∧ ∃ (rsi_series : list float) (r : Q),
      compute_rsi (Fin <$> [10; 11; 13; 14]%Q) 2 = Ret rsi_series
      ∧ rsi_series !! 2%nat = Some (Fin r) ∧ (r == 100)%Q.
Proof.
  assert (1 ≤ 2)%nat as H1 by lia.
  assert (2 ≤ 2 + 1)%nat as H2 by lia.
  assert (2 < length [10; 11; 13; 14]%Q)%nat as H3 by (cbn; lia).
  assert (rising [10; 11; 13; 14]%Q) as Hrising
      by (cbn; repeat split; reflexivity).
  split; [exact H1 |]. split; [exact H1 |]. split; [exact H2 |].
  split; [exact H3 |]. split; [exact Hrising |].
  destruct (X21_rsi_of_a_trend [10; 11; 13; 14]%Q 2 2 H1 H1 H2 H3)
    as (rsi_series & Hrun & Hrise & _).
  destruct (Hrise Hrising) as (r & Hr & Hr100).
  exists rsi_series, r. exact (conj Hrun (conj Hr Hr100)).
Defined.

(** * Properties of the screener *)

Import Screener ScreenerSpec InsertionSort.

Section ScreenerRuns.
Context `{Libm} `{ListSort}.
Local Open Scope float_scope.

(** One turn of the loop on a symbol the client knows, in a store that
    extends the client's. *)
Lemma screen_turn (get_stock_detail : string → option StockDetail)
    (thresholds : gmap string float) (rf : float) (σ ext : heap)
    (symbol : string) (detail : StockDetail) (d : dict) :
  get_stock_detail symbol = Some detail →
  σ !! detail_ref detail = Some d →
  ∃ count details,
    count_conditions_passed (snapshot_with_hv d) thresholds
    = Ret (count, details)
    ∧ (0 ≤ count ≤ 4)%Z
    ∧ compute_full_sharpe_score (σ ++ ext) (detail_ref detail) thresholds rf
      = (Ret match calculate_condition_multiplier count with
             | None => None
             | Some m => Some (result_of d rf count details m)
             end,
         (σ ++ ext) ++ [snapshot_with_hv d])
    ∧ row_of get_stock_detail thresholds rf σ symbol
      = match calculate_condition_multiplier count with
        | None => None
        | Some m =>
            Some (make_row σ symbol detail (result_of d rf count details m))
        end.
Proof.
  intros Hdetail Hl.
  assert ((σ ++ ext) !! detail_ref detail = Some d) as Hl'
      by (by apply lookup_app_l_Some).
  destruct (compute_full_sharpe_score_run _ _ _ thresholds rf Hl')
    as (count & details & Hcount & Hrun).
  destruct (compute_full_sharpe_score_run _ _ _ thresholds rf Hl)
    as (count' & details' & Hcount' & Hrun').
  rewrite Hcount in Hcount'. injection Hcount' as <- <-.
  destruct (count_conditions_passed_total (snapshot_with_hv d) thresholds)
    as (count' & details' & Hcount' & Hrange & _).
  rewrite Hcount in Hcount'. injection Hcount' as <- <-.
  exists count, details.
  split; [exact Hcount |]. split; [exact Hrange |]. split; [exact Hrun |].
  unfold row_of. rewrite Hdetail, Hrun'. cbn [fst].
  by destruct (calculate_condition_multiplier count).
Qed.

Lemma make_row_store (σ σ' : heap) (symbol : string) (detail : StockDetail)
    (d : dict) (sr_result : SharpeResult) :
  σ !! detail_ref detail = Some d →
  σ' !! detail_ref detail = Some d →
  make_row σ' symbol detail sr_result = make_row σ symbol detail sr_result.
Proof.
  intros Hl Hl'. unfold make_row.
  by rewrite (deref_Some _ _ _ Hl), (deref_Some _ _ _ Hl').
Qed.

(** The loop: it returns, with the rows of the kept symbols appended in
    the order of the symbols, in a store that extends the one it started
    in. *)
Lemma screen_loop_run (get_stock_detail : string → option StockDetail)
    (thresholds : gmap string float) (rf : float) (σ : heap)
    (symbols : list string) :
  client_in_store σ get_stock_detail →
  ∀ (ext : heap) (results : list ScreenRow),
  ∃ ext' : heap,
    screen_loop get_stock_detail thresholds rf symbols (σ ++ ext) results
    = (Ret (results
            ++ omap (row_of get_stock_detail thresholds rf σ) symbols),
       σ ++ ext').
Proof.
  intros Hclient.
  induction symbols as [| symbol symbols IH]; intros ext results.
  { exists ext. cbn. by rewrite app_nil_r. }
  cbn [screen_loop omap list_omap].
  destruct (get_stock_detail symbol) as [detail |] eqn:Hdetail.
  - destruct (Hclient symbol detail Hdetail) as [d Hl].
    destruct (screen_turn get_stock_detail thresholds rf σ ext
                symbol detail d Hdetail Hl)
      as (count & details & _ & _ & -> & ->).
    destruct (calculate_condition_multiplier count) as [m |].
    + rewrite (make_row_store σ _ symbol detail d _ Hl)
        by (rewrite <- app_assoc; by apply lookup_app_l_Some).
      destruct (IH (ext ++ [snapshot_with_hv d])
                  (results
                   ++ [make_row σ symbol detail
                         (result_of d rf count details m)]))
        as [ext' Hrun].
      exists ext'. rewrite <- app_assoc, Hrun. by rewrite <- app_assoc.
    + destruct (IH (ext ++ [snapshot_with_hv d]) results) as [ext' Hrun].
      exists ext'. by rewrite <- app_assoc, Hrun.
  - assert (row_of get_stock_detail thresholds rf σ symbol = None) as ->
        by (unfold row_of; by rewrite Hdetail).
    apply IH.
Qed.

(** [screen] in one step: the sort of the kept rows decides. *)
Lemma screen_run (get_stock_detail : string → option StockDetail)
    (market : Market) (σ : heap) (symbols : option (list string))
    (top_n : Z) :
  client_in_store σ get_stock_detail →
  ∃ ext : heap,
    screen get_stock_detail market σ symbols top_n
    = (match sort_desc row_final_score
               (kept_rows get_stock_detail market σ symbols) with
       | None => Fails TypeError
       | Some sorted => Rows (slice_to sorted top_n)
       end,
       σ ++ ext).
Proof.
  intros Hclient. unfold screen, kept_rows.
  destruct (screen_loop_run get_stock_detail
              (sr_thresholds (get_thresholds market))
              (th_get (sr_thresholds (get_thresholds market)) "rf" (Fin 0.005))
              σ (default (get_default_symbols market) symbols)
              Hclient [] [])
    as [ext Hrun].
  rewrite app_nil_r in Hrun. cbn [app] in Hrun. rewrite Hrun.
  exists ext. by destruct (sort_desc _ _).
Qed.

(** What a kept row is made of. *)
Lemma kept_row_inv (get_stock_detail : string → option StockDetail)
    (thresholds : gmap string float) (rf : float) (σ : heap)
    (symbol : string) (row : ScreenRow) :
  client_in_store σ get_stock_detail →
  row_of get_stock_detail thresholds rf σ symbol = Some row →
  ∃ detail d count details m,
    get_stock_detail symbol = Some detail
    ∧ σ !! detail_ref detail = Some d
    ∧ count_conditions_passed (snapshot_with_hv d) thresholds
      = Ret (count, details)
    ∧ (0 ≤ count ≤ 4)%Z
    ∧ calculate_condition_multiplier count = Some m
    ∧ row = make_row σ symbol detail (result_of d rf count details m).
Proof.
  intros Hclient Hrow.
  destruct (get_stock_detail symbol) as [detail |] eqn:Hdetail;
    [| unfold row_of in Hrow; by rewrite Hdetail in Hrow].
  destruct (Hclient symbol detail Hdetail) as [d Hl].
  destruct (screen_turn get_stock_detail thresholds rf σ []
              symbol detail d Hdetail Hl)
    as (count & details & Hcount & Hrange & _ & Hrow').
  rewrite Hrow' in Hrow.
  destruct (calculate_condition_multiplier count) as [m |] eqn:Hm;
    [| discriminate].
  injection Hrow as <-.
  by exists detail, d, count, details, m.
Qed.




End ScreenerRuns.

(** ** The sort *)

Section FloatOrder.
Local Open Scope float_scope.

Lemma fle_refl (v : float) : isnan v = false → (v <=? v) = true.
Proof.
  destruct v as [q | | |]; cbn; try done.
  intros _. apply Qle_bool_iff. apply Qle_refl.
Qed.

Lemma flt_fle (a b : float) : (a <? b) = true → (a <=? b) = true.
Proof.
  destruct a as [x | | |], b as [y | | |]; cbn; try done.
  intros Hlt. qprop. apply Qle_bool_iff. lra.
Qed.

Lemma flt_false_fle (a b : float) :
  isnan a = false → isnan b = false → (a <? b) = false → (b <=? a) = true.
Proof.
  destruct a as [x | | |], b as [y | | |]; cbn; try done.
  intros _ _ Hlt. qprop. apply Qle_bool_iff. lra.
Qed.

Lemma fle_trans (a b c : float) :
  (a <=? b) = true → (b <=? c) = true → (a <=? c) = true.
Proof.
  destruct a as [x | | |], b as [y | | |], c as [z | | |]; cbn; try done.
  intros Hab Hbc. qprop. apply Qle_bool_iff. lra.
Qed.

End FloatOrder.

Section InsertionSortLaws.
Local Open Scope float_scope.
Context {A : Type}.

Lemma insert_desc_perm (key : A → float) (x : A) (l : list A) :
  insert_desc key x l ≡ₚ x :: l.
Proof.
  induction l as [| y l IH]; [reflexivity |].
  cbn [insert_desc]. destruct (key x <? key y); [| reflexivity].
  rewrite IH. apply Permutation_swap.
Qed.

Lemma insertion_perm (key : A → float) (l : list A) :
  foldr (insert_desc key) [] l ≡ₚ l.
Proof.
  induction l as [| x l IH]; [reflexivity |].
  cbn [foldr]. by rewrite insert_desc_perm, IH.
Qed.

Lemma insert_desc_descending (key : A → float) (x : A) (l : list A) :
  isnan (key x) = false →
  Forall (λ y, isnan (key y) = false) l →
  descending key l → descending key (insert_desc key x l).
Proof.
  intros Hx. induction l as [| y l IH]; intros Hl Hdesc.
  { by split. }
  apply Forall_cons in Hl as [Hy Hl]. destruct Hdesc as [Hbelow Hdesc].
  cbn [insert_desc]. destruct (key x <? key y) eqn:Hlt.
  - split; [| by apply IH].
    rewrite insert_desc_perm. constructor; [by apply flt_fle | exact Hbelow].
  - assert ((key y <=? key x) = true) as Hyx by (by apply flt_false_fle).
    split; [| by split].
    constructor; [exact Hyx |].
    eapply Forall_impl; [exact Hbelow |].
    intros z Hz. exact (fle_trans _ _ _ Hz Hyx).
Qed.

Lemma insertion_descending (key : A → float) (l : list A) :
  Forall (λ y, isnan (key y) = false) l →
  descending key (foldr (insert_desc key) [] l).
Proof.
  induction l as [| x l IH]; intros Hl; [done |].
  apply Forall_cons in Hl as [Hx Hl]. cbn [foldr].
  apply insert_desc_descending; [exact Hx | | by apply IH].
  by rewrite insertion_perm.
Qed.

Lemma descending_lookup (key : A → float) (l : list A) :
  Forall (λ y, isnan (key y) = false) l →
  descending key l →
  ∀ (i j : nat) (x y : A),
    (i ≤ j)%nat → l !! i = Some x → l !! j = Some y →
    (key y <=? key x) = true.
Proof.
  induction l as [| z l IH]; intros Hl Hdesc i j x y Hij Hx Hy;
    [discriminate |].
  apply Forall_cons in Hl as [Hz Hl]. destruct Hdesc as [Hbelow Hdesc].
  destruct i as [| i], j as [| j]; cbn in Hx, Hy; try lia.
  - injection Hx as <-. injection Hy as <-. by apply fle_refl.
  - injection Hx as <-. eapply Forall_forall in Hbelow; [exact Hbelow |].
    by eapply list_elem_of_lookup_2.
  - apply (IH Hl Hdesc i j); [lia | done | done].
Qed.

Lemma forallb_keys (key : A → option float) (l : list A) :
  forallb (λ x, bool_decide (is_Some (key x))) l = true
  ↔ Forall (λ x, is_Some (key x)) l.
Proof.
  induction l as [| x l IH]; cbn [forallb].
  - split; [constructor | done].
  - rewrite andb_true_iff, bool_decide_eq_true, IH, Forall_cons. done.
Qed.

End InsertionSortLaws.

(** The insertion sort has what is used of the library's sort. *)
Lemma insertion_sort_laws : @sort_laws insertion_sort.
Proof.
  split; intros A key l; cbn [sort_desc insertion_sort];
    unfold insertion_sort_desc.
  - intros Hlen. apply Nat.ltb_lt in Hlen. by rewrite Hlen.
  - intros x Hlen Hin Hnone.
    assert ((length l <? 2)%nat = false) as -> by (apply Nat.ltb_ge; lia).
    destruct (forallb _ l) eqn:Hall; [| reflexivity].
    apply forallb_keys in Hall. eapply Forall_forall in Hall; [| exact Hin].
    rewrite Hnone in Hall. by destruct Hall.
  - intros Hall. destruct (length l <? 2)%nat; [by eexists |].
    apply forallb_keys in Hall. rewrite Hall. by eexists.
  - intros l' Hsort. destruct (length l <? 2)%nat; [by injection Hsort as <- |].
    destruct (forallb _ l); [| discriminate].
    injection Hsort as <-. apply insertion_perm.
  - intros l' Hkeys Hsort i j x y vx vy Hij Hx Hy Hvx Hvy.
    assert (Forall (λ x, isnan (float_key key x) = false) l) as Hnan.
    { eapply Forall_impl; [exact Hkeys |].
      intros z (v & Hv & Hnan). unfold float_key. by rewrite Hv. }
    assert (key y = Some vy → key x = Some vx →
            (float_key key y <=? float_key key x)%F = true →
            (vy <=? vx)%F = true) as Hback.
    { unfold float_key. by intros -> ->. }
    apply Hback; [exact Hvy | exact Hvx |].
    destruct (length l <? 2)%nat eqn:Hlen.
    + injection Hsort as <-. apply Nat.ltb_lt in Hlen.
      assert (i = j) as ->.
      { apply lookup_lt_Some in Hx, Hy. lia. }
      rewrite Hx in Hy. injection Hy as <-.
      apply fle_refl. eapply Forall_forall in Hnan; [exact Hnan |].
      by eapply list_elem_of_lookup_2.
    + destruct (forallb _ l); [| discriminate].
      injection Hsort as <-.
      eapply (descending_lookup (float_key key)); [| | exact Hij | done | done].
      * by rewrite insertion_perm.
      * by apply insertion_descending.
Qed.

(** ** The outcome of a screening *)

Import ScreenerExamples.

Section ScreenerOutcomes.
Context `{Libm} `{ListSort}.
Local Open Scope float_scope.

Lemma final_score_absent (d : dict) (rf : float) (count : Z)
    (details : condition_details_t) (m : float) :
  final_score (result_of d rf count details m) = None
  ↔ ¬ usable (hv30 (result_of d rf count details m)).
Proof.
  cbn [final_score hv30 result_of].
  unfold final_score_of, adjusted_sr_of, usable.
  destruct (calculate_hv (history d) 30) as [h |].
  - destruct (h <=? Fin 0) eqn:Hh.
    + split; [| done]. intros _ (h' & [= <-] & Hh'). congruence.
    + split; [done |]. intros Hno. destruct Hno. by exists h.
  - split; [| done]. by intros _ (h' & [=] & _).
Qed.

(** X23. screen raises TypeError exactly when two or more symbols are kept
    and one of their rows has no final score: the sort cannot compare
    None.  A kept row has no final score exactly when its hv30 is absent
    or <= 0, which is the case of every symbol with fewer than 31
    prices. *)
Theorem X23_unscored_row_breaks_the_sort
    (get_stock_detail : string → option StockDetail)
    (market : Market) (σ : heap) (symbols : option (list string))
    (top_n : Z) :
  sort_laws →
  client_in_store σ get_stock_detail →
  let kept := kept_rows get_stock_detail market σ symbols in
  let thresholds := sr_thresholds (get_thresholds market) in
  ((screen get_stock_detail market σ symbols top_n).1 = Fails TypeError
   ↔ (2 ≤ length kept)%nat
     ∧ ∃ row, row ∈ kept ∧ row_final_score row = None)
  ∧ (∀ row, row ∈ kept →
       (row_final_score row = None ↔ ¬ usable (row_hv30 row)))
  ∧ (∀ symbol detail d row,
       get_stock_detail symbol = Some detail →
       σ !! detail_ref detail = Some d →
       (length (history d) < 31)%nat →
       row_of get_stock_detail thresholds
         (th_get thresholds "rf" (Fin 0.005)) σ symbol = Some row →
       row_final_score row = None).
Proof.
  intros Hsort Hclient kept thresholds.
  destruct (screen_run get_stock_detail market σ symbols top_n Hclient)
    as [ext ->].
  fold kept. cbn [fst]. split; [split |].
  - intros Hfail.
    destruct (sort_desc row_final_score kept) as [sorted |] eqn:Hsorted;
      [discriminate |].
    split.
    + destruct (Nat.lt_ge_cases (length kept) 2) as [Hfew | Hmany];
        [| exact Hmany].
      rewrite (sort_few Hsort _ _ Hfew) in Hsorted. discriminate.
    + destruct (decide (Forall (λ row, is_Some (row_final_score row)) kept))
        as [Hall | Hnot].
      * apply (sort_returns Hsort) in Hall. rewrite Hsorted in Hall.
        by destruct Hall.
      * apply not_Forall_Exists in Hnot; [| apply _].
        apply Exists_exists in Hnot as (row & Hin & Hnone).
        exists row. split; [exact Hin |]. by apply eq_None_not_Some.
  - intros (Hmany & row & Hin & Hnone).
    by rewrite (sort_unorderable Hsort _ _ row Hmany Hin Hnone).
  - split.
    + intros row Hin. unfold kept, kept_rows in Hin.
      apply list_elem_of_omap in Hin as (symbol & _ & Hrow).
      destruct (kept_row_inv _ _ _ _ _ _ Hclient Hrow)
        as (detail & d & count & details & m & _ & _ & _ & _ & _ & ->).
      apply final_score_absent.
    + intros symbol detail d row Hdetail Hl Hshort Hrow.
      destruct (kept_row_inv _ _ _ _ _ _ Hclient Hrow)
        as (detail' & d' & count & details & m & Hdetail' & Hl' & _ & _ & _
            & ->).
      rewrite Hdetail in Hdetail'. injection Hdetail' as <-.
      rewrite Hl in Hl'. injection Hl' as <-.
      apply final_score_absent. intros (h & Hh & _).
      cbn [hv30 result_of] in Hh. unfold calculate_hv in Hh.
      assert ((length (history d) <? 30 + 1)%nat = true) as Hlt
          by (apply Nat.ltb_lt; lia).
      rewrite Hlt in Hh. discriminate.
Qed.

Lemma lookup_sr_thresholds (m : gmap string float) (key : string) :
  sr_thresholds m !! key
  = if decide (key = "pbr_max") then Some (Fin 1.5)
    else if decide (key = "per_max") then Some (Fin 15)
    else if decide (key = "hv30_max") then Some (Fin 0.25)
    else m !! key.
Proof.
  unfold sr_thresholds.
  destruct (decide (key = "pbr_max")) as [-> | Hpbr];
    [by rewrite lookup_insert_eq |].
  rewrite lookup_insert_ne by done.
  destruct (decide (key = "per_max")) as [-> | Hper];
    [by rewrite lookup_insert_eq |].
  rewrite lookup_insert_ne by done.
  destruct (decide (key = "hv30_max")) as [-> | Hhv];
    [by rewrite lookup_insert_eq |].
  by rewrite lookup_insert_ne.
Qed.

(** X24. The market's own values for hv30_max, per_max and pbr_max never
    reach the scoring: screen replaces them, so a market that differs only
    in one of these keys gives the same outcome and the same store.  The
    risk-free rate is the market's value under rf, 0.005 when it has
    none. *)
Theorem X24_market_values_replaced
    (get_stock_detail : string → option StockDetail)
    (default_symbols : list string) (thresholds : gmap string float)
    (σ : heap) (symbols : option (list string)) (top_n : Z)
    (key : string) (v : float) :
  key = "hv30_max" ∨ key = "per_max" ∨ key = "pbr_max" →
  screen get_stock_detail
    {| get_default_symbols := default_symbols;
       get_thresholds := <[key := v]> thresholds |} σ symbols top_n
  = screen get_stock_detail
      {| get_default_symbols := default_symbols;
         get_thresholds := thresholds |} σ symbols top_n
  ∧ th_get (sr_thresholds thresholds) "rf" (Fin 0.005)
    = default (Fin 0.005) (thresholds !! "rf").
Proof.
  intros Hkey. split.
  - unfold screen. cbn [get_default_symbols get_thresholds].
    assert (sr_thresholds (<[key := v]> thresholds) = sr_thresholds thresholds)
      as ->; [| reflexivity].
    apply map_eq. intros k. rewrite !lookup_sr_thresholds.
    repeat case_decide; try reflexivity.
    apply lookup_insert_ne. by destruct Hkey as [-> | [-> | ->]].
  - unfold th_get. by rewrite lookup_sr_thresholds.
Qed.




End ScreenerOutcomes.

Lemma client_in_example_store : client_in_store store client.
Proof.
  intros symbol detail. unfold client.
  repeat case_decide; intros [= <-]; by eexists.
Qed.


Lemma X23_unscored_row_breaks_the_sort_witness :
  @sort_laws insertion_sort
  ∧ client_in_store store client
  ∧ (@screen first_order_libm insertion_sort client market store None 20).1
    = Fails TypeError.
Proof.
  split; [exact insertion_sort_laws |].
  split; [exact client_in_example_store |].
  apply (proj1 (@X23_unscored_row_breaks_the_sort first_order_libm
                  insertion_sort client market store None 20
                  insertion_sort_laws client_in_example_store)).
  split; [vm_compute; lia |].
  vm_compute. eexists.
  split; [apply list_elem_of_further, list_elem_of_here | reflexivity].
Defined.

Lemma X24_market_values_replaced_witness :
  ("per_max" = "hv30_max" ∨ "per_max" = "per_max" ∨ "per_max" = "pbr_max")
  ∧ @screen first_order_libm insertion_sort client
      {| get_default_symbols := ["BBB"];
         get_thresholds := <["per_max" := Fin 30]> ∅ |} store None 20
    = @screen first_order_libm insertion_sort client
        {| get_default_symbols := ["BBB"]; get_thresholds := ∅ |}
        store None 20.
Proof.
  assert ("per_max" = "hv30_max" ∨ "per_max" = "per_max"
          ∨ "per_max" = "pbr_max") as Hkey by (right; left; reflexivity).
  split; [exact Hkey |].
  exact (proj1 (@X24_market_values_replaced first_order_libm insertion_sort
                  client ["BBB"] ∅ store None 20 "per_max" (Fin 30) Hkey)).
Defined.

